(** * Appointment scheduling and reservation engine of the massage bot

    A shallow embedding of the scheduling core of [bot.py]: the slot
    generator ([get_available_times]), the availability checker
    ([is_slot_available], [get_available_slots]), the reservation handlers
    ([create_appointment], [cancel_appointment], [admin_complete_appointment],
    [admin_cancel_appointment], [clear_history]) and one cycle of the reminder
    loop ([schedule_reminders]).

    Conventions.
    - A [datetime] is a whole number of seconds on the naive local time line
      (the program stores and compares ['%Y-%m-%d %H:%M:%S'] strings, whose
      order is the order of the instants); a date is a day number, a
      time-of-day string ['HH:MM'] is the pair (hour, minute).
    - The SQLite tables are lists of rows in rowid order; a JOIN is the
      nested filter it denotes; an [AUTOINCREMENT] key is drawn from a
      counter kept with the table.
    - [datetime.now()] is an argument [now] of what reads the clock; its
      sub-second part plays no role, since it is compared with whole seconds
      or formatted away.  [CURRENT_TIMESTAMP], the clock of the store, is an
      argument [ts] of every handler that writes.
    - What a handler sends, awaits or answers is returned as a list of
      [event]s in program order. *)

From Stdlib Require Import String ZArith List Bool Lia.
Import ListNotations.
Open Scope Z_scope.

(** ** Dates and times *)

Definition datetime := Z.
Definition date := Z.
Definition time_str := (Z * Z)%type.

Definition day_seconds : Z := 86400.

(** [datetime.date()] and [datetime.time()] (the latter in seconds). *)
Definition date_of (t : datetime) : date := t / day_seconds.
Definition time_of (t : datetime) : Z := t mod day_seconds.

(** [datetime.strptime(time_str, '%H:%M').time()], in seconds. *)
Definition time_obj (s : time_str) : Z := fst s * 3600 + snd s * 60.

(** [datetime.strptime(f"{date_str} {time_str}", '%d.%m.%Y %H:%M')]. *)
Definition strptime (d : date) (s : time_str) : datetime :=
  d * day_seconds + time_obj s.

(** ** Slot generator *)

Definition start_hour : Z := 10.
Definition end_hour : Z := 18.

(** The [while] loop of [get_available_times]; [None] when the fuel runs out
    before the loop condition fails. *)
Fixpoint times_loop (fuel : nat) (current_hour current_minute : Z)
    (times : list time_str) : option (list time_str) :=
  if (current_hour <? end_hour)
     || ((current_hour =? end_hour) && (current_minute =? 0))
  then
    match fuel with
    | O => None
    | S fuel' =>
        let times := times ++ [(current_hour, current_minute)] in
        let current_hour := current_hour + 1 in
        let current_minute := current_minute + 30 in
        if current_minute >=? 60
        then times_loop fuel' (current_hour + 1) (current_minute - 60) times
        else times_loop fuel' current_hour current_minute times
    end
  else Some times.

Definition get_available_times_fuel (fuel : nat) : option (list time_str) :=
  match times_loop fuel start_hour 0 [] with
  | Some times =>
      Some (filter (fun s => time_obj s <=? time_obj (17, 30)) times)
  | None => None
  end.

Definition get_available_times : list time_str :=
  match get_available_times_fuel 8 with
  | Some times => times
  | None => []
  end.

(** ** Tables *)

Inductive appointment_status := active | completed | cancelled.

Definition status_eqb (a b : appointment_status) : bool :=
  match a, b with
  | active, active | completed, completed | cancelled, cancelled => true
  | _, _ => false
  end.

Record client := {
  c_id : Z;
  telegram_id : Z;
  username : string;
  c_name : string
}.

Record service := {
  s_id : Z;
  s_name : string;
  duration : Z;
  price : Z
}.

Record master := {
  m_id : Z;
  m_name : string;
  m_active : bool
}.

Record appointment := {
  a_id : Z;
  client_id : Z;
  service_id : Z;
  master_id : Z;
  appointment_time : datetime;
  status : appointment_status;
  created_at : datetime;
  updated_at : datetime;
  reminder_sent_day : bool;
  reminder_sent_hour : bool;
  reminder_sent_admin : bool
}.

Record database := {
  clients : list client;
  clients_seq : Z;
  services : list service;
  masters : list master;
  admins : list Z;
  appointments : list appointment;
  appointments_seq : Z
}.

Definition with_appointments (db : database) (l : list appointment) : database :=
  {| clients := clients db; clients_seq := clients_seq db;
     services := services db; masters := masters db; admins := admins db;
     appointments := l; appointments_seq := appointments_seq db |}.

(** ** Availability checker *)

Definition is_active (a : appointment) : bool := status_eqb (status a) active.

Definition is_terminal (a : appointment) : bool :=
  status_eqb (status a) completed || status_eqb (status a) cancelled.

(** The rows of [SELECT COUNT( * ) ... WHERE appointment_time = ? AND
    master_id = ? AND status = 'active']. *)
Definition active_at (t : datetime) (m : Z) (db : database) : list appointment :=
  filter (fun a => (appointment_time a =? t) && (master_id a =? m) && is_active a)
         (appointments db).

Definition is_slot_available (d : date) (s : time_str) (m : Z) (db : database) : bool :=
  (Z.of_nat (length (active_at (strptime d s) m db)) =? 0).

(** [get_available_slots], for the wall-clock reading [now]. *)
Definition get_available_slots (d : date) (m : Z) (now : datetime) (db : database)
  : list time_str :=
  let all_times := get_available_times in
  let today := date_of now in
  filter (fun s =>
            if (d =? today) && (time_obj s <=? time_of now)
            then false
            else is_slot_available d s m db)
         all_times.

(** ** What a handler sends, awaits and answers *)

Inductive actor := by_client | by_admin.

(** The texts the program renders, by kind, with the values interpolated in
    them.  A reminder also carries the id of the row it was rendered from
    (its first field), which the text itself does not show. *)
Inductive message :=
| ReviewRequest (appointment_id : Z) (service_name master_name : string)
| NewAppointmentNotice (appointment_id : Z) (client_name service_name master_name : string)
    (time : datetime)
| CancellationNotice (appointment_id : Z) (client_name service_name master_name : string)
    (time : datetime) (cancelled_by : actor)
| DayReminder (app_id : Z) (service_name master_name : string) (time : datetime)
| HourReminder (app_id : Z) (service_name master_name : string) (time : datetime)
| AdminReminder (app_id : Z) (client_name service_name master_name : string)
    (time : datetime).

(** The answers written with [edit_message_text]. *)
Inductive reply :=
| SlotJustTaken
| AppointmentCreated (appointment_id : Z)
| NotFoundOrAlreadyCancelled
| NotYourAppointment
| AppointmentCancelled (appointment_id : Z)
| AdminCompleted (appointment_id : Z)
| AdminCancelled (appointment_id : Z)
| ClientNotFound
| HistoryCleared (deleted_count : Z).

Inductive event :=
| Send (chat_id : Z) (msg : message)
| Sleep (seconds : Z)
| Reply (r : reply).

Inductive exn := IntegrityError | TypeError.

Inductive outcome :=
| Returned (trace : list event)
| Raised (e : exn).

(** Seconds spent in [asyncio.sleep] along a trace. *)
Fixpoint elapsed (trace : list event) : Z :=
  match trace with
  | [] => 0
  | Sleep n :: rest => n + elapsed rest
  | _ :: rest => elapsed rest
  end.

(** ** Queries *)

Definition fetchone {A : Type} (rows : list A) : option A := hd_error rows.

Definition clients_with_id (i : Z) (db : database) : list client :=
  filter (fun c => c_id c =? i) (clients db).

Definition services_with_id (i : Z) (db : database) : list service :=
  filter (fun s => s_id s =? i) (services db).

Definition masters_with_id (i : Z) (db : database) : list master :=
  filter (fun m => m_id m =? i) (masters db).

Definition joined := (appointment * client * service * master)%type.

(** [FROM appointments a JOIN clients c ON a.client_id = c.id JOIN services
    s ON a.service_id = s.id JOIN masters m ON a.master_id = m.id], for one
    row [a]. *)
Definition join_csm (db : database) (a : appointment) : list joined :=
  flat_map (fun c =>
    flat_map (fun s =>
      map (fun m => (a, c, s, m)) (masters_with_id (master_id a) db))
      (services_with_id (service_id a) db))
    (clients_with_id (client_id a) db).

(** The three-way join restricted by a [WHERE] clause on the appointment. *)
Definition select_joined (where_ : appointment -> bool) (db : database) : list joined :=
  flat_map (fun a => if where_ a then join_csm db a else []) (appointments db).

(** ** Statements that write *)

(** [UPDATE appointments SET ... WHERE id = ?]. *)
Definition update_where_id (i : Z) (f : appointment -> appointment) (db : database)
  : database :=
  with_appointments db
    (map (fun a => if a_id a =? i then f a else a) (appointments db)).

(** [SET status = ..., updated_at = CURRENT_TIMESTAMP]. *)
Definition set_status (st : appointment_status) (ts : datetime) (a : appointment)
  : appointment :=
  {| a_id := a_id a; client_id := client_id a; service_id := service_id a;
     master_id := master_id a; appointment_time := appointment_time a;
     status := st; created_at := created_at a; updated_at := ts;
     reminder_sent_day := reminder_sent_day a;
     reminder_sent_hour := reminder_sent_hour a;
     reminder_sent_admin := reminder_sent_admin a |}.

Definition set_reminder_sent_day (a : appointment) : appointment :=
  {| a_id := a_id a; client_id := client_id a; service_id := service_id a;
     master_id := master_id a; appointment_time := appointment_time a;
     status := status a; created_at := created_at a; updated_at := updated_at a;
     reminder_sent_day := true;
     reminder_sent_hour := reminder_sent_hour a;
     reminder_sent_admin := reminder_sent_admin a |}.

Definition set_reminder_sent_hour (a : appointment) : appointment :=
  {| a_id := a_id a; client_id := client_id a; service_id := service_id a;
     master_id := master_id a; appointment_time := appointment_time a;
     status := status a; created_at := created_at a; updated_at := updated_at a;
     reminder_sent_day := reminder_sent_day a;
     reminder_sent_hour := true;
     reminder_sent_admin := reminder_sent_admin a |}.

Definition set_reminder_sent_admin (a : appointment) : appointment :=
  {| a_id := a_id a; client_id := client_id a; service_id := service_id a;
     master_id := master_id a; appointment_time := appointment_time a;
     status := status a; created_at := created_at a; updated_at := updated_at a;
     reminder_sent_day := reminder_sent_day a;
     reminder_sent_hour := reminder_sent_hour a;
     reminder_sent_admin := true |}.

(** The key of [UNIQUE(appointment_time, master_id)]. *)
Definition same_slot (t : datetime) (m : Z) (a : appointment) : bool :=
  (appointment_time a =? t) && (master_id a =? m).

(** The rowid an [AUTOINCREMENT] table gives its next row: one more than the
    largest it ever gave or holds. *)
Definition next_rowid (seq : Z) (ids : list Z) : Z :=
  Z.max seq (fold_right Z.max 0 ids) + 1.

(** [INSERT INTO appointments (client_id, service_id, master_id,
    appointment_time, status) VALUES (?, ?, ?, ?, 'active')]: [None] is
    [sqlite3.IntegrityError], raised when a stored row, whatever its status,
    has the same (appointment_time, master_id); otherwise the new table and
    [cursor.lastrowid]. *)
Definition insert_appointment (client service master : Z) (t ts : datetime)
    (db : database) : option (database * Z) :=
  if existsb (same_slot t master) (appointments db) then None
  else
    let i := next_rowid (appointments_seq db) (map a_id (appointments db)) in
    let row :=
      {| a_id := i; client_id := client; service_id := service;
         master_id := master; appointment_time := t; status := active;
         created_at := ts; updated_at := ts;
         reminder_sent_day := false; reminder_sent_hour := false;
         reminder_sent_admin := false |} in
    Some ({| clients := clients db; clients_seq := clients_seq db;
             services := services db; masters := masters db;
             admins := admins db;
             appointments := appointments db ++ [row];
             appointments_seq := i |}, i).

Record user := {
  u_id : Z;
  u_username : string;
  full_name : string
}.

(** [INSERT INTO clients (telegram_id, username, name) VALUES (?, ?, ?)];
    [telegram_id] is [UNIQUE]. *)
Definition insert_client (u : user) (db : database) : option database :=
  if existsb (fun c => telegram_id c =? u_id u) (clients db) then None
  else
    let i := next_rowid (clients_seq db) (map c_id (clients db)) in
    Some {| clients := clients db ++
              [{| c_id := i; telegram_id := u_id u;
                  username := u_username u; c_name := full_name u |}];
            clients_seq := i;
            services := services db; masters := masters db;
            admins := admins db;
            appointments := appointments db;
            appointments_seq := appointments_seq db |}.

(** [INSERT OR IGNORE INTO admins ...] of [add_admin]. *)
Definition add_admin (user_id : Z) (db : database) : database :=
  if existsb (Z.eqb user_id) (admins db) then db
  else
    {| clients := clients db; clients_seq := clients_seq db;
       services := services db; masters := masters db;
       admins := admins db ++ [user_id];
       appointments := appointments db;
       appointments_seq := appointments_seq db |}.

(** [SELECT id FROM clients WHERE telegram_id = ? LIMIT 1]. *)
Definition client_by_telegram (tg : Z) (db : database) : option client :=
  fetchone (filter (fun c => telegram_id c =? tg) (clients db)).

(** ** Notifications *)

(** [send_admin_notification]: one [send_notification] per row of [admins]. *)
Definition send_admin_notification (db : database) (msg : message) : list event :=
  map (fun admin_id => Send admin_id msg) (admins db).

Definition has_id (i : Z) (a : appointment) : bool := a_id a =? i.

(** [ask_for_review], called by a handler with its own [context]: nothing
    is sent when the joined row is not found. *)
Definition ask_for_review (db : database) (appointment_id : Z) : list event :=
  match fetchone (select_joined (has_id appointment_id) db) with
  | Some (_, c, s, m) =>
      [Send (telegram_id c) (ReviewRequest appointment_id (s_name s) (m_name m))]
  | None => []
  end.

(** [ask_for_review(None, ContextTypes.DEFAULT_TYPE, app_id)], the call made
    by the reminder loop.  [ContextTypes.DEFAULT_TYPE] is the class of
    contexts, not a context: once the joined row is found,
    [context.bot.send_message] raises inside the [try] of [ask_for_review],
    the error is logged, and nothing is sent. *)
Definition ask_for_review_without_context (db : database) (appointment_id : Z)
  : list event :=
  match fetchone (select_joined (has_id appointment_id) db) with
  | Some _ => []
  | None => []
  end.

Definition send_new_appointment_notification (db : database) (appointment_id : Z)
  : list event :=
  match fetchone (select_joined (has_id appointment_id) db) with
  | Some (a, c, s, m) =>
      send_admin_notification db
        (NewAppointmentNotice appointment_id (c_name c) (s_name s) (m_name m)
           (appointment_time a))
  | None => []
  end.

Definition send_cancellation_notification (db : database) (appointment_id : Z)
    (cancelled_by : actor) : list event :=
  match fetchone (select_joined (has_id appointment_id) db) with
  | Some (a, c, s, m) =>
      send_admin_notification db
        (CancellationNotice appointment_id (c_name c) (s_name s) (m_name m)
           (appointment_time a) cancelled_by)
  | None => []
  end.

(** ** Reservation handlers *)

(** The block [# Получаем или создаем клиента] that opens
    [create_appointment]: the client row of the user, inserted first when
    the lookup finds none. *)
Definition get_or_create_client (u : user) (db : database)
  : exn + database * option client :=
  match client_by_telegram (u_id u) db with
  | Some c => inr (db, Some c)
  | None =>
      match insert_client u db with
      | None => inl IntegrityError
      | Some db1 =>
          inr (db1, fetchone (filter (fun c => telegram_id c =? u_id u) (clients db1)))
      end
  end.

(** [create_appointment]: the slot is re-checked with [is_slot_available]
    and the row is inserted; the [INSERT] stands outside any [try], so its
    [IntegrityError] leaves the handler. *)
Definition create_appointment (u : user) (service_id0 master_id0 : Z)
    (selected_date : date) (selected_time : time_str) (ts : datetime)
    (db : database) : database * outcome :=
  match get_or_create_client u db with
  | inl e => (db, Raised e)
  | inr (db1, None) => (db1, Raised TypeError)
  | inr (db1, Some c) =>
      let client_id0 := c_id c in
      if negb (is_slot_available selected_date selected_time master_id0 db1)
      then (db1, Returned [Reply SlotJustTaken])
      else
        let service0 := fetchone (services_with_id service_id0 db1) in
        let master0 := fetchone (masters_with_id master_id0 db1) in
        let appointment_datetime := strptime selected_date selected_time in
        match insert_appointment client_id0 service_id0 master_id0
                appointment_datetime ts db1 with
        | None => (db1, Raised IntegrityError)
        | Some (db2, appointment_id) =>
            match service0, master0 with
            | Some _, Some _ =>
                (db2, Returned (Reply (AppointmentCreated appointment_id)
                                :: send_new_appointment_notification db2 appointment_id))
            | _, _ => (db2, Returned [])
            end
        end
  end.

(** [cancel_appointment], the client's own cancellation. *)
Definition cancel_appointment (u : user) (appointment_id : Z) (ts : datetime)
    (db : database) : database * list event :=
  match fetchone (select_joined (fun a => has_id appointment_id a && is_active a) db) with
  | None => (db, [Reply NotFoundOrAlreadyCancelled])
  | Some (_, c, _, _) =>
      let is_owner :=
        fetchone (filter (fun c' => (c_id c' =? c_id c) && (telegram_id c' =? u_id u))
                         (clients db)) in
      match is_owner with
      | None => (db, [Reply NotYourAppointment])
      | Some _ =>
          let db' := update_where_id appointment_id (set_status cancelled ts) db in
          (db', send_cancellation_notification db' appointment_id by_client
                ++ [Reply (AppointmentCancelled appointment_id)])
      end
  end.

(** [admin_complete_appointment]: the [UPDATE] has no condition on the
    status. *)
Definition admin_complete_appointment (appointment_id : Z) (ts : datetime)
    (db : database) : database * list event :=
  let db' := update_where_id appointment_id (set_status completed ts) db in
  (db', Sleep 600 :: ask_for_review db' appointment_id
        ++ [Reply (AdminCompleted appointment_id)]).

(** [admin_cancel_appointment]: likewise. *)
Definition admin_cancel_appointment (appointment_id : Z) (ts : datetime)
    (db : database) : database * list event :=
  let db' := update_where_id appointment_id (set_status cancelled ts) db in
  (db', send_cancellation_notification db' appointment_id by_admin
        ++ [Reply (AdminCancelled appointment_id)]).

(** The [WHERE] clause of the [DELETE] in [clear_history]. *)
Definition in_history_of (client_id0 : Z) (a : appointment) : bool :=
  (client_id a =? client_id0) && is_terminal a.

(** [clear_history]; [deleted_count] is [cursor.rowcount]. *)
Definition clear_history (u : user) (db : database) : database * list event :=
  match client_by_telegram (u_id u) db with
  | None => (db, [Reply ClientNotFound])
  | Some c =>
      let client_id0 := c_id c in
      let deleted := filter (in_history_of client_id0) (appointments db) in
      let kept := filter (fun a => negb (in_history_of client_id0 a)) (appointments db) in
      let deleted_count := Z.of_nat (length deleted) in
      (with_appointments db kept, [Reply (HistoryCleared deleted_count)])
  end.

(** ** The reminder loop: one cycle of [schedule_reminders] *)

(** [SELECT a.id, c.telegram_id FROM appointments a JOIN clients c ... WHERE
    a.appointment_time < ? AND a.status = 'active']. *)
Definition is_past_active (now : datetime) (a : appointment) : bool :=
  (appointment_time a <? now) && is_active a.

Definition past_appointments (now : datetime) (db : database) : list (Z * Z) :=
  flat_map (fun a =>
              if is_past_active now a
              then map (fun c => (a_id a, telegram_id c)) (clients_with_id (client_id a) db)
              else [])
           (appointments db).

Definition sweep_state := (database * list event)%type.

(** The body of [for app_id, telegram_id in past_apps]: the row is completed
    at the store's clock, which has moved on by what the cycle slept so far;
    then the loop sleeps ten minutes and calls [ask_for_review] without a
    context, which sends nothing. *)
Definition complete_one (ts : datetime) (st : sweep_state) (row : Z * Z) : sweep_state :=
  let '(db, trace) := st in
  let '(app_id, _) := row in
  let db' := update_where_id app_id (set_status completed (ts + elapsed trace)) db in
  (db', trace ++ Sleep 600 :: ask_for_review_without_context db' app_id).

Definition auto_complete (now ts : datetime) (st : sweep_state) : sweep_state :=
  fold_left (complete_one ts) (past_appointments now (fst st)) st.

(** [WHERE a.appointment_time BETWEEN ? AND ? AND a.status = 'active' AND
    a.<flag> = 0]. *)
Definition due (lo hi : datetime) (flag : appointment -> bool) (a : appointment) : bool :=
  (lo <=? appointment_time a) && (appointment_time a <=? hi)
  && is_active a && negb (flag a).

Definition day_start (now : datetime) : datetime :=
  let day_later := now + 86400 in day_later - day_later mod 86400.
Definition day_end (now : datetime) : datetime := day_start now + 86399.

Definition hour_start (now : datetime) : datetime :=
  let hour_later := now + 3600 in hour_later - hour_later mod 3600.
Definition hour_end (now : datetime) : datetime := hour_start now + 3599.

Definition ten_min_start (now : datetime) : datetime :=
  let ten_min_later := now + 600 in ten_min_later - ten_min_later mod 60.
Definition ten_min_end (now : datetime) : datetime := ten_min_start now + 59.

Definition remind_day_one (st : sweep_state) (row : joined) : sweep_state :=
  let '(db, trace) := st in
  let '(a, c, s, m) := row in
  (update_where_id (a_id a) set_reminder_sent_day db,
   trace ++ [Send (telegram_id c)
               (DayReminder (a_id a) (s_name s) (m_name m) (appointment_time a))]).

Definition remind_day (now : datetime) (st : sweep_state) : sweep_state :=
  fold_left remind_day_one
    (select_joined (due (day_start now) (day_end now) reminder_sent_day) (fst st)) st.

Definition remind_hour_one (st : sweep_state) (row : joined) : sweep_state :=
  let '(db, trace) := st in
  let '(a, c, s, m) := row in
  (update_where_id (a_id a) set_reminder_sent_hour db,
   trace ++ [Send (telegram_id c)
               (HourReminder (a_id a) (s_name s) (m_name m) (appointment_time a))]).

Definition remind_hour (now : datetime) (st : sweep_state) : sweep_state :=
  fold_left remind_hour_one
    (select_joined (due (hour_start now) (hour_end now) reminder_sent_hour) (fst st)) st.

Definition remind_admin_one (st : sweep_state) (row : joined) : sweep_state :=
  let '(db, trace) := st in
  let '(a, c, s, m) := row in
  (update_where_id (a_id a) set_reminder_sent_admin db,
   trace ++ send_admin_notification db
              (AdminReminder (a_id a) (c_name c) (s_name s) (m_name m)
                 (appointment_time a))).

Definition remind_admin (now : datetime) (st : sweep_state) : sweep_state :=
  fold_left remind_admin_one
    (select_joined (due (ten_min_start now) (ten_min_end now) reminder_sent_admin)
       (fst st)) st.

(** One pass of the [while True] body, for the reading [now] of
    [datetime.now()] taken at its top and the store's clock [ts] at that
    moment; the cycle ends in [asyncio.sleep(60)]. *)
Definition sweep (now ts : datetime) (db : database) : sweep_state :=
  let st := auto_complete now ts (db, []) in
  let st := remind_day now st in
  let st := remind_hour now st in
  let st := remind_admin now st in
  (fst st, snd st ++ [Sleep 60]).

(** [schedule_reminders] over a finite run of its [while True] loop: one
    cycle per pair of clock readings (wall clock, store clock), each on the
    store the previous one left. *)
Definition schedule_reminders (readings : list (datetime * datetime)) (db : database)
  : sweep_state :=
  fold_left (fun st r =>
               let st' := sweep (fst r) (snd r) (fst st) in
               (fst st', snd st ++ snd st'))
            readings (db, []).

(** The ids of the rows a trace sent a day-before reminder for. *)
Fixpoint day_reminders (trace : list event) : list Z :=
  match trace with
  | [] => []
  | Send _ (DayReminder app_id _ _ _) :: rest => app_id :: day_reminders rest
  | _ :: rest => day_reminders rest
  end.

(** ** The initial store *)

(** The tables [init_db] creates and seeds on an empty file. *)
Definition init_db : database :=
  {| clients := [];
     clients_seq := 0;
     services :=
       [ {| s_id := 1; s_name := "Классический массаж"; duration := 60; price := 1000 |};
         {| s_id := 2; s_name := "Спортивный массаж"; duration := 60; price := 1000 |};
         {| s_id := 3; s_name := "Перкуссионный массаж"; duration := 60; price := 1500 |};
         {| s_id := 4; s_name := "Вакуумный массаж"; duration := 45; price := 1500 |} ];
     masters :=
       [ {| m_id := 1; m_name := "Илья"; m_active := true |};
         {| m_id := 2; m_name := "Богдан"; m_active := true |} ];
     admins := [1627345808];
     appointments := [];
     appointments_seq := 0 |}.

(** ** Concurrent bookings of one slot

    Each [await] of [create_appointment] is a point where another handler
    may run.  A call that has its client row is at one of three points:
    before the [is_slot_available] query, between a passed check and the
    [INSERT], or finished. *)

Inductive create_result :=
| SlotConflict
| Created (appointment_id : Z)
| UncaughtIntegrityError.

Inductive booking :=
| Checking (client_id0 service_id0 : Z)
| Inserting (client_id0 service_id0 : Z)
| Finished (r : create_result).

Definition is_finished (b : booking) : bool :=
  match b with Finished _ => true | _ => false end.

Definition has_created (b : booking) : bool :=
  match b with Finished (Created _) => true | _ => false end.

(** The number of calls that created a row, and the calls none of which has
    finished. *)
Definition created (calls : list booking) : nat := length (filter has_created calls).

Definition none_finished (calls : list booking) : Prop :=
  forallb (fun b => negb (is_finished b)) calls = true.

(** A call in progress belongs to a stored client. *)
Definition client_stored (db : database) (b : booking) : Prop :=
  match b with
  | Checking c _ | Inserting c _ => In c (map c_id (clients db))
  | Finished _ => True
  end.

Section OneSlot.

Variables (master_id0 : Z) (selected_date : date) (selected_time : time_str).
Variable ts : datetime.

(** The next statement of one call. *)
Definition advance (b : booking) (db : database) : booking * database :=
  match b with
  | Checking c s =>
      if negb (is_slot_available selected_date selected_time master_id0 db)
      then (Finished SlotConflict, db)
      else (Inserting c s, db)
  | Inserting c s =>
      match insert_appointment c s master_id0
              (strptime selected_date selected_time) ts db with
      | None => (Finished UncaughtIntegrityError, db)
      | Some (db', i) => (Finished (Created i), db')
      end
  | Finished r => (Finished r, db)
  end.

(** The event loop resumes call number [i]. *)
Fixpoint resume (i : nat) (calls : list booking) (db : database)
  : list booking * database :=
  match calls, i with
  | [], _ => ([], db)
  | b :: rest, O => let (b', db') := advance b db in (b' :: rest, db')
  | b :: rest, S i' => let (rest', db') := resume i' rest db in (b :: rest', db')
  end.

(** A schedule is the order in which the event loop resumes the calls. *)
Definition run (schedule : list nat) (calls : list booking) (db : database)
  : list booking * database :=
  fold_left (fun st i => resume i (fst st) (snd st)) schedule (calls, db).

(** The two situations a run from a free slot passes through: no row is
    stored for the slot and no call has finished; or one call has created
    the row, which is the one active row of the slot. *)
Definition slot_free (calls : list booking) (db : database) : Prop :=
  existsb (same_slot (strptime selected_date selected_time) master_id0)
    (appointments db) = false
  /\ none_finished calls.

Definition slot_won (calls : list booking) (db : database) : Prop :=
  created calls = 1%nat
  /\ length (active_at (strptime selected_date selected_time) master_id0 db) = 1%nat.

(** Whatever the store holds: no call has created a row, or one has and the
    slot is taken. *)
Definition at_most_one (calls : list booking) (db : database) : Prop :=
  created calls = 0%nat
  \/ (created calls = 1%nat
      /\ existsb (same_slot (strptime selected_date selected_time) master_id0)
           (appointments db) = true).

End OneSlot.

(** ** Reachable stores *)

(** One atomic change of the store: a whole handler, or one statement of a
    handler that other handlers overtake between its [await]s (the [INSERT]
    of a booking whose check was made earlier, one flag [UPDATE] of the
    reminder loop; a completion of the loop is the [UPDATE] of
    [admin_complete_appointment]). *)
Inductive step : database -> database -> Prop :=
| step_register : forall db db' u,
    insert_client u db = Some db' -> step db db'
| step_add_admin : forall db user_id,
    step db (add_admin user_id db)
| step_create : forall db u s m d t ts,
    step db (fst (create_appointment u s m d t ts db))
| step_insert : forall db db' c s m t ts i,
    In c (map c_id (clients db)) ->
    insert_appointment c s m t ts db = Some (db', i) -> step db db'
| step_cancel : forall db u i ts,
    step db (fst (cancel_appointment u i ts db))
| step_admin_complete : forall db i ts,
    step db (fst (admin_complete_appointment i ts db))
| step_admin_cancel : forall db i ts,
    step db (fst (admin_cancel_appointment i ts db))
| step_clear : forall db u,
    step db (fst (clear_history u db))
| step_flag_day : forall db i,
    step db (update_where_id i set_reminder_sent_day db)
| step_flag_hour : forall db i,
    step db (update_where_id i set_reminder_sent_hour db)
| step_flag_admin : forall db i,
    step db (update_where_id i set_reminder_sent_admin db)
| step_sweep : forall db now ts,
    step db (fst (sweep now ts db)).

Inductive reachable : database -> Prop :=
| reachable_init : reachable init_db
| reachable_step : forall db db', reachable db -> step db db' -> reachable db'.

(** ** Well-formed stores *)

Create HintDb wf.

Definition slot_key (a : appointment) : Z * Z := (appointment_time a, master_id a).

(** The table constraints ([UNIQUE(appointment_time, master_id)] and the two
    primary keys) and the fact that every appointment refers to a stored
    client. *)
Record well_formed (db : database) : Prop := {
  wf_slots : NoDup (map slot_key (appointments db));
  wf_app_ids : NoDup (map a_id (appointments db));
  wf_client_ids : NoDup (map c_id (clients db));
  wf_clients : forall a, In a (appointments db) -> In (client_id a) (map c_id (clients db))
}.

(** What an [UPDATE] of the program leaves alone in a row. *)
Definition keeps_keys (f : appointment -> appointment) : Prop :=
  forall a, a_id (f a) = a_id a /\ slot_key (f a) = slot_key a
            /\ client_id (f a) = client_id a.

(** The rows a cycle of the reminder loop completes, in the order it does:
    that of the table, the [SELECT] having no [ORDER BY]. *)
Definition swept (now : datetime) (db : database) : list appointment :=
  filter (is_past_active now) (appointments db).

(** ** Relating a row before and after the reminder loop *)

Definition row_of (r : joined) : appointment := let '(a, _, _, _) := r in a.

(** The place of an id in a list of ids. *)
Fixpoint position (i : Z) (ids : list Z) : option nat :=
  match ids with
  | [] => None
  | j :: rest =>
      if j =? i then Some O
      else match position i rest with Some k => Some (S k) | None => None end
  end.

(** A row whose id is the [k]-th of [ids] is completed at [ts], ten minutes
    later for each row completed before it. *)
Definition stamp_completed (ts : datetime) (ids : list Z) (a : appointment)
  : appointment :=
  match position (a_id a) ids with
  | Some k => set_status completed (ts + 600 * Z.of_nat k) a
  | None => a
  end.

(** [a'] is [a] with some reminder flags raised. *)
Definition flags_raised (a a' : appointment) : Prop :=
  a_id a' = a_id a /\ client_id a' = client_id a /\ service_id a' = service_id a
  /\ master_id a' = master_id a /\ appointment_time a' = appointment_time a
  /\ status a' = status a /\ created_at a' = created_at a
  /\ updated_at a' = updated_at a
  /\ (reminder_sent_day a = true -> reminder_sent_day a' = true).

(** [a'] is a later state of [a] along reminder cycles: the same booking,
    possibly completed meanwhile, its day flag never lowered. *)
Definition evolves (a a' : appointment) : Prop :=
  a_id a' = a_id a /\ client_id a' = client_id a /\ service_id a' = service_id a
  /\ master_id a' = master_id a /\ appointment_time a' = appointment_time a
  /\ (status a' = status a \/ status a' = completed)
  /\ (reminder_sent_day a = true -> reminder_sent_day a' = true).

Definition same_tables (db db' : database) : Prop :=
  clients db' = clients db /\ services db' = services db
  /\ masters db' = masters db /\ admins db' = admins db.

Definition due_day (now : datetime) : appointment -> bool :=
  due (day_start now) (day_end now) reminder_sent_day.

(** ** Sample data *)

Definition alice : user := {| u_id := 501; u_username := "alice"; full_name := "Alice" |}.
Definition bob : user := {| u_id := 502; u_username := "bob"; full_name := "Bob" |}.

(** The store once [alice] and [bob] are clients (rows 1 and 2 of [clients]). *)
Definition two_clients : database :=
  match insert_client alice init_db with
  | Some db1 => match insert_client bob db1 with Some db2 => db2 | None => db1 end
  | None => init_db
  end.

(** Day numbers of 2024-06-01, 2024-06-02 and 2024-06-10. *)
Definition d_2024_06_01 : date := 19875.
Definition d_2024_06_02 : date := 19876.
Definition d_2024_06_10 : date := 19884.

(** An appointment row of [two_clients] with the given id, client, slot and
    status, its flags unset. *)
Definition sample_row (i c m : Z) (t : datetime) (st : appointment_status) : appointment :=
  {| a_id := i; client_id := c; service_id := 1; master_id := m;
     appointment_time := t; status := st; created_at := 0; updated_at := 0;
     reminder_sent_day := false; reminder_sent_hour := false;
     reminder_sent_admin := false |}.

Definition with_rows (rows : list appointment) : database :=
  {| clients := clients two_clients; clients_seq := clients_seq two_clients;
     services := services two_clients; masters := masters two_clients;
     admins := admins two_clients;
     appointments := rows; appointments_seq := Z.of_nat (length rows) |}.

(** [alice] books master 1 on 2024-06-10 at 14:30 (appointment 1). *)
Definition alice_booked : database :=
  fst (create_appointment alice 1 1 d_2024_06_10 (14, 30) 0 two_clients).

(** ... and cancels it herself. *)
Definition alice_cancelled : database :=
  fst (cancel_appointment alice 1 10 alice_booked).

Definition status_of (i : Z) (db : database) : list appointment_status :=
  map status (filter (has_id i) (appointments db)).

Definition updated_at_of (i : Z) (db : database) : list datetime :=
  map updated_at (filter (has_id i) (appointments db)).

(** A client with three completed, two cancelled and one active appointment,
    beside an appointment of another client. *)
Definition history_rows : list appointment :=
  [ sample_row 1 1 1 (strptime d_2024_06_01 (10, 0)) completed;
    sample_row 2 1 1 (strptime d_2024_06_01 (11, 30)) cancelled;
    sample_row 3 2 1 (strptime d_2024_06_01 (13, 0)) completed;
    sample_row 4 1 2 (strptime d_2024_06_01 (10, 0)) completed;
    sample_row 5 1 1 (strptime d_2024_06_02 (10, 0)) completed;
    sample_row 6 1 2 (strptime d_2024_06_02 (10, 0)) cancelled;
    sample_row 7 1 1 (strptime d_2024_06_10 (14, 30)) active ].

(** An active appointment on 2024-06-01 at 09:00, one on the same day at
    10:00 with the other master, and one on 2024-06-03 at 11:30. *)
Definition overdue_rows : list appointment :=
  [ sample_row 1 1 1 (strptime d_2024_06_01 (9, 0)) active;
    sample_row 2 2 2 (strptime d_2024_06_01 (10, 0)) active;
    sample_row 3 1 1 (strptime (d_2024_06_02 + 1) (11, 30)) active ].

(** 2024-06-02 10:00:00. *)
Definition now_2024_06_02_10h : datetime := strptime d_2024_06_02 (10, 0).

(** Two overdue appointments and one that starts at 10:10 on 2024-06-02. *)
Definition busy_rows : list appointment :=
  [ sample_row 1 1 1 (strptime d_2024_06_01 (9, 0)) active;
    sample_row 2 2 2 (strptime d_2024_06_01 (10, 0)) active;
    sample_row 3 1 1 (strptime d_2024_06_02 (10, 10)) active ].

(** * Further definitions: the rest of the booking dialogue and its helpers *)

From Stdlib Require Import Sorted Permutation.

(** Several atomic changes in a row. *)
Inductive steps : database -> database -> Prop :=
| steps_refl : forall db, steps db db
| steps_step : forall db db' db'', steps db db' -> step db' db'' -> steps db db''.

(** Every stored appointment id was drawn from the counter of the table. *)
Definition ids_in_sequence (db : database) : Prop :=
  0 <= appointments_seq db
  /\ forall a, In a (appointments db) -> 1 <= a_id a <= appointments_seq db.

(** [a'] is the row [a] at a later moment: the same booking, not active
    again once it stopped being so, no reminder flag lowered. *)
Definition later (a a' : appointment) : Prop :=
  a_id a' = a_id a /\ client_id a' = client_id a /\ service_id a' = service_id a
  /\ master_id a' = master_id a /\ appointment_time a' = appointment_time a
  /\ created_at a' = created_at a
  /\ (status a' = active -> status a = active)
  /\ (reminder_sent_day a = true -> reminder_sent_day a' = true)
  /\ (reminder_sent_hour a = true -> reminder_sent_hour a' = true)
  /\ (reminder_sent_admin a = true -> reminder_sent_admin a' = true).

(** The [WHERE] clauses of the hour-before and of the operators' reminder. *)
Definition due_hour (now : datetime) : appointment -> bool :=
  due (hour_start now) (hour_end now) reminder_sent_hour.

Definition due_admin (now : datetime) : appointment -> bool :=
  due (ten_min_start now) (ten_min_end now) reminder_sent_admin.

(** The ids of the rows a trace sent an hour-before reminder for, and those
    it told the operators about (once per operator). *)
Fixpoint hour_reminders (trace : list event) : list Z :=
  match trace with
  | [] => []
  | Send _ (HourReminder app_id _ _ _) :: rest => app_id :: hour_reminders rest
  | _ :: rest => hour_reminders rest
  end.

Fixpoint admin_reminders (trace : list event) : list Z :=
  match trace with
  | [] => []
  | Send _ (AdminReminder app_id _ _ _ _) :: rest => app_id :: admin_reminders rest
  | _ :: rest => admin_reminders rest
  end.

(** An appointment at 11:30 and one at 10:10 on 2024-06-02. *)
Definition soon_rows : list appointment :=
  [ sample_row 1 1 1 (strptime d_2024_06_02 (11, 30)) active;
    sample_row 2 2 2 (strptime d_2024_06_02 (10, 10)) active ].

(** ** The client's list of appointments *)

(** A row of the [SELECT] of [my_appointments]: the appointment with its
    service and its master ([JOIN services s ... JOIN masters m ...]). *)
Definition listed := (appointment * service * master)%type.

Definition listed_row (r : listed) : appointment := fst (fst r).
Definition listed_time (r : listed) : datetime := appointment_time (listed_row r).

Definition join_sm (db : database) (a : appointment) : list listed :=
  flat_map (fun s => map (fun m => (a, s, m)) (masters_with_id (master_id a) db))
           (services_with_id (service_id a) db).

(** [ORDER BY a.appointment_time ASC]: rows of equal time are left in the
    order of the scan. *)
Fixpoint insert_by_time (r : listed) (rows : list listed) : list listed :=
  match rows with
  | [] => [r]
  | r' :: rest =>
      if listed_time r <=? listed_time r' then r :: rows
      else r' :: insert_by_time r rest
  end.

Definition order_by_time (rows : list listed) : list listed :=
  fold_right insert_by_time [] rows.

(** [WHERE a.client_id = ? AND a.status = 'active' AND a.appointment_time >
    datetime('now')]. *)
Definition upcoming_of (client_id0 : Z) (now : datetime) (a : appointment) : bool :=
  (client_id a =? client_id0) && is_active a && (now <? appointment_time a).

(** [my_appointments]: the client row of the user is looked up, or inserted
    first, as in [create_appointment]; the rows fetched are those the
    handler renders, each with its own cancel button [cancel_my_<id>].
    [now] is the store's reading of the clock. *)
Definition my_appointments (u : user) (now : datetime) (db : database)
  : database * (exn + list listed) :=
  match get_or_create_client u db with
  | inl e => (db, inl e)
  | inr (db1, None) => (db1, inl TypeError)
  | inr (db1, Some c) =>
      (db1, inr (order_by_time
                   (flat_map (fun a => if upcoming_of (c_id c) now a
                                       then join_sm db1 a else [])
                             (appointments db1))))
  end.

Definition by_time (r r' : listed) : Prop := listed_time r <= listed_time r'.

(** ** The keyboards of the booking dialogue *)

(** [get_available_dates]: today and the thirteen days after it (the
    weekday shown beside each date is left out). *)
Definition get_available_dates (now : datetime) : list date :=
  map (fun i => date_of now + Z.of_nat i) (seq 0 14).

(** [enumerate(items)]. *)
Definition enumerate {A : Type} (items : list A) : list (nat * A) :=
  combine (seq 0 (length items)) items.

Section Keyboard.

Context {A : Type}.

(** Which items get a button, and [len(items)]. *)
Variable shown : A -> bool.
Variable total : nat.

(** The body of the loop that fills the keyboard two buttons a row:
    [row.append(button)] and then
    [if len(row) == 2 or i == len(items) - 1: keyboard.append(row); row = []],
    both under the condition that the item is shown. *)
Definition keyboard_step (st : list (list A) * list A) (ix : nat * A)
  : list (list A) * list A :=
  let '(keyboard, row) := st in
  let '(i, x) := ix in
  if shown x then
    let row := row ++ [x] in
    if (length row =? 2)%nat || (i =? total - 1)%nat
    then (keyboard ++ [row], [])
    else (keyboard, row)
  else (keyboard, row).

End Keyboard.

(** The keyboard and the row still pending when the loop ends. *)
Definition keyboard_loop {A : Type} (shown : A -> bool) (items : list A)
  : list (list A) * list A :=
  fold_left (keyboard_step shown (length items)) (enumerate items) ([], []).

(** What [choose_date] and [choose_time] answer: that nothing is free, or
    the keyboard with the names shown above it (its rows of date or time
    buttons; the row of the back button that closes it is left out). *)
Inductive date_choice :=
| NoFreeDates
| DateKeyboard (service_name master_name : string) (keyboard : list (list date)).

Inductive time_choice :=
| NoFreeTimes
| TimeKeyboard (service_name master_name : string) (keyboard : list (list time_str)).

Definition has_free_slot (master_id0 : Z) (now : datetime) (db : database) (d : date)
  : bool :=
  match get_available_slots d master_id0 now db with
  | [] => false
  | _ :: _ => true
  end.

(** [choose_date]: a button for a date is appended, and the row flushed,
    only under [if available_slots:].  [(await cursor.fetchone())[0]] raises
    [TypeError] when the service or the master is not stored.  One reading
    of the clock stands for those of the handler. *)
Definition choose_date (service_id0 master_id0 : Z) (now : datetime) (db : database)
  : exn + date_choice :=
  match fetchone (services_with_id service_id0 db) with
  | None => inl TypeError
  | Some s =>
      match fetchone (masters_with_id master_id0 db) with
      | None => inl TypeError
      | Some m =>
          let dates := get_available_dates now in
          match fst (keyboard_loop (has_free_slot master_id0 now db) dates) with
          | [] => inr NoFreeDates
          | keyboard => inr (DateKeyboard (s_name s) (m_name m) keyboard)
          end
      end
  end.

(** [choose_time]: every available time gets a button, and the row is
    flushed after each second button and after the last time. *)
Definition choose_time (service_id0 master_id0 : Z) (selected_date : date)
    (now : datetime) (db : database) : exn + time_choice :=
  match fetchone (services_with_id service_id0 db) with
  | None => inl TypeError
  | Some s =>
      match fetchone (masters_with_id master_id0 db) with
      | None => inl TypeError
      | Some m =>
          match get_available_slots selected_date master_id0 now db with
          | [] => inr NoFreeTimes
          | available_times =>
              inr (TimeKeyboard (s_name s) (m_name m)
                     (fst (keyboard_loop (fun _ => true) available_times)))
          end
      end
  end.

(** Master 1 is booked at every time of the last of the fourteen days shown
    on 2024-06-02, by appointments 1 to 6. *)
Definition last_day_full : database :=
  with_rows
    (map (fun k => sample_row (Z.of_nat k + 1) 1 1
                     (strptime (d_2024_06_02 + 13) (nth k get_available_times (0, 0)))
                     active)
         (seq 0 6)).

(** ** Reviews *)

(** A [str] as its characters. *)
Definition text := list Z.

Record review := {
  r_id : Z;
  r_appointment_id : Z;
  r_client_id : Z;
  r_master_id : Z;
  r_service_id : Z;
  r_rating : Z;
  r_comment : option text;
  r_created_at : datetime
}.

(** The table [reviews] with its [AUTOINCREMENT] counter. *)
Record review_table := {
  reviews : list review;
  reviews_seq : Z
}.

(** [context.user_data['review_data']]. *)
Record review_data := {
  rd_appointment_id : Z;
  rd_client_id : Z;
  rd_master_id : Z;
  rd_service_id : Z;
  rd_rating : Z
}.

Inductive review_reply :=
| ThanksMaybeLater
| AlreadyReviewed
| AskForComment (rating : Z)
| ReviewDataMissing
| ThanksForReview.

Inductive review_event :=
| ReviewNotice (admin_id appointment_id rating : Z)
    (client_name master_name service_name : string) (comment : option text)
| ReviewReply (r : review_reply).

(** [comment] under [if comment]: [None] and the empty string are false. *)
Definition nonempty (comment : option text) : option text :=
  match comment with
  | Some (_ :: _) => comment
  | _ => None
  end.

(** [send_review_notification]: one notice per operator when the joined row
    of the appointment is found (its first row is that of the join in
    [ask_for_review]). *)
Definition send_review_notification (db : database) (appointment_id rating : Z)
    (comment : option text) : list review_event :=
  match fetchone (select_joined (has_id appointment_id) db) with
  | Some (_, c, s, m) =>
      map (fun admin_id =>
             ReviewNotice admin_id appointment_id rating
               (c_name c) (m_name m) (s_name s) (nonempty comment))
          (admins db)
  | None => []
  end.

(** [save_review], [rating = -1] standing for the skip button.  The pending
    rating is kept in [user_data] until the comment arrives. *)
Definition save_review (appointment_id rating : Z) (db : database) (rt : review_table)
    (user_data : option review_data) : option review_data * list review_event :=
  if rating =? -1 then (user_data, [ReviewReply ThanksMaybeLater])
  else
    match fetchone (filter (has_id appointment_id) (appointments db)) with
    | Some a =>
        if existsb (fun r => r_appointment_id r =? appointment_id) (reviews rt)
        then (user_data, [ReviewReply AlreadyReviewed])
        else
          (Some {| rd_appointment_id := appointment_id;
                   rd_client_id := client_id a;
                   rd_master_id := master_id a;
                   rd_service_id := service_id a;
                   rd_rating := rating |},
           [ReviewReply (AskForComment rating)])
    | None => (user_data, [])
    end.

(** [INSERT INTO reviews ...] under [CHECK(rating >= 1 AND rating <= 5)];
    the comment is [comment[:500] if comment else None]. *)
Definition insert_review (d : review_data) (comment : option text) (ts : datetime)
    (rt : review_table) : option review_table :=
  if (1 <=? rd_rating d) && (rd_rating d <=? 5) then
    let i := next_rowid (reviews_seq rt) (map r_id (reviews rt)) in
    Some {| reviews := reviews rt ++
              [{| r_id := i;
                  r_appointment_id := rd_appointment_id d;
                  r_client_id := rd_client_id d;
                  r_master_id := rd_master_id d;
                  r_service_id := rd_service_id d;
                  r_rating := rd_rating d;
                  r_comment := option_map (firstn 500) (nonempty comment);
                  r_created_at := ts |}];
            reviews_seq := i |}
  else None.

(** What the review handlers raise: the [IntegrityError] of the [CHECK],
    and the [AttributeError] of [query.answer()] on an update that carries
    no callback query. *)
Inductive review_exn := CheckFailed | NoCallbackQuery.

(** [save_review_comment]; [has_query] says whether [update.callback_query]
    is set.  The handler begins with [await query.answer()], so on an update
    without a callback query it raises before it reads [user_data].
    Otherwise it stores the pending rating without looking at the table
    again. *)
Definition save_review_comment (has_query : bool) (comment : option text)
    (ts : datetime) (db : database) (rt : review_table)
    (user_data : option review_data)
  : review_table * option review_data * (review_exn + list review_event) :=
  if negb has_query then (rt, user_data, inl NoCallbackQuery)
  else
    match user_data with
    | None => (rt, user_data, inr [ReviewReply ReviewDataMissing])
    | Some d =>
        match insert_review d comment ts rt with
        | None => (rt, user_data, inl CheckFailed)
        | Some rt' =>
            (rt', None,
             inr (send_review_notification db (rd_appointment_id d) (rd_rating d) comment
                  ++ [ReviewReply ThanksForReview]))
        end
    end.

(** The two callers of [save_review_comment].  The button
    [review_comment_skip] of [button_handler] calls it on a callback query
    and without a comment.  [message_handler] calls it with the text of a
    message, which carries no callback query, whenever a rating is pending,
    and returns; with no rating pending it does not touch the reviews. *)
Definition skip_comment (ts : datetime) (db : database) (rt : review_table)
    (user_data : option review_data)
  : review_table * option review_data * (review_exn + list review_event) :=
  save_review_comment true None ts db rt user_data.

Definition message_with_text (message_text : text) (ts : datetime) (db : database)
    (rt : review_table) (user_data : option review_data)
  : review_table * option review_data * (review_exn + list review_event) :=
  match user_data with
  | Some _ => save_review_comment false (Some message_text) ts db rt user_data
  | None => (rt, user_data, inr [])
  end.

(** What one user does to the reviews and to the pending rating: a rating
    button, the skip button of the comment, a text message, and
    [clear_user_context] at the end of a booking; each on the store of its
    moment. *)
Inductive review_action :=
| Rate (db : database) (appointment_id rating : Z)
| Skip (db : database) (ts : datetime)
| Text (db : database) (message_text : text) (ts : datetime)
| ClearContext.

Definition review_step (st : review_table * option review_data) (act : review_action)
  : review_table * option review_data :=
  match act with
  | Rate db i rating => (fst st, fst (save_review i rating db (fst st) (snd st)))
  | Skip db ts => fst (skip_comment ts db (fst st) (snd st))
  | Text db message_text ts => fst (message_with_text message_text ts db (fst st) (snd st))
  | ClearContext => (fst st, None)
  end.

(** A review as the program stores it: a rating from 1 to 5 and no comment. *)
Definition review_ok (r : review) : Prop :=
  1 <= r_rating r <= 5 /\ r_comment r = None.

Definition no_reviews : review_table := {| reviews := []; reviews_seq := 0 |}.

(** ** The rate limiter of [utils/security.py] *)

(** A reading of [datetime.now()], in microseconds. *)
Definition instant := Z.

Definition one_minute : Z := 60000000.
Definition one_hour : Z := 3600000000.
Definition RATE_LIMIT_PER_USER : nat := 10.

(** [Security._rate_limit_cache], a dict from user ids to the times of their
    requests: its items in insertion order. *)
Definition rate_cache := list (Z * list instant).

(** [cache.get(user_id, [])]. *)
Fixpoint cache_get (user_id : Z) (cache : rate_cache) : list instant :=
  match cache with
  | [] => []
  | (k, v) :: rest => if k =? user_id then v else cache_get user_id rest
  end.

(** [cache[user_id] = user_requests]. *)
Fixpoint cache_set (user_id : Z) (user_requests : list instant) (cache : rate_cache)
  : rate_cache :=
  match cache with
  | [] => [(user_id, user_requests)]
  | (k, v) :: rest =>
      if k =? user_id then (k, user_requests) :: rest
      else (k, v) :: cache_set user_id user_requests rest
  end.

(** [del cache[user_id]]. *)
Definition cache_del (user_id : Z) (cache : rate_cache) : rate_cache :=
  filter (fun kv => negb (fst kv =? user_id)) cache.

(** [_cleanup_rate_limit_cache], for its own reading [now] of the clock. *)
Definition _cleanup_rate_limit_cache (now : instant) (cache : rate_cache) : rate_cache :=
  let hour_ago := now - one_hour in
  fold_left
    (fun cache user_id =>
       let user_requests :=
         filter (fun req_time => hour_ago <? req_time) (cache_get user_id cache) in
       match user_requests with
       | [] => cache_del user_id cache
       | _ :: _ => cache_set user_id user_requests cache
       end)
    (map fst cache) cache.

(** [check_rate_limit]; [now'] is the reading of the clock taken by the
    cleanup that ends an accepted call. *)
Definition check_rate_limit (user_id : Z) (now now' : instant) (cache : rate_cache)
  : rate_cache * bool :=
  let minute_ago := now - one_minute in
  let user_requests :=
    filter (fun req_time => minute_ago <? req_time) (cache_get user_id cache) in
  if (RATE_LIMIT_PER_USER <=? length user_requests)%nat then (cache, false)
  else
    let user_requests := user_requests ++ [now] in
    let cache := cache_set user_id user_requests cache in
    (_cleanup_rate_limit_cache now' cache, true).

(** A call of [check_rate_limit]: the user and the two readings of the
    clock. *)
Definition rate_call := (Z * instant * instant)%type.

(** A run of calls, with the log of the accepted ones. *)
Definition rate_step (st : rate_cache * list (Z * instant)) (c : rate_call)
  : rate_cache * list (Z * instant) :=
  let '(user_id, now, now') := c in
  let r := check_rate_limit user_id now now' (fst st) in
  (fst r, if snd r then snd st ++ [(user_id, now)] else snd st).

(** The clock does not run backwards along the calls. *)
Fixpoint clock_from (t : instant) (calls : list rate_call) : Prop :=
  match calls with
  | [] => True
  | (_, now, now') :: rest => t <= now /\ now <= now' /\ clock_from now' rest
  end.

(** The accepted requests of a user, and those of the minute that ends at
    [t]. *)
Definition accepted_of (user_id : Z) (log : list (Z * instant)) : list instant :=
  map snd (filter (fun e => fst e =? user_id) log).

Definition within_minute (t : instant) (l : list instant) : list instant :=
  filter (fun x => (t - one_minute <? x) && (x <=? t)) l.

(** What the cache holds along a run: of every user, the accepted requests
    after some moment that lies a minute or more back. *)
Definition cache_tracks (t : instant) (st : rate_cache * list (Z * instant)) : Prop :=
  forall u,
    Forall (fun x => x <= t) (accepted_of u (snd st))
    /\ exists theta, theta + one_minute <= t
                     /\ cache_get u (fst st)
                        = filter (fun x => theta <? x) (accepted_of u (snd st)).

(** No minute holds more than ten accepted requests of a user. *)
Definition window_ok (log : list (Z * instant)) : Prop :=
  forall u t, (length (within_minute t (accepted_of u log)) <= RATE_LIMIT_PER_USER)%nat.

(** Eleven requests of user 7, one a second from 0:00:01 on, and a twelfth
    sixty seconds after the first. *)
Definition burst : list rate_call :=
  map (fun k => (7, Z.of_nat k * 1000000, Z.of_nat k * 1000000 + 5)) (seq 1 11)
  ++ [(7, 61000000, 61000005)].

(** ** What the handlers do to the other tables *)

(** One atomic change leaves the catalogue alone and adds at most one client
    and one operator, each with a Telegram id not yet stored. *)
Definition tables_grow (db db' : database) : Prop :=
  services db' = services db /\ masters db' = masters db
  /\ (clients db' = clients db
      \/ exists c, clients db' = clients db ++ [c]
                   /\ ~ In (telegram_id c) (map telegram_id (clients db)))
  /\ (admins db' = admins db
      \/ exists a, admins db' = admins db ++ [a] /\ ~ In a (admins db)).

(** * Basic facts about the tables *)

Lemma status_eqb_eq : forall a b, status_eqb a b = true <-> a = b.
Proof. intros [] []; simpl; split; intro H; try reflexivity; discriminate. Qed.

Lemma is_active_true : forall a, is_active a = true <-> status a = active.
Proof. intro a. apply status_eqb_eq. Qed.

Lemma is_terminal_true :
  forall a, is_terminal a = true <-> status a = completed \/ status a = cancelled.
Proof.
  intro a. unfold is_terminal. rewrite orb_true_iff, !status_eqb_eq. tauto.
Qed.

Lemma is_terminal_not_active : forall a, is_terminal a = negb (is_active a).
Proof. intro a. unfold is_terminal, is_active. destruct (status a); reflexivity. Qed.

Lemma same_slot_true :
  forall t m a, same_slot t m a = true <-> slot_key a = (t, m).
Proof.
  intros t m a. unfold same_slot, slot_key.
  rewrite andb_true_iff, !Z.eqb_eq. split.
  - intros [-> ->]. reflexivity.
  - intro H. injection H as -> ->. split; reflexivity.
Qed.

Lemma fold_max_ge : forall ids x, In x ids -> x <= fold_right Z.max 0 ids.
Proof.
  induction ids as [|y ids IH]; simpl; intros x Hin; [contradiction|].
  destruct Hin as [->|Hin]; [lia|]. specialize (IH x Hin). lia.
Qed.

Lemma next_rowid_fresh : forall seq ids, ~ In (next_rowid seq ids) ids.
Proof.
  intros seq ids Hin. apply fold_max_ge in Hin. unfold next_rowid in Hin. lia.
Qed.

Lemma NoDup_snoc : forall (A : Type) (l : list A) (x : A),
  NoDup l -> ~ In x l -> NoDup (l ++ [x]).
Proof.
  intros A l x Hl Hx. apply NoDup_app; [assumption | repeat constructor; intros [] | ].
  intros y Hy [<-|[]]. exact (Hx Hy).
Qed.

Lemma NoDup_map_filter : forall (A B : Type) (k : A -> B) (p : A -> bool) (l : list A),
  NoDup (map k l) -> NoDup (map k (filter p l)).
Proof.
  intros A B k p. induction l as [|a l IH]; simpl; intro H; [constructor|].
  inversion H as [|? ? Hnotin Hrest]; subst.
  destruct (p a); simpl; [constructor|]; auto.
  intro Hin. apply Hnotin. apply in_map_iff in Hin. destruct Hin as [b [Hb Hin]].
  apply filter_In in Hin. apply in_map_iff. exists b. tauto.
Qed.

Lemma NoDup_map_eq : forall (A B : Type) (k : A -> B) (l : list A) (a b : A),
  NoDup (map k l) -> In a l -> In b l -> k a = k b -> a = b.
Proof.
  intros A B k. induction l as [|x l IH]; simpl; intros a b Hnd Ha Hb Hk; [contradiction|].
  inversion Hnd as [|? ? Hnotin Hrest]; subst.
  destruct Ha as [->|Ha], Hb as [->|Hb]; auto.
  - exfalso. apply Hnotin. rewrite Hk. apply in_map. assumption.
  - exfalso. apply Hnotin. rewrite <- Hk. apply in_map. assumption.
Qed.

Lemma filter_length_split : forall (A : Type) (p : A -> bool) (l : list A),
  (length (filter p l) + length (filter (fun x => negb (p x)) l) = length l)%nat.
Proof.
  intros A p. induction l as [|x l IH]; simpl; [reflexivity|].
  destruct (p x); simpl; lia.
Qed.

Lemma map_update_key : forall (B : Type) (k : appointment -> B) i f l,
  (forall a, k (f a) = k a) ->
  map k (map (fun a => if a_id a =? i then f a else a) l) = map k l.
Proof.
  intros B k i f l Hk. rewrite map_map. apply map_ext.
  intro a. destruct (a_id a =? i); auto.
Qed.

(** At most one row carries a given key when the keys are pairwise distinct. *)
Lemma NoDup_key_filter_le1 :
  forall (l : list appointment) (p : appointment -> bool) (key : Z * Z),
    NoDup (map slot_key l) ->
    (forall a, p a = true -> slot_key a = key) ->
    (length (filter p l) <= 1)%nat.
Proof.
  induction l as [|a l IH]; simpl; intros p key Hnd Hp; [lia|].
  inversion Hnd as [|? ? Hnotin Hrest]; subst.
  specialize (IH p key Hrest Hp).
  destruct (p a) eqn:Ea; [|exact IH]. simpl.
  destruct (filter p l) as [|b rest] eqn:Ef; [simpl; lia|].
  exfalso. apply Hnotin.
  assert (Hb : In b (filter p l)) by (rewrite Ef; left; reflexivity).
  apply filter_In in Hb. destruct Hb as [Hbl Hpb].
  apply in_map_iff. exists b. split; [|assumption].
  rewrite (Hp a Ea), (Hp b Hpb). reflexivity.
Qed.

Lemma existsb_false_filter_nil :
  forall (A : Type) (p : A -> bool) (l : list A),
    existsb p l = false <-> filter p l = [].
Proof.
  intros A p. induction l as [|a l IH]; simpl; [tauto|].
  destruct (p a); simpl; [split; discriminate | exact IH].
Qed.

(** * Preservation of well-formedness *)

Lemma set_status_keeps_keys : forall st ts, keeps_keys (set_status st ts).
Proof. intros st ts a. repeat split. Qed.

Lemma set_reminder_sent_day_keeps_keys : keeps_keys set_reminder_sent_day.
Proof. intros a. repeat split. Qed.

Lemma set_reminder_sent_hour_keeps_keys : keeps_keys set_reminder_sent_hour.
Proof. intros a. repeat split. Qed.

Lemma set_reminder_sent_admin_keeps_keys : keeps_keys set_reminder_sent_admin.
Proof. intros a. repeat split. Qed.

#[local] Hint Resolve set_status_keeps_keys set_reminder_sent_day_keeps_keys
  set_reminder_sent_hour_keeps_keys set_reminder_sent_admin_keeps_keys : wf.

Lemma well_formed_update : forall i f db,
  keeps_keys f -> well_formed db -> well_formed (update_where_id i f db).
Proof.
  intros i f db Hf [Hs Hi Hc Hr]. constructor; simpl.
  - rewrite map_update_key; [assumption | intro a; apply Hf].
  - rewrite map_update_key; [assumption | intro a; apply Hf].
  - assumption.
  - intros a Hin. apply in_map_iff in Hin. destruct Hin as [b [Hb Hin]].
    specialize (Hr b Hin). destruct (a_id b =? i); subst a; [|assumption].
    destruct (Hf b) as [_ [_ ->]]. assumption.
Qed.

Lemma well_formed_filter : forall p db,
  well_formed db -> well_formed (with_appointments db (filter p (appointments db))).
Proof.
  intros p db [Hs Hi Hc Hr]. constructor; simpl.
  - apply NoDup_map_filter; assumption.
  - apply NoDup_map_filter; assumption.
  - assumption.
  - intros a Hin. apply filter_In in Hin. apply Hr. tauto.
Qed.

Lemma well_formed_insert_client : forall u db db',
  insert_client u db = Some db' -> well_formed db -> well_formed db'.
Proof.
  intros u db db' Hins [Hs Hi Hc Hr]. unfold insert_client in Hins.
  destruct (existsb _ _); [discriminate|]. injection Hins as <-.
  constructor; simpl; try assumption.
  - rewrite map_app. simpl. apply NoDup_snoc; [assumption | apply next_rowid_fresh].
  - intros a Hin. rewrite map_app. apply in_or_app. left. auto.
Qed.

Lemma well_formed_insert_appointment : forall c s m t ts db db' i,
  In c (map c_id (clients db)) ->
  insert_appointment c s m t ts db = Some (db', i) ->
  well_formed db -> well_formed db'.
Proof.
  intros c s m t ts db db' i Hcl Hins [Hs Hi Hc Hr]. unfold insert_appointment in Hins.
  destruct (existsb _ _) eqn:Ex; [discriminate|]. injection Hins as <- <-.
  constructor; simpl; try assumption.
  - rewrite map_app. simpl. apply NoDup_snoc; [assumption|].
    intro Hin. apply in_map_iff in Hin. destruct Hin as [b [Hk Hb]].
    assert (Hex : existsb (same_slot t m) (appointments db) = true).
    { apply existsb_exists. exists b. split; [assumption|].
      apply same_slot_true. exact Hk. }
    congruence.
  - rewrite map_app. simpl. apply NoDup_snoc; [assumption | apply next_rowid_fresh].
  - intros a Hin. apply in_app_or in Hin. destruct Hin as [Hin|[<-|[]]]; auto.
Qed.

Lemma well_formed_add_admin : forall user_id db,
  well_formed db -> well_formed (add_admin user_id db).
Proof.
  intros user_id db H. unfold add_admin. destruct (existsb _ _); [assumption|].
  destruct H as [Hs Hi Hc Hr]. constructor; assumption.
Qed.
(** * Slot generator and availability *)

Lemma get_available_times_terminates :
  get_available_times_fuel 8
  = Some [(10, 0); (11, 30); (13, 0); (14, 30); (16, 0); (17, 30)].
Proof. reflexivity. Qed.

Lemma get_available_times_eq :
  get_available_times = [(10, 0); (11, 30); (13, 0); (14, 30); (16, 0); (17, 30)].
Proof. reflexivity. Qed.

(** C5. On the current day [get_available_slots] returns no time-of-day that
    is at or before the wall clock's time-of-day; on any other date the
    clock plays no part, the result being the generated times filtered by
    [is_slot_available] alone. *)
Theorem get_available_slots_same_day_filter :
  forall (db : database) (now : datetime) (m : Z),
    (forall s, In s (get_available_slots (date_of now) m now db) ->
               time_of now < time_obj s)
    /\ (forall d, d <> date_of now ->
          get_available_slots d m now db
          = filter (fun s => is_slot_available d s m db) get_available_times).
Proof.
  intros db now m; split.
  - intros s Hin. unfold get_available_slots in Hin.
    apply filter_In in Hin. destruct Hin as [_ Hkeep].
    rewrite Z.eqb_refl in Hkeep. simpl in Hkeep.
    destruct (time_obj s <=? time_of now) eqn:Hle; [discriminate|].
    apply Z.leb_gt in Hle. exact Hle.
  - intros d Hd. unfold get_available_slots.
    apply filter_ext. intros s.
    destruct (d =? date_of now) eqn:E; [apply Z.eqb_eq in E; contradiction|].
    reflexivity.
Qed.

(** At 12:00 on 2024-06-02 the slots of 10:00 and 11:30 are gone for that
    day and offered for the next. *)
Lemma get_available_slots_same_day_filter_witness :
  get_available_slots d_2024_06_02 1 (strptime d_2024_06_02 (12, 0)) two_clients
  = [(13, 0); (14, 30); (16, 0); (17, 30)]
  /\ time_of (strptime d_2024_06_02 (12, 0)) < time_obj (13, 0)
  /\ get_available_slots (d_2024_06_02 + 1) 1 (strptime d_2024_06_02 (12, 0)) two_clients
     = filter (fun s => is_slot_available (d_2024_06_02 + 1) s 1 two_clients)
         get_available_times.
Proof.
  destruct (get_available_slots_same_day_filter two_clients
              (strptime d_2024_06_02 (12, 0)) 1) as [Hlater Hother].
  split; [reflexivity|]. split.
  - apply Hlater. vm_compute. auto.
  - apply Hother. vm_compute. discriminate.
Defined.

(** The client block always yields a stored client of the user, and never
    touches the appointments. *)
Lemma get_or_create_client_spec : forall u db,
  exists db1 c,
    get_or_create_client u db = inr (db1, Some c)
    /\ (db1 = db \/ insert_client u db = Some db1)
    /\ In c (clients db1) /\ telegram_id c = u_id u
    /\ appointments db1 = appointments db
    /\ (client_by_telegram (u_id u) db = None \/ client_by_telegram (u_id u) db = Some c).
Proof.
  intros u db. unfold get_or_create_client.
  destruct (client_by_telegram (u_id u) db) as [c|] eqn:Hc.
  - exists db, c. repeat split; auto.
    + unfold client_by_telegram, fetchone in Hc.
      destruct (filter _ _) as [|c' l] eqn:Hf; [discriminate|].
      injection Hc as ->.
      assert (Hin : In c (filter (fun c => telegram_id c =? u_id u) (clients db)))
        by (rewrite Hf; left; reflexivity).
      apply filter_In in Hin. tauto.
    + unfold client_by_telegram, fetchone in Hc.
      destruct (filter _ _) as [|c' l] eqn:Hf; [discriminate|].
      injection Hc as ->.
      assert (Hin : In c (filter (fun c => telegram_id c =? u_id u) (clients db)))
        by (rewrite Hf; left; reflexivity).
      apply filter_In in Hin. apply Z.eqb_eq. tauto.
  - unfold client_by_telegram, fetchone in Hc.
    destruct (filter (fun c => telegram_id c =? u_id u) (clients db)) eqn:Hf;
      [|discriminate].
    apply existsb_false_filter_nil in Hf.
    unfold insert_client. rewrite Hf. simpl.
    rewrite filter_app. apply existsb_false_filter_nil in Hf. rewrite Hf. simpl.
    rewrite Z.eqb_refl. simpl.
    eexists. eexists. split; [reflexivity|]. simpl.
    repeat split; auto.
    apply in_or_app. right. left. reflexivity.
Qed.

Lemma well_formed_create : forall u s m d t ts db,
  well_formed db -> well_formed (fst (create_appointment u s m d t ts db)).
Proof.
  intros u s m d t ts db Hwf. unfold create_appointment.
  destruct (get_or_create_client_spec u db)
    as [db1 [c [-> [Hdb1 [Hc [_ [_ _]]]]]]].
  assert (Hwf1 : well_formed db1).
  { destruct Hdb1 as [->|Hins]; [assumption|].
    eapply well_formed_insert_client; eassumption. }
  destruct (negb _); [exact Hwf1|].
  destruct (insert_appointment _ _ _ _ _ _) as [[db2 i]|] eqn:Hins; [|exact Hwf1].
  assert (Hwf2 : well_formed db2).
  { eapply well_formed_insert_appointment; [|eassumption|assumption].
    apply in_map. assumption. }
  destruct (fetchone _); [destruct (fetchone _)|]; exact Hwf2.
Qed.

Lemma well_formed_cancel : forall u i ts db,
  well_formed db -> well_formed (fst (cancel_appointment u i ts db)).
Proof.
  intros u i ts db Hwf. unfold cancel_appointment.
  destruct (fetchone _) as [[[[a c] s] m]|]; [|assumption].
  destruct (fetchone _); [|assumption].
  simpl. apply well_formed_update; auto with wf.
Qed.

Lemma well_formed_clear : forall u db,
  well_formed db -> well_formed (fst (clear_history u db)).
Proof.
  intros u db Hwf. unfold clear_history.
  destruct (client_by_telegram _ _); [|assumption].
  simpl. apply well_formed_filter. assumption.
Qed.

Lemma well_formed_fold : forall (A : Type) (body : sweep_state -> A -> sweep_state),
  (forall st x, well_formed (fst st) -> well_formed (fst (body st x))) ->
  forall rows st, well_formed (fst st) -> well_formed (fst (fold_left body rows st)).
Proof.
  intros A body Hbody. induction rows as [|x rows IH]; simpl; intros st Hst; auto.
Qed.

Lemma well_formed_sweep : forall now ts db,
  well_formed db -> well_formed (fst (sweep now ts db)).
Proof.
  intros now ts db Hwf. unfold sweep. simpl.
  unfold remind_admin. apply well_formed_fold.
  { intros [d tr] [[[a c] s] m] H. simpl. apply well_formed_update; auto with wf. }
  unfold remind_hour. apply well_formed_fold.
  { intros [d tr] [[[a c] s] m] H. simpl. apply well_formed_update; auto with wf. }
  unfold remind_day. apply well_formed_fold.
  { intros [d tr] [[[a c] s] m] H. simpl. apply well_formed_update; auto with wf. }
  unfold auto_complete. apply well_formed_fold.
  { intros [d tr] [a tg] H. simpl. apply well_formed_update; auto with wf. }
  exact Hwf.
Qed.

Lemma well_formed_init : well_formed init_db.
Proof. constructor; simpl; try constructor. intros a []. Qed.

Lemma step_well_formed : forall db db', step db db' -> well_formed db -> well_formed db'.
Proof.
  intros db db' Hstep Hwf. destruct Hstep.
  - eapply well_formed_insert_client; eassumption.
  - apply well_formed_add_admin; assumption.
  - apply well_formed_create; assumption.
  - eapply well_formed_insert_appointment; eassumption.
  - apply well_formed_cancel; assumption.
  - simpl. apply well_formed_update; auto with wf.
  - simpl. apply well_formed_update; auto with wf.
  - apply well_formed_clear; assumption.
  - apply well_formed_update; auto with wf.
  - apply well_formed_update; auto with wf.
  - apply well_formed_update; auto with wf.
  - apply well_formed_sweep; assumption.
Qed.

Lemma reachable_well_formed : forall db, reachable db -> well_formed db.
Proof.
  induction 1 as [|db db' _ IH Hstep]; [apply well_formed_init|].
  eapply step_well_formed; eassumption.
Qed.

Lemma active_at_le1 : forall db t m,
  well_formed db -> (length (active_at t m db) <= 1)%nat.
Proof.
  intros db t m Hwf. unfold active_at.
  apply NoDup_key_filter_le1 with (key := (t, m)); [apply Hwf|].
  intros a Ha. apply andb_true_iff in Ha. destruct Ha as [Ha _].
  apply same_slot_true. exact Ha.
Qed.

(** * Concurrent bookings of one slot *)

Section OneSlotFacts.
Variables (m : Z) (d : date) (s : time_str) (ts : datetime).

Local Abbreviation slot := (strptime d s).
Local Abbreviation slot_free := (slot_free m d s).
Local Abbreviation slot_won := (slot_won m d s).
Local Abbreviation at_most_one := (at_most_one m d s).

(** A resumption leaves everything as it is or advances exactly one call. *)
Lemma resume_spec : forall calls i db,
  resume m d s ts i calls db = (calls, db)
  \/ exists pre b post,
       calls = pre ++ b :: post
       /\ resume m d s ts i calls db
          = (pre ++ fst (advance m d s ts b db) :: post,
             snd (advance m d s ts b db)).
Proof.
  induction calls as [|b rest IH]; intros i db; [left; destruct i; reflexivity|].
  destruct i as [|i]; simpl.
  - right. exists [], b, rest. split; [reflexivity|].
    destruct (advance m d s ts b db); reflexivity.
  - destruct (IH i db) as [Heq | [pre [b' [post [-> Heq]]]]].
    + left. rewrite Heq. reflexivity.
    + right. exists (b :: pre), b', post. split; [reflexivity|].
      rewrite Heq. reflexivity.
Qed.

Lemma no_row_no_active : forall db,
  existsb (same_slot slot m) (appointments db) = false ->
  active_at slot m db = [].
Proof.
  intros db H. unfold active_at. apply existsb_false_filter_nil.
  apply not_true_is_false. intro Hex. apply existsb_exists in Hex.
  destruct Hex as [a [Hin Ha]]. apply andb_true_iff in Ha. destruct Ha as [Ha _].
  assert (existsb (same_slot slot m) (appointments db) = true)
    by (apply existsb_exists; exists a; split; assumption).
  congruence.
Qed.

Lemma active_row_taken : forall db,
  active_at slot m db <> [] ->
  existsb (same_slot slot m) (appointments db) = true.
Proof.
  intros db H. destruct (existsb _ _) eqn:E; [reflexivity|].
  apply no_row_no_active in E. contradiction.
Qed.

Lemma insert_appointment_active_at : forall c sv db db' i,
  existsb (same_slot slot m) (appointments db) = false ->
  insert_appointment c sv m slot ts db = Some (db', i) ->
  length (active_at slot m db') = 1%nat
  /\ existsb (same_slot slot m) (appointments db') = true.
Proof.
  intros c sv db db' i Hfree Hins. unfold insert_appointment in Hins.
  rewrite Hfree in Hins. injection Hins as <- <-.
  split.
  - unfold active_at. simpl. rewrite filter_app. simpl.
    fold (active_at slot m db). rewrite (no_row_no_active db Hfree).
    unfold is_active. simpl. rewrite !Z.eqb_refl. reflexivity.
  - simpl. rewrite existsb_app. simpl. unfold same_slot. simpl.
    rewrite !Z.eqb_refl. apply orb_true_r.
Qed.

Lemma none_finished_created : forall calls, none_finished calls -> created calls = 0%nat.
Proof.
  unfold none_finished, created.
  induction calls as [|b calls IH]; simpl; intro H; [reflexivity|].
  apply andb_true_iff in H. destruct H as [Hb H].
  destruct b as [| |r]; simpl in *; auto. discriminate.
Qed.

Lemma created_app : forall pre b post,
  created (pre ++ b :: post)
  = (created pre + (if has_created b then 1 else 0) + created post)%nat.
Proof.
  intros pre b post. unfold created. rewrite filter_app, length_app. simpl.
  destruct (has_created b); simpl; lia.
Qed.

Lemma resume_free_or_won : forall i calls db calls' db',
  slot_free calls db \/ slot_won calls db ->
  resume m d s ts i calls db = (calls', db') ->
  slot_free calls' db' \/ slot_won calls' db'.
Proof.
  intros i calls db calls' db' Hinv Hres.
  destruct (resume_spec calls i db) as [Heq | [pre [b [post [-> Heq]]]]];
    rewrite Heq in Hres; injection Hres as <- <-; [assumption|].
  destruct Hinv as [[Hfree Hnone] | [Hone Hact]].
  - unfold none_finished in Hnone. rewrite forallb_app in Hnone. simpl in Hnone.
    apply andb_true_iff in Hnone. destruct Hnone as [Hpre Hrest].
    apply andb_true_iff in Hrest. destruct Hrest as [Hb Hpost].
    destruct b as [c sv|c sv|r]; simpl in Hb; [| |discriminate].
    + left. simpl. unfold is_slot_available. fold slot.
      rewrite (no_row_no_active db Hfree). simpl.
      split; [assumption|]. unfold none_finished.
      rewrite forallb_app. simpl. rewrite Hpre, Hpost. reflexivity.
    + right. simpl. fold slot.
      destruct (insert_appointment c sv m slot ts db) as [[db2 j]|] eqn:Hins.
      * simpl. destruct (insert_appointment_active_at _ _ _ _ _ Hfree Hins) as [H1 _].
        split; [|assumption].
        rewrite created_app. simpl.
        rewrite (none_finished_created pre Hpre), (none_finished_created post Hpost).
        reflexivity.
      * unfold insert_appointment in Hins. rewrite Hfree in Hins. discriminate.
  - right. rewrite created_app in Hone.
    assert (Htaken : existsb (same_slot slot m) (appointments db) = true).
    { apply active_row_taken. intro E. rewrite E in Hact. discriminate. }
    destruct b as [c sv|c sv|r]; simpl in *.
    + unfold is_slot_available. fold slot. rewrite Hact. simpl.
      split; [|assumption]. rewrite created_app. simpl. exact Hone.
    + fold slot. unfold insert_appointment. rewrite Htaken. simpl.
      split; [|assumption]. rewrite created_app. simpl. exact Hone.
    + split; [|assumption]. rewrite created_app. exact Hone.
Qed.

Lemma resume_at_most_one : forall i calls db calls' db',
  at_most_one calls db ->
  resume m d s ts i calls db = (calls', db') ->
  at_most_one calls' db'.
Proof.
  intros i calls db calls' db' Hinv Hres.
  destruct (resume_spec calls i db) as [Heq | [pre [b [post [-> Heq]]]]];
    rewrite Heq in Hres; injection Hres as <- <-; [assumption|].
  unfold at_most_one in *. rewrite created_app in *.
  destruct b as [c sv|c sv|r]; simpl in *.
  - destruct (negb _); simpl; exact Hinv.
  - fold slot. unfold insert_appointment.
    destruct (existsb (same_slot slot m) (appointments db)) eqn:Ex; simpl.
    + destruct Hinv as [H0 | [H1 _]];
        [left; exact H0 | right; split; [exact H1 | exact Ex]].
    + right. destruct Hinv as [H0 | [_ Hcontra]]; [|discriminate].
      split; [lia|]. rewrite existsb_app. simpl. unfold same_slot. simpl.
      rewrite !Z.eqb_refl. apply orb_true_r.
  - exact Hinv.
Qed.

Lemma resume_length : forall calls i db,
  length (fst (resume m d s ts i calls db)) = length calls.
Proof.
  induction calls as [|b rest IH]; intros i db; [destruct i; reflexivity|].
  destruct i as [|i]; simpl.
  - destruct (advance m d s ts b db); reflexivity.
  - specialize (IH i db). destruct (resume m d s ts i rest db). simpl in *.
    congruence.
Qed.

Lemma run_invariant : forall (P : list booking -> database -> Prop),
  (forall i calls db calls' db',
      P calls db -> resume m d s ts i calls db = (calls', db') -> P calls' db') ->
  forall schedule calls db,
    P calls db ->
    P (fst (run m d s ts schedule calls db)) (snd (run m d s ts schedule calls db)).
Proof.
  intros P Hstep. unfold run.
  induction schedule as [|i schedule IH]; intros calls db HP; [exact HP|].
  simpl. destruct (resume m d s ts i calls db) as [calls1 db1] eqn:Hres.
  apply IH. eapply Hstep; eassumption.
Qed.

Lemma run_length : forall schedule calls db,
  length (fst (run m d s ts schedule calls db)) = length calls.
Proof.
  intros schedule calls db.
  apply (run_invariant (fun calls' _ => length calls' = length calls));
    [|reflexivity].
  intros i c0 d0 c1 d1 H Hres.
  pose proof (resume_length c0 i d0) as Hl. rewrite Hres in Hl. simpl in Hl.
  congruence.
Qed.

Lemma all_finished_not_free : forall calls db,
  calls <> [] -> forallb is_finished calls = true -> ~ slot_free calls db.
Proof.
  intros calls db Hne Hall [_ Hnone]. unfold none_finished in Hnone.
  destruct calls as [|b calls]; [contradiction|]. simpl in *.
  apply andb_true_iff in Hall. apply andb_true_iff in Hnone.
  destruct Hall as [Hb _]. destruct Hnone as [Hb' _].
  rewrite Hb in Hb'. discriminate.
Qed.

Lemma run_exactly_one : forall schedule calls db,
  existsb (same_slot slot m) (appointments db) = false ->
  forallb (fun b => negb (is_finished b)) calls = true ->
  calls <> [] ->
  forallb is_finished (fst (run m d s ts schedule calls db)) = true ->
  length (filter has_created (fst (run m d s ts schedule calls db))) = 1%nat
  /\ length (active_at slot m (snd (run m d s ts schedule calls db))) = 1%nat.
Proof.
  intros schedule calls db Hfree Hnone Hne Hall.
  pose proof (run_invariant (fun c x => slot_free c x \/ slot_won c x)
                resume_free_or_won schedule calls db) as Hinv.
  destruct Hinv as [Hf | Hw]; [left; split; assumption | | exact Hw].
  exfalso. eapply all_finished_not_free; [|exact Hall|exact Hf].
  intro E. apply (f_equal (@length booking)) in E. rewrite run_length in E.
  destruct calls; [contradiction|discriminate].
Qed.

Lemma run_at_most_one : forall schedule calls db,
  forallb (fun b => negb (is_finished b)) calls = true ->
  (length (filter has_created (fst (run m d s ts schedule calls db))) <= 1)%nat.
Proof.
  intros schedule calls db Hnone.
  pose proof (run_invariant at_most_one resume_at_most_one schedule calls db) as Hinv.
  destruct Hinv as [H | [H _]].
  - left. apply none_finished_created. exact Hnone.
  - fold (created (fst (run m d s ts schedule calls db))). lia.
  - fold (created (fst (run m d s ts schedule calls db))). lia.
Qed.

(** Once any row, of whatever status, holds the slot, no resumption changes
    the store or lets a call create a row; and when that row is not active,
    so that the check passes, every call that finishes does so in the
    uncaught error of its [INSERT]. *)
Lemma resume_taken_slot : forall db0 i calls db calls' db',
  existsb (same_slot slot m) (appointments db0) = true ->
  (db = db0
   /\ Forall (fun b => has_created b = false
                       /\ (active_at slot m db0 = [] -> is_finished b = true ->
                           b = Finished UncaughtIntegrityError)) calls) ->
  resume m d s ts i calls db = (calls', db') ->
  db' = db0
  /\ Forall (fun b => has_created b = false
                      /\ (active_at slot m db0 = [] -> is_finished b = true ->
                          b = Finished UncaughtIntegrityError)) calls'.
Proof.
  intros db0 i calls db calls' db' Htaken [-> Hall] Hres.
  destruct (resume_spec calls i db0) as [Heq | [pre [b [post [-> Heq]]]]];
    rewrite Heq in Hres; injection Hres as <- <-; [split; [reflexivity|assumption]|].
  apply Forall_app in Hall. destruct Hall as [Hpre Hrest].
  inversion Hrest as [|? ? Hb Hpost]; subst.
  assert (Hadv : snd (advance m d s ts b db0) = db0
                 /\ has_created (fst (advance m d s ts b db0)) = false
                 /\ (active_at slot m db0 = [] ->
                     is_finished (fst (advance m d s ts b db0)) = true ->
                     fst (advance m d s ts b db0) = Finished UncaughtIntegrityError)).
  { destruct b as [c sv|c sv|r]; simpl.
    - unfold is_slot_available. fold slot.
      destruct (Z.of_nat (length (active_at slot m db0)) =? 0) eqn:E; simpl.
      + repeat split. intros _ H. discriminate.
      + repeat split. intros Hnil _. rewrite Hnil in E. discriminate.
    - fold slot. unfold insert_appointment. rewrite Htaken. simpl. repeat split.
    - split; [reflexivity|]. exact Hb. }
  destruct Hadv as (Hdb & Hcr & Hfin). split; [exact Hdb|].
  apply Forall_app. split; [exact Hpre|]. constructor; [|exact Hpost].
  split; assumption.
Qed.

Lemma run_taken_slot : forall schedule calls db,
  existsb (same_slot slot m) (appointments db) = true ->
  forallb (fun b => negb (is_finished b)) calls = true ->
  snd (run m d s ts schedule calls db) = db
  /\ length (filter has_created (fst (run m d s ts schedule calls db))) = 0%nat
  /\ (active_at slot m db = [] ->
      forallb is_finished (fst (run m d s ts schedule calls db)) = true ->
      Forall (fun b => b = Finished UncaughtIntegrityError)
             (fst (run m d s ts schedule calls db))).
Proof.
  intros schedule calls db Htaken Hnone.
  pose proof (run_invariant
                (fun c x =>
                   x = db
                   /\ Forall (fun b => has_created b = false
                                       /\ (active_at slot m db = [] ->
                                           is_finished b = true ->
                                           b = Finished UncaughtIntegrityError)) c)
                (fun i c x c' x' H => resume_taken_slot db i c x c' x' Htaken H)
                schedule calls db) as Hinv.
  destruct Hinv as [Hdb Hall].
  { split; [reflexivity|]. apply Forall_forall. intros b Hb.
    rewrite forallb_forall in Hnone. specialize (Hnone b Hb).
    apply negb_true_iff in Hnone. split.
    - destruct b as [| |r]; [reflexivity|reflexivity|discriminate].
    - intros _ H. congruence. }
  split; [exact Hdb|]. split.
  - rewrite Forall_forall in Hall.
    destruct (filter has_created (fst (run m d s ts schedule calls db)))
      as [|b l] eqn:E; [reflexivity|].
    assert (Hb : In b (filter has_created (fst (run m d s ts schedule calls db))))
      by (rewrite E; left; reflexivity).
    apply filter_In in Hb. destruct Hb as [Hb Hc].
    destruct (Hall b Hb) as [Hno _]. congruence.
  - intros Hnil Hfin. rewrite Forall_forall in Hall. apply Forall_forall.
    intros b Hb. rewrite forallb_forall in Hfin.
    exact (proj2 (Hall b Hb) Hnil (Hfin b Hb)).
Qed.
End OneSlotFacts.

(** Run without interruption, the two statements of a call are
    [create_appointment] for a stored client. *)
Lemma create_appointment_as_steps : forall u sv m d s ts db c,
  client_by_telegram (u_id u) db = Some c ->
  let st1 := advance m d s ts (Checking (c_id c) sv) db in
  let st2 := advance m d s ts (fst st1) (snd st1) in
  fst (create_appointment u sv m d s ts db) = snd st2
  /\ match fst st2 with
     | Finished SlotConflict =>
         snd (create_appointment u sv m d s ts db) = Returned [Reply SlotJustTaken]
     | Finished (Created i) =>
         exists trace, snd (create_appointment u sv m d s ts db) = Returned trace
     | Finished UncaughtIntegrityError =>
         snd (create_appointment u sv m d s ts db) = Raised IntegrityError
     | _ => False
     end.
Proof.
  intros u sv m d s ts db c Hc. unfold create_appointment, get_or_create_client.
  rewrite Hc. simpl.
  destruct (negb (is_slot_available d s m db)); simpl; [split; reflexivity|].
  destruct (insert_appointment (c_id c) sv m (strptime d s) ts db) as [[db2 i]|]; simpl;
    [|split; reflexivity].
  destruct (fetchone (services_with_id sv db)); [destruct (fetchone (masters_with_id m db))|];
    simpl; split; try reflexivity; eexists; reflexivity.
Qed.

Lemma two_clients_reachable : reachable two_clients.
Proof.
  eapply reachable_step; [eapply reachable_step; [apply reachable_init|]|].
  - eapply (step_register _ _ alice). reflexivity.
  - eapply (step_register _ _ bob). reflexivity.
Qed.

Lemma resume_reachable : forall m d s ts i calls db calls' db',
  (reachable db /\ Forall (client_stored db) calls) ->
  resume m d s ts i calls db = (calls', db') ->
  reachable db' /\ Forall (client_stored db') calls'.
Proof.
  intros m d s ts i calls db calls' db' [Hr Hcl] Hres.
  destruct (resume_spec m d s ts calls i db) as [Heq | [pre [b [post [-> Heq]]]]];
    rewrite Heq in Hres; injection Hres as <- <-; [split; assumption|].
  apply Forall_app in Hcl. destruct Hcl as [Hpre Hrest].
  inversion Hrest as [|? ? Hb Hpost]; subst.
  destruct b as [c sv|c sv|r]; simpl in *.
  - destruct (negb _); simpl; split; try assumption;
      apply Forall_app; split; try assumption; constructor; simpl; auto.
  - destruct (insert_appointment c sv m (strptime d s) ts db) as [[db2 j]|] eqn:Hins;
      simpl.
    + assert (Hclients : clients db2 = clients db).
      { unfold insert_appointment in Hins. destruct (existsb _ _); [discriminate|].
        injection Hins as <- <-. reflexivity. }
      split; [eapply reachable_step; [exact Hr | eapply step_insert; eassumption]|].
      apply Forall_app; split; [|constructor; simpl; auto];
        eapply Forall_impl; try eassumption;
        intros [? ?|? ?|?]; simpl; rewrite ?Hclients; auto.
    + split; [assumption|].
      apply Forall_app; split; try assumption; constructor; simpl; auto.
  - split; [assumption|]. apply Forall_app; split; assumption.
Qed.

Lemma run_reachable : forall m d s ts schedule calls db,
  reachable db -> Forall (client_stored db) calls ->
  reachable (snd (run m d s ts schedule calls db)).
Proof.
  intros m d s ts schedule calls db Hr Hcl.
  apply (run_invariant m d s ts
           (fun c x => reachable x /\ Forall (client_stored x) c)
           (resume_reachable m d s ts) schedule calls db).
  split; assumption.
Qed.

Lemma alice_cancelled_reachable : reachable alice_cancelled.
Proof.
  eapply reachable_step;
    [eapply reachable_step; [apply two_clients_reachable|]|].
  - apply (step_create two_clients alice 1 1 d_2024_06_10 (14, 30) 0).
  - apply (step_cancel alice_booked alice 1 10).
Qed.

(** C1. Double booking is excluded, but so is the booking of a slot whose
    appointment was cancelled.  In every store reachable from the initial
    one by the handlers and the reminder loop, in any interleaving of their
    statements, at most one active appointment has a given time and master.
    When N calls of [create_appointment] for one slot run concurrently from
    such a store, the final store is again reachable and at most one call
    creates a row; exactly one does when the slot held no row and every call
    ran to its end.  When a row of any status holds the slot, none does and
    the store stays as it is; if that row is cancelled or completed, the
    check of every call passes and every call that runs to its end ends in
    the uncaught [IntegrityError].  Run without interruption, the two
    statements of a call are [create_appointment].  So on the store where
    Alice cancelled her appointment of 2024-06-10 14:30 with master 1, that
    slot is available and offered, yet two concurrent bookings of it both
    raise and none creates an appointment, and so does a single
    [create_appointment]. *)
Theorem double_booking_excluded_stale_slot_unbookable :
  (forall db, reachable db ->
     forall t m, (length (active_at t m db) <= 1)%nat)
  /\ (forall db m d s ts calls schedule,
        reachable db ->
        Forall (client_stored db) calls ->
        forallb (fun b => negb (is_finished b)) calls = true ->
        let final := run m d s ts schedule calls db in
        reachable (snd final)
        /\ (length (filter has_created (fst final)) <= 1)%nat
        /\ (existsb (same_slot (strptime d s) m) (appointments db) = false ->
            calls <> [] ->
            forallb is_finished (fst final) = true ->
            length (filter has_created (fst final)) = 1%nat
            /\ length (active_at (strptime d s) m (snd final)) = 1%nat)
        /\ (existsb (same_slot (strptime d s) m) (appointments db) = true ->
            snd final = db
            /\ length (filter has_created (fst final)) = 0%nat
            /\ (active_at (strptime d s) m db = [] ->
                is_slot_available d s m db = true
                /\ (forallb is_finished (fst final) = true ->
                    Forall (fun b => b = Finished UncaughtIntegrityError)
                           (fst final)))))
  /\ (forall u sv m d s ts db c,
        client_by_telegram (u_id u) db = Some c ->
        let final := run m d s ts [0; 0]%nat [Checking (c_id c) sv] db in
        fst (create_appointment u sv m d s ts db) = snd final
        /\ match fst final with
           | [Finished SlotConflict] =>
               snd (create_appointment u sv m d s ts db)
               = Returned [Reply SlotJustTaken]
           | [Finished (Created i)] =>
               exists trace,
                 snd (create_appointment u sv m d s ts db) = Returned trace
           | [Finished UncaughtIntegrityError] =>
               snd (create_appointment u sv m d s ts db) = Raised IntegrityError
           | _ => False
           end)
  /\ (reachable alice_cancelled
      /\ status_of 1 alice_cancelled = [cancelled]
      /\ is_slot_available d_2024_06_10 (14, 30) 1 alice_cancelled = true
      /\ In (14, 30)
            (get_available_slots d_2024_06_10 1 now_2024_06_02_10h alice_cancelled)
      /\ (let final := run 1 d_2024_06_10 (14, 30) 20 [0; 1; 0; 1]%nat
                         [Checking 1 1; Checking 2 1] alice_cancelled in
          fst final = [Finished UncaughtIntegrityError; Finished UncaughtIntegrityError]
          /\ length (filter has_created (fst final)) = 0%nat
          /\ snd final = alice_cancelled)
      /\ create_appointment bob 1 1 d_2024_06_10 (14, 30) 20 alice_cancelled
         = (alice_cancelled, Raised IntegrityError)
      /\ create_appointment alice 1 1 d_2024_06_10 (14, 30) 20 alice_cancelled
         = (alice_cancelled, Raised IntegrityError)).
Proof.
  split; [|split; [|split]].
  - intros db Hr t m. apply active_at_le1. apply reachable_well_formed. exact Hr.
  - intros db m d s ts calls schedule Hr Hcl Hnone final. subst final.
    split; [apply run_reachable; assumption|].
    split; [apply run_at_most_one; assumption|].
    split; [intros Hfree Hne Hall; apply run_exactly_one; assumption|].
    intro Htaken.
    destruct (run_taken_slot m d s ts schedule calls db Htaken Hnone)
      as (Hdb & Hnone' & Hraise).
    split; [exact Hdb|]. split; [exact Hnone'|].
    intro Hnil. split; [unfold is_slot_available; rewrite Hnil; reflexivity|].
    exact (Hraise Hnil).
  - intros u sv m d s ts db c Hc final. subst final.
    destruct (create_appointment_as_steps u sv m d s ts db c Hc) as [Hst Hout].
    cbv zeta in Hst, Hout. unfold run. cbn [fold_left resume fst snd].
    destruct (advance m d s ts (Checking (c_id c) sv) db) as [b1 db1] eqn:E1.
    cbn [fst snd] in *.
    destruct (advance m d s ts b1 db1) as [b2 db2] eqn:E2.
    cbn [fst snd] in *. split; [exact Hst|].
    destruct b2 as [| |[| |]]; try contradiction; exact Hout.
  - split; [apply alice_cancelled_reachable|]. repeat split.
    vm_compute. tauto.
Qed.

(** Three concurrent bookings of master 1 on 2024-06-10 at 14:30 on the
    store without appointments: all three pass the check before any
    inserts, one creates the appointment and two raise.  On the store where
    that appointment was cancelled, the same three all raise. *)
Lemma double_booking_excluded_stale_slot_unbookable_witness :
  (length (active_at (strptime d_2024_06_10 (14, 30)%Z) 1%Z two_clients) <= 1)%nat
  /\ (let final := run 1 d_2024_06_10 (14, 30) 0 [0; 1; 2; 2; 0; 1]%nat
                     [Checking 1 1; Checking 2 2; Checking 1 3] two_clients in
      fst final = [Finished UncaughtIntegrityError; Finished UncaughtIntegrityError;
                   Finished (Created 1)]
      /\ length (filter has_created (fst final)) = 1%nat
      /\ length (active_at (strptime d_2024_06_10 (14, 30)) 1 (snd final)) = 1%nat)
  /\ (let final := run 1 d_2024_06_10 (14, 30) 20 [0; 1; 2; 2; 0; 1]%nat
                     [Checking 1 1; Checking 2 2; Checking 1 3] alice_cancelled in
      snd final = alice_cancelled
      /\ length (filter has_created (fst final)) = 0%nat
      /\ Forall (fun b => b = Finished UncaughtIntegrityError) (fst final)).
Proof.
  destruct double_booking_excluded_stale_slot_unbookable
    as (Hinv & Hrun & _ & Hreach & _).
  split; [apply (Hinv two_clients two_clients_reachable)|].
  split.
  - split; [reflexivity|].
    assert (Hcl : Forall (client_stored two_clients)
                    [Checking 1 1; Checking 2 2; Checking 1 3])
      by (repeat constructor; simpl; auto).
    destruct (Hrun two_clients 1 d_2024_06_10 (14, 30) 0
                [Checking 1 1; Checking 2 2; Checking 1 3] [0; 1; 2; 2; 0; 1]%nat
                two_clients_reachable Hcl eq_refl) as (_ & _ & Hone & _).
    apply Hone; [reflexivity | discriminate | reflexivity].
  - assert (Hcl : Forall (client_stored alice_cancelled)
                    [Checking 1 1; Checking 2 2; Checking 1 3])
      by (repeat constructor; simpl; auto).
    destruct (Hrun alice_cancelled 1 d_2024_06_10 (14, 30) 20
                [Checking 1 1; Checking 2 2; Checking 1 3] [0; 1; 2; 2; 0; 1]%nat
                Hreach Hcl eq_refl) as (_ & _ & _ & Hstale).
    destruct (Hstale eq_refl) as (Hdb & Hnone & Hraise).
    split; [exact Hdb|]. split; [exact Hnone|].
    apply (proj2 (Hraise eq_refl)). reflexivity.
Defined.

(** * The reservation handlers *)

(** Booked one after the other, the second call for a slot is answered with
    the "slot was just taken" message and stores nothing. *)
Lemma second_booking_in_sequence_is_refused :
  snd (create_appointment alice 1 1 d_2024_06_10 (14, 0) 0 two_clients)
  = Returned [Reply (AppointmentCreated 1);
              Send 1627345808
                (NewAppointmentNotice 1 "Alice" "Классический массаж" "Илья"
                   (strptime d_2024_06_10 (14, 0)))]
  /\ create_appointment bob 1 1 d_2024_06_10 (14, 0) 5
       (fst (create_appointment alice 1 1 d_2024_06_10 (14, 0) 0 two_clients))
     = (fst (create_appointment alice 1 1 d_2024_06_10 (14, 0) 0 two_clients),
        Returned [Reply SlotJustTaken]).
Proof. split; reflexivity. Qed.

(** A call that passed the check while the slot was free and reaches its
    [INSERT] after another row took the slot ends in the integrity error. *)
Lemma late_insert_raises : forall m d s ts c sv db,
  existsb (same_slot (strptime d s) m) (appointments db) = true ->
  advance m d s ts (Inserting c sv) db = (Finished UncaughtIntegrityError, db).
Proof.
  intros m d s ts c sv db H. simpl. unfold insert_appointment. rewrite H. reflexivity.
Qed.

(** C2. Two calls of [create_appointment] for master 1 on 2024-06-10 at
    14:00 both pass [is_slot_available] before either inserts.  The first
    [INSERT] returns appointment 1; the second violates the uniqueness
    constraint and its call ends in the [IntegrityError] that nothing
    catches, not in the conflict answer. *)
Theorem concurrent_booking_loser_raises :
  let final := run 1 d_2024_06_10 (14, 0) 0 [0; 1; 0; 1]%nat
                 [Checking 1 1; Checking 2 1] two_clients in
  fst final = [Finished (Created 1); Finished UncaughtIntegrityError]
  /\ status_of 1 (snd final) = [active]
  /\ length (appointments (snd final)) = 1%nat.
Proof. repeat split. Qed.

(** The client's own cancellation changes no row that is not active. *)
Lemma cancel_appointment_keeps_terminal : forall u i ts db a,
  well_formed db -> In a (appointments db) -> is_active a = false ->
  In a (appointments (fst (cancel_appointment u i ts db))).
Proof.
  intros u i ts db a Hwf Hin Hterm. unfold cancel_appointment.
  destruct (fetchone _) as [[[[b c] s] m]|] eqn:Hsel; [|assumption].
  destruct (fetchone (filter _ (clients db))); [|assumption].
  simpl. apply in_map_iff. exists a. split; [|assumption].
  destruct (a_id a =? i) eqn:Hid; [|reflexivity].
  exfalso. apply Z.eqb_eq in Hid.
  (* the selected row is the active row with id [i]; [a] has the same id *)
  unfold fetchone, select_joined in Hsel.
  assert (Hb : In (b, c, s, m)
                 (flat_map (fun a0 => if has_id i a0 && is_active a0
                                      then join_csm db a0 else []) (appointments db))).
  { destruct (flat_map _ _); [discriminate|]. injection Hsel as ->. left. reflexivity. }
  apply in_flat_map in Hb. destruct Hb as [b' [Hb'in Hb']].
  destruct (has_id i b' && is_active b') eqn:Hcond; [|contradiction].
  apply andb_true_iff in Hcond. destruct Hcond as [Hidb Hactb].
  unfold has_id in Hidb. apply Z.eqb_eq in Hidb.
  assert (a = b').
  { apply (NoDup_map_eq _ _ a_id (appointments db)); try assumption;
      [apply Hwf | congruence]. }
  subst b'. congruence.
Qed.

(** C3. Appointment 1, booked and then cancelled by its client, is turned
    into a completed one by [admin_complete_appointment], whose [UPDATE]
    does not look at the status; and [admin_cancel_appointment] turns the
    completed row into a cancelled one again. *)
Theorem admin_actions_leave_terminal_states :
  status_of 1 alice_cancelled = [cancelled]
  /\ status_of 1 (fst (admin_complete_appointment 1 20 alice_cancelled)) = [completed]
  /\ status_of 1 (fst (admin_cancel_appointment 1 30
                         (fst (admin_complete_appointment 1 20 alice_cancelled))))
     = [cancelled].
Proof. repeat split. Qed.

(** C4. Completing appointment 1 twice: the second call answers exactly as
    the first, with the success message, and stamps [updated_at] again. *)
Theorem admin_complete_twice_reports_success_twice :
  let first := admin_complete_appointment 1 20 alice_booked in
  let second := admin_complete_appointment 1 30 (fst first) in
  snd first = [Sleep 600;
               Send 501 (ReviewRequest 1 "Классический массаж" "Илья");
               Reply (AdminCompleted 1)]
  /\ snd second = snd first
  /\ status_of 1 (fst first) = [completed]
  /\ status_of 1 (fst second) = [completed]
  /\ updated_at_of 1 (fst first) = [20]
  /\ updated_at_of 1 (fst second) = [30].
Proof. repeat split. Qed.

(** C9. [clear_history] of a stored client deletes the rows of that client
    whose status is completed or cancelled and no other row, the remaining
    rows staying as they were and in their order; it answers with the
    number of rows deleted and touches no other table. *)
Theorem clear_history_deletes_exactly_terminal :
  forall u db c,
    client_by_telegram (u_id u) db = Some c ->
    let db' := fst (clear_history u db) in
    (forall a, In a (appointments db') <->
               In a (appointments db)
               /\ ~ (client_id a = c_id c
                     /\ (status a = completed \/ status a = cancelled)))
    /\ appointments db'
       = filter (fun a => negb (in_history_of (c_id c) a)) (appointments db)
    /\ snd (clear_history u db)
       = [Reply (HistoryCleared
                   (Z.of_nat (length (appointments db))
                    - Z.of_nat (length (appointments db'))))]
    /\ clients db' = clients db /\ services db' = services db
    /\ masters db' = masters db /\ admins db' = admins db.
Proof.
  intros u db c Hc db'. subst db'. unfold clear_history. rewrite Hc. simpl.
  split; [|split; [reflexivity|split; [|repeat split]]].
  - intro a. rewrite filter_In. unfold in_history_of.
    rewrite negb_true_iff, andb_false_iff, Z.eqb_neq.
    rewrite <- is_terminal_true.
    destruct (is_terminal a); intuition congruence.
  - pose proof (filter_length_split _ (in_history_of (c_id c)) (appointments db)) as Hlen.
    do 3 f_equal. lia.
Qed.

Lemma clear_history_deletes_exactly_terminal_witness :
  snd (clear_history alice (with_rows history_rows)) = [Reply (HistoryCleared 5)]
  /\ map a_id (appointments (fst (clear_history alice (with_rows history_rows)))) = [3; 7]
  /\ In (sample_row 7 1 1 (strptime d_2024_06_10 (14, 30)) active)
        (appointments (fst (clear_history alice (with_rows history_rows)))).
Proof.
  assert (Hc : client_by_telegram (u_id alice) (with_rows history_rows)
               = Some {| c_id := 1; telegram_id := 501; username := "alice";
                         c_name := "Alice" |}) by reflexivity.
  destruct (clear_history_deletes_exactly_terminal alice (with_rows history_rows) _ Hc)
    as [Hiff [Hrows [Hreply _]]].
  split; [rewrite Hreply; reflexivity|].
  split; [rewrite Hrows; reflexivity|].
  apply Hiff. split; [simpl; tauto|]. simpl. intros [_ [H|H]]; discriminate.
Defined.

(** * A stale row blocks its slot *)

Lemma active_at_appointments : forall t m db db',
  appointments db' = appointments db -> active_at t m db' = active_at t m db.
Proof. intros t m db db' H. unfold active_at. rewrite H. reflexivity. Qed.

(** C10. The uniqueness constraint ranges over all statuses.  When a row
    that is not active is stored for a slot and no active one is,
    [is_slot_available] answers true, yet [create_appointment] for the slot
    ends in the uncaught [IntegrityError] and stores no appointment; once
    [clear_history] of the row's client has deleted the row, the same call
    creates the appointment. *)
Theorem stale_row_blocks_rebooking :
  forall u sv m d s ts db row,
    In row (appointments db) ->
    slot_key row = (strptime d s, m) ->
    (forall a, In a (appointments db) -> slot_key a = (strptime d s, m) ->
               status a <> active) ->
    is_slot_available d s m db = true
    /\ snd (create_appointment u sv m d s ts db) = Raised IntegrityError
    /\ appointments (fst (create_appointment u sv m d s ts db)) = appointments db
    /\ (forall owner c,
          well_formed db ->
          client_by_telegram (u_id owner) db = Some c ->
          c_id c = client_id row ->
          let db1 := fst (clear_history owner db) in
          (exists trace, snd (create_appointment u sv m d s ts db1) = Returned trace)
          /\ length (active_at (strptime d s) m
                       (fst (create_appointment u sv m d s ts db1))) = 1%nat).
Proof.
  intros u sv m d s ts db row Hin Hkey Hnoact.
  assert (Hnone : active_at (strptime d s) m db = []).
  { unfold active_at. apply existsb_false_filter_nil. apply not_true_is_false.
    intro Hex. apply existsb_exists in Hex. destruct Hex as [a [Ha Hp]].
    apply andb_true_iff in Hp. destruct Hp as [Hslot Hact].
    apply same_slot_true in Hslot. apply is_active_true in Hact.
    exact (Hnoact a Ha Hslot Hact). }
  assert (Htaken : existsb (same_slot (strptime d s) m) (appointments db) = true).
  { apply existsb_exists. exists row. split; [assumption|].
    apply same_slot_true. assumption. }
  split; [unfold is_slot_available; rewrite Hnone; reflexivity|].
  assert (Hcreate : snd (create_appointment u sv m d s ts db) = Raised IntegrityError
                    /\ appointments (fst (create_appointment u sv m d s ts db))
                       = appointments db).
  { unfold create_appointment.
    destruct (get_or_create_client_spec u db) as [db0 [c0 [-> [_ [_ [_ [Happ _]]]]]]].
    unfold is_slot_available. rewrite (active_at_appointments _ _ db db0 Happ), Hnone.
    simpl. unfold insert_appointment. rewrite Happ, Htaken. simpl. auto. }
  split; [apply Hcreate|]. split; [apply Hcreate|].
  intros owner c Hwf Hc Hcid db1. subst db1.
  unfold clear_history. rewrite Hc. simpl.
  set (db1 := with_appointments db _).
  assert (Hfree : existsb (same_slot (strptime d s) m) (appointments db1) = false).
  { apply not_true_is_false. intro Hex. apply existsb_exists in Hex.
    destruct Hex as [a [Ha Hslot]]. apply same_slot_true in Hslot.
    unfold db1 in Ha. simpl in Ha. apply filter_In in Ha. destruct Ha as [Ha Hkeep].
    assert (a = row).
    { apply (NoDup_map_eq _ _ slot_key (appointments db)); try assumption;
        [apply Hwf | congruence]. }
    subst a. apply negb_true_iff in Hkeep. unfold in_history_of in Hkeep.
    rewrite is_terminal_not_active in Hkeep.
    assert (Hna : is_active row = false).
    { apply not_true_is_false. intro Hact. apply is_active_true in Hact.
      exact (Hnoact row Hin Hkey Hact). }
    rewrite Hna, <- Hcid, Z.eqb_refl in Hkeep. discriminate. }
  unfold create_appointment.
  destruct (get_or_create_client_spec u db1) as [db2 [c2 [-> [_ [_ [_ [Happ _]]]]]]].
  assert (Hfree2 : existsb (same_slot (strptime d s) m) (appointments db2) = false)
    by (rewrite Happ; exact Hfree).
  unfold is_slot_available. rewrite (no_row_no_active m d s db2 Hfree2). simpl.
  destruct (insert_appointment (c_id c2) sv m (strptime d s) ts db2)
    as [[db3 i]|] eqn:Hins.
  - destruct (insert_appointment_active_at m d s ts _ _ _ _ _ Hfree2 Hins) as [Hone _].
    destruct (fetchone (services_with_id sv db2));
      [destruct (fetchone (masters_with_id m db2))|]; simpl;
      (split; [eexists; reflexivity | exact Hone]).
  - unfold insert_appointment in Hins. rewrite Hfree2 in Hins. discriminate.
Qed.

(** [alice] tries to book again the slot of the appointment she cancelled. *)
Lemma stale_row_blocks_rebooking_witness :
  is_slot_available d_2024_06_10 (14, 30) 1 alice_cancelled = true
  /\ snd (create_appointment alice 2 1 d_2024_06_10 (14, 30) 40 alice_cancelled)
     = Raised IntegrityError
  /\ status_of 1 (fst (create_appointment alice 2 1 d_2024_06_10 (14, 30) 40
                         alice_cancelled)) = [cancelled]
  /\ snd (create_appointment alice 2 1 d_2024_06_10 (14, 30) 40
            (fst (clear_history alice alice_cancelled)))
     = Returned [Reply (AppointmentCreated 2);
                 Send 1627345808
                   (NewAppointmentNotice 2 "Alice" "Спортивный массаж" "Илья"
                      (strptime d_2024_06_10 (14, 30)))].
Proof.
  assert (Hin : In (set_status cancelled 10
                      {| a_id := 1; client_id := 1; service_id := 1; master_id := 1;
                         appointment_time := strptime d_2024_06_10 (14, 30);
                         status := active; created_at := 0; updated_at := 0;
                         reminder_sent_day := false; reminder_sent_hour := false;
                         reminder_sent_admin := false |})
                   (appointments alice_cancelled)) by (left; reflexivity).
  destruct (stale_row_blocks_rebooking alice 2 1 d_2024_06_10 (14, 30) 40
              alice_cancelled _ Hin eq_refl) as [Havail [Hraise [Hrows _]]].
  - intros a [<-|[]] _. discriminate.
  - split; [exact Havail|]. split; [exact Hraise|].
    split; [unfold status_of; rewrite Hrows; reflexivity | reflexivity].
Defined.

(** * The reminder loop *)

Lemma Forall2_same : forall (A : Type) (R : A -> A -> Prop) (l : list A),
  (forall a, R a a) -> Forall2 R l l.
Proof. intros A R l H. induction l; constructor; auto. Qed.

Lemma Forall2_map_r : forall (A : Type) (R : A -> A -> Prop) (g : A -> A) (l : list A),
  (forall a, R a (g a)) -> Forall2 R l (map g l).
Proof. intros A R g l H. induction l; simpl; constructor; auto. Qed.

Lemma Forall2_compose :
  forall (A : Type) (R S T : A -> A -> Prop) (l1 l2 l3 : list A),
    (forall a b c, R a b -> S b c -> T a c) ->
    Forall2 R l1 l2 -> Forall2 S l2 l3 -> Forall2 T l1 l3.
Proof.
  intros A R S T l1 l2 l3 H H12. revert l3.
  induction H12 as [|a b l1 l2 Hab _ IH]; intros l3 H23; inversion H23; subst;
    constructor; eauto.
Qed.

Lemma Forall2_In_r : forall (A : Type) (R : A -> A -> Prop) (l l' : list A) (b : A),
  Forall2 R l l' -> In b l' -> exists a, In a l /\ R a b.
Proof.
  intros A R l l' b H. induction H as [|x y l l' Hxy _ IH]; simpl; [intros []|].
  intros [<-|Hin]; [exists x; auto|].
  destruct (IH Hin) as [a [Ha Hr]]. exists a. auto.
Qed.

Lemma flags_raised_refl : forall a, flags_raised a a.
Proof. intro a. repeat split; auto. Qed.

Lemma flags_raised_trans : forall a b c,
  flags_raised a b -> flags_raised b c -> flags_raised a c.
Proof.
  unfold flags_raised. intros a b c H1 H2.
  destruct H1 as (?&?&?&?&?&?&?&?&?), H2 as (?&?&?&?&?&?&?&?&?).
  repeat split; try congruence. auto.
Qed.

Lemma flags_raised_evolves : forall a b, flags_raised a b -> evolves a b.
Proof.
  unfold flags_raised, evolves. intros a b (?&?&?&?&?&?&?&?&?).
  repeat split; auto.
Qed.

Lemma evolves_refl : forall a, evolves a a.
Proof. intro a. repeat split; auto. Qed.

Lemma evolves_trans : forall a b c, evolves a b -> evolves b c -> evolves a c.
Proof.
  unfold evolves. intros a b c (?&?&?&?&?&Hs1&?) (?&?&?&?&?&Hs2&?).
  repeat split; try congruence; [|auto].
  destruct Hs2 as [Hs2|Hs2]; [rewrite Hs2; exact Hs1 | right; exact Hs2].
Qed.

Lemma set_status_completed_evolves : forall ts a, evolves a (set_status completed ts a).
Proof. intros ts a. repeat split; auto. Qed.

Lemma set_reminder_sent_day_raises : forall a, flags_raised a (set_reminder_sent_day a).
Proof. intro a. repeat split; auto. Qed.

Lemma set_reminder_sent_hour_raises : forall a, flags_raised a (set_reminder_sent_hour a).
Proof. intro a. repeat split; auto. Qed.

Lemma set_reminder_sent_admin_raises : forall a, flags_raised a (set_reminder_sent_admin a).
Proof. intro a. repeat split; auto. Qed.

Lemma same_tables_refl : forall db, same_tables db db.
Proof. intro db. repeat split. Qed.

Lemma same_tables_trans : forall a b c,
  same_tables a b -> same_tables b c -> same_tables a c.
Proof.
  unfold same_tables. intros a b c (?&?&?&?) (?&?&?&?). repeat split; congruence.
Qed.

Lemma same_tables_update : forall i f db, same_tables db (update_where_id i f db).
Proof. intros i f db. repeat split. Qed.

(** An [UPDATE ... WHERE id = ?] relates each row to its image. *)
Lemma update_related : forall (R : appointment -> appointment -> Prop) i f db,
  (forall a, R a a) -> (forall a, R a (f a)) ->
  Forall2 R (appointments db) (appointments (update_where_id i f db)).
Proof.
  intros R i f db Hrefl Hf. simpl. apply Forall2_map_r.
  intro a. destruct (a_id a =? i); auto.
Qed.

(** A loop of such updates, one per fetched row. *)
Lemma fold_related :
  forall (A : Type) (R : appointment -> appointment -> Prop)
         (body : sweep_state -> A -> sweep_state),
    (forall a, R a a) -> (forall a b c, R a b -> R b c -> R a c) ->
    (forall st x, Forall2 R (appointments (fst st)) (appointments (fst (body st x)))
                  /\ same_tables (fst st) (fst (body st x))) ->
    forall rows st,
      Forall2 R (appointments (fst st)) (appointments (fst (fold_left body rows st)))
      /\ same_tables (fst st) (fst (fold_left body rows st)).
Proof.
  intros A R body Hrefl Htrans Hbody. induction rows as [|x rows IH]; intro st; simpl.
  - split; [apply Forall2_same; assumption | apply same_tables_refl].
  - destruct (Hbody st x) as [H1 T1]. destruct (IH (body st x)) as [H2 T2].
    split; [|eapply same_tables_trans; eassumption].
    eapply Forall2_compose; [|exact H1|exact H2]. exact Htrans.
Qed.

Lemma auto_complete_evolves : forall now ts st,
  Forall2 evolves (appointments (fst st)) (appointments (fst (auto_complete now ts st)))
  /\ same_tables (fst st) (fst (auto_complete now ts st)).
Proof.
  intros now ts st. unfold auto_complete.
  apply fold_related; [apply evolves_refl | apply evolves_trans |].
  intros [db tr] [i tg]. simpl. split; [|repeat split].
  apply (update_related evolves i _ db);
    [apply evolves_refl | apply set_status_completed_evolves].
Qed.

Lemma remind_day_raises : forall now st,
  Forall2 flags_raised (appointments (fst st)) (appointments (fst (remind_day now st)))
  /\ same_tables (fst st) (fst (remind_day now st)).
Proof.
  intros now st. unfold remind_day.
  apply fold_related; [apply flags_raised_refl | apply flags_raised_trans |].
  intros [db tr] [[[a c] s] m]. simpl. split; [|repeat split].
  apply (update_related flags_raised (a_id a) _ db);
    [apply flags_raised_refl | apply set_reminder_sent_day_raises].
Qed.

Lemma remind_hour_raises : forall now st,
  Forall2 flags_raised (appointments (fst st)) (appointments (fst (remind_hour now st)))
  /\ same_tables (fst st) (fst (remind_hour now st)).
Proof.
  intros now st. unfold remind_hour.
  apply fold_related; [apply flags_raised_refl | apply flags_raised_trans |].
  intros [db tr] [[[a c] s] m]. simpl. split; [|repeat split].
  apply (update_related flags_raised (a_id a) _ db);
    [apply flags_raised_refl | apply set_reminder_sent_hour_raises].
Qed.

Lemma remind_admin_raises : forall now st,
  Forall2 flags_raised (appointments (fst st)) (appointments (fst (remind_admin now st)))
  /\ same_tables (fst st) (fst (remind_admin now st)).
Proof.
  intros now st. unfold remind_admin.
  apply fold_related; [apply flags_raised_refl | apply flags_raised_trans |].
  intros [db tr] [[[a c] s] m]. simpl. split; [|repeat split].
  apply (update_related flags_raised (a_id a) _ db);
    [apply flags_raised_refl | apply set_reminder_sent_admin_raises].
Qed.

(** The three reminder phases together. *)
Lemma reminders_raise : forall now st,
  Forall2 flags_raised (appointments (fst st))
    (appointments (fst (remind_admin now (remind_hour now (remind_day now st)))))
  /\ same_tables (fst st) (fst (remind_admin now (remind_hour now (remind_day now st)))).
Proof.
  intros now st.
  destruct (remind_day_raises now st) as [H1 T1].
  destruct (remind_hour_raises now (remind_day now st)) as [H2 T2].
  destruct (remind_admin_raises now (remind_hour now (remind_day now st))) as [H3 T3].
  split.
  - eapply Forall2_compose; [exact flags_raised_trans | |exact H3].
    eapply Forall2_compose; [exact flags_raised_trans | exact H1 | exact H2].
  - eapply same_tables_trans; [|exact T3]. eapply same_tables_trans; eassumption.
Qed.

Lemma sweep_phases : forall now ts db,
  fst (sweep now ts db)
  = fst (remind_admin now (remind_hour now (remind_day now (auto_complete now ts (db, []))))).
Proof. reflexivity. Qed.

(** ** Auto-completion *)

Lemma elapsed_app : forall t1 t2, elapsed (t1 ++ t2) = elapsed t1 + elapsed t2.
Proof.
  induction t1 as [|e t1 IH]; intro t2; simpl; [reflexivity|].
  destruct e; rewrite IH; lia.
Qed.

Lemma elapsed_ask_for_review : forall db i, elapsed (ask_for_review db i) = 0.
Proof.
  intros db i. unfold ask_for_review.
  destruct (fetchone _) as [[[[a c] s] m]|]; reflexivity.
Qed.

Lemma ask_for_review_without_context_nil : forall db i,
  ask_for_review_without_context db i = [].
Proof.
  intros db i. unfold ask_for_review_without_context.
  destruct (fetchone _); reflexivity.
Qed.

Lemma position_none : forall i ids, position i ids = None <-> ~ In i ids.
Proof.
  intros i. induction ids as [|j ids IH]; simpl; [tauto|].
  destruct (j =? i) eqn:E.
  - apply Z.eqb_eq in E. split; [discriminate | intro H; exfalso; apply H; auto].
  - apply Z.eqb_neq in E. destruct (position i ids); split; intro H;
      try discriminate; try reflexivity.
    + exfalso. destruct IH as [_ IH]. assert (~ In i ids) by tauto.
      specialize (IH H0). discriminate.
    + destruct IH as [IH _]. specialize (IH eq_refl). tauto.
Qed.

Lemma position_nth_error : forall i ids k,
  position i ids = Some k -> nth_error ids k = Some i.
Proof.
  intros i. induction ids as [|j ids IH]; simpl; intros k H; [discriminate|].
  destruct (j =? i) eqn:E.
  - injection H as <-. apply Z.eqb_eq in E. subst. reflexivity.
  - destruct (position i ids) as [k'|]; [|discriminate].
    injection H as <-. simpl. apply IH. reflexivity.
Qed.

Lemma filter_unique : forall (A : Type) (k : A -> Z) (l : list A) (i : Z),
  NoDup (map k l) -> In i (map k l) ->
  exists x, filter (fun y => k y =? i) l = [x].
Proof.
  intros A k. induction l as [|y l IH]; simpl; intros i Hnd Hin; [contradiction|].
  inversion Hnd as [|? ? Hnotin Hrest]; subst.
  destruct (k y =? i) eqn:E.
  - apply Z.eqb_eq in E. subst i. exists y. f_equal.
    apply existsb_false_filter_nil. apply not_true_is_false. intro Hex.
    apply existsb_exists in Hex. destruct Hex as [z [Hz Hk]]. apply Z.eqb_eq in Hk.
    apply Hnotin. rewrite <- Hk. apply in_map. assumption.
  - apply Z.eqb_neq in E. destruct Hin as [Hin|Hin]; [contradiction|].
    apply IH; assumption.
Qed.

(** In a well-formed store the join with [clients] gives one row per
    appointment, so the loop visits the past active rows once each, in
    rowid order. *)
Lemma past_appointments_ids : forall now db,
  well_formed db ->
  map fst (past_appointments now db) = map a_id (swept now db).
Proof.
  intros now db [_ _ Hc Hr]. unfold past_appointments, swept.
  induction (appointments db) as [|a l IH]; simpl; [reflexivity|].
  rewrite map_app, IH by (intros b Hb; apply Hr; right; assumption).
  destruct (is_past_active now a); simpl; [|reflexivity].
  destruct (filter_unique _ c_id (clients db) (client_id a) Hc) as [c Hcl];
    [apply Hr; left; reflexivity|].
  unfold clients_with_id. rewrite Hcl. reflexivity.
Qed.

Lemma stamp_step : forall ts e i ids a,
  ~ In i ids ->
  stamp_completed (ts + (e + 600)) ids
    (if a_id a =? i then set_status completed (ts + e) a else a)
  = stamp_completed (ts + e) (i :: ids) a.
Proof.
  intros ts e i ids a Hnotin. unfold stamp_completed. cbn [position].
  destruct (a_id a =? i) eqn:E.
  - apply Z.eqb_eq in E.
    change (a_id (set_status completed (ts + e) a)) with (a_id a).
    rewrite E, Z.eqb_refl.
    apply position_none in Hnotin. rewrite Hnotin. f_equal. lia.
  - rewrite Z.eqb_sym, E. destruct (position (a_id a) ids); [|reflexivity].
    f_equal. lia.
Qed.

Lemma fold_complete : forall ts rows st,
  NoDup (map fst rows) ->
  appointments (fst (fold_left (complete_one ts) rows st))
  = map (stamp_completed (ts + elapsed (snd st)) (map fst rows)) (appointments (fst st))
  /\ elapsed (snd (fold_left (complete_one ts) rows st))
     = elapsed (snd st) + 600 * Z.of_nat (length rows).
Proof.
  intros ts. induction rows as [|[i tg] rows IH]; intros [db tr] Hnd.
  - simpl. split; [|lia]. symmetry. rewrite <- (map_id (appointments db)) at 2.
    apply map_ext. reflexivity.
  - simpl in Hnd. inversion Hnd as [|? ? Hnotin Hrest]; subst.
    cbn [fold_left complete_one].
    specialize (IH (update_where_id i (set_status completed (ts + elapsed tr)) db,
                    tr ++ Sleep 600 :: ask_for_review_without_context
                            (update_where_id i (set_status completed (ts + elapsed tr)) db) i)
                   Hrest).
    destruct IH as [IHrows IHtime]. cbn [fst snd] in *.
    rewrite ask_for_review_without_context_nil in IHrows, IHtime |- *.
    rewrite elapsed_app in IHrows, IHtime. cbn [elapsed] in IHrows, IHtime.
    split.
    + rewrite IHrows. simpl. rewrite map_map. apply map_ext. intro a.
      replace (ts + (elapsed tr + (600 + 0))) with (ts + (elapsed tr + 600)) by lia.
      apply stamp_step. exact Hnotin.
    + rewrite IHtime. cbn [length]. lia.
Qed.

Lemma auto_complete_spec : forall now ts db,
  well_formed db ->
  appointments (fst (auto_complete now ts (db, [])))
  = map (stamp_completed ts (map a_id (swept now db))) (appointments db)
  /\ elapsed (snd (auto_complete now ts (db, [])))
     = 600 * Z.of_nat (length (swept now db)).
Proof.
  intros now ts db Hwf. unfold auto_complete. cbn [fst].
  pose proof (past_appointments_ids now db Hwf) as Hids.
  assert (Hnd : NoDup (map fst (past_appointments now db))).
  { rewrite Hids. unfold swept. apply NoDup_map_filter. apply Hwf. }
  destruct (fold_complete ts (past_appointments now db) (db, []) Hnd) as [Hrows Htime].
  cbn [fst snd elapsed] in *. rewrite Hids, Z.add_0_r in Hrows.
  split; [exact Hrows|]. rewrite Htime.
  rewrite <- (length_map fst), Hids, length_map. lia.
Qed.

(** What the stamp does to a row of a well-formed store. *)
Lemma stamp_completed_row : forall now ts db a,
  well_formed db -> In a (appointments db) ->
  if is_past_active now a
  then exists k, nth_error (swept now db) k = Some a
                 /\ stamp_completed ts (map a_id (swept now db)) a
                    = set_status completed (ts + 600 * Z.of_nat k) a
  else stamp_completed ts (map a_id (swept now db)) a = a.
Proof.
  intros now ts db a Hwf Hin. unfold stamp_completed.
  assert (Hsame : forall b, In b (swept now db) -> a_id b = a_id a -> b = a).
  { intros b Hb Heq. unfold swept in Hb. apply filter_In in Hb.
    apply (NoDup_map_eq _ _ a_id (appointments db)); try tauto. apply Hwf. }
  destruct (is_past_active now a) eqn:Hpast.
  - destruct (position (a_id a) (map a_id (swept now db))) as [k|] eqn:Hpos.
    + exists k. split; [|reflexivity].
      apply position_nth_error in Hpos. rewrite nth_error_map in Hpos.
      destruct (nth_error (swept now db) k) as [b|] eqn:Hb; [|discriminate].
      simpl in Hpos. injection Hpos as Hid.
      rewrite (Hsame b (nth_error_In _ _ Hb) Hid). reflexivity.
    + exfalso. apply position_none in Hpos. apply Hpos. apply in_map.
      unfold swept. apply filter_In. split; assumption.
  - destruct (position (a_id a) (map a_id (swept now db))) as [k|] eqn:Hpos;
      [|reflexivity].
    exfalso. apply position_nth_error in Hpos. apply nth_error_In in Hpos.
    apply in_map_iff in Hpos. destruct Hpos as [b [Hid Hb]].
    rewrite (Hsame b Hb Hid) in Hb. unfold swept in Hb. apply filter_In in Hb.
    destruct Hb as [_ Hb]. congruence.
Qed.

Lemma Forall2_map_r_in :
  forall (A : Type) (R : A -> A -> Prop) (g : A -> A) (l : list A),
    (forall a, In a l -> R a (g a)) -> Forall2 R l (map g l).
Proof.
  intros A R g l H. induction l as [|a l IH]; simpl; constructor.
  - apply H. left. reflexivity.
  - apply IH. intros b Hb. apply H. right. assumption.
Qed.

(** C6. One cycle of the reminder loop, run at [now] on a well-formed store
    (every reachable store is one), completes each active appointment whose
    time is strictly before [now], stamping [updated_at] with the store's
    clock at that moment (ten minutes later for each row completed before
    it in the cycle), and leaves the status and [updated_at] of every other
    row as they were; no row is added, removed or changes its identity.
    The rows are taken in the order of the table ([swept]); the [SELECT] has
    no [ORDER BY], and [completion_in_any_order_of_the_fetch] gives the
    same completions, with the stamps following the fetch, for any other
    order. *)
Theorem sweep_completes_exactly_the_past_active :
  forall db now ts,
    well_formed db ->
    Forall2
      (fun a a' =>
         a_id a' = a_id a /\ client_id a' = client_id a
         /\ service_id a' = service_id a /\ master_id a' = master_id a
         /\ appointment_time a' = appointment_time a
         /\ created_at a' = created_at a
         /\ if (appointment_time a <? now) && is_active a
            then status a' = completed
                 /\ exists k, nth_error (swept now db) k = Some a
                              /\ updated_at a' = ts + 600 * Z.of_nat k
            else status a' = status a /\ updated_at a' = updated_at a)
      (appointments db) (appointments (fst (sweep now ts db))).
Proof.
  intros db now ts Hwf. rewrite sweep_phases.
  destruct (auto_complete_spec now ts db Hwf) as [Hrows _].
  destruct (reminders_raise now (auto_complete now ts (db, []))) as [Hflags _].
  rewrite Hrows in Hflags.
  eapply Forall2_compose; [| |exact Hflags].
  2: { apply Forall2_map_r_in with
         (R := fun a b => In a (appointments db)
                          /\ b = stamp_completed ts (map a_id (swept now db)) a).
       intros a Ha. split; [assumption|reflexivity]. }
  intros a b c [Ha ->] Hraised. cbv beta in Hraised.
  pose proof (stamp_completed_row now ts db a Hwf Ha) as Hstamp.
  unfold is_past_active in Hstamp.
  destruct Hraised as (H1&H2&H3&H4&H5&H6&H7&H8&_).
  destruct ((appointment_time a <? now) && is_active a).
  - destruct Hstamp as [k [Hk Heq]]. rewrite Heq in *. simpl in *.
    repeat split; try assumption. exists k. split; assumption.
  - rewrite Hstamp in *. repeat split; assumption.
Qed.

Lemma overdue_rows_well_formed : well_formed (with_rows overdue_rows).
Proof.
  constructor; simpl.
  - repeat constructor; simpl; intuition discriminate.
  - repeat constructor; simpl; intuition discriminate.
  - repeat constructor; simpl; intuition discriminate.
  - intros a [<-|[<-|[<-|[]]]]; simpl; auto.
Qed.

(** The active appointment of 2024-06-01 09:00 is completed by the cycle
    run on 2024-06-02 at 10:00; the one of 2024-06-03 stays active. *)
Lemma sweep_completes_exactly_the_past_active_witness :
  Forall2
    (fun a a' =>
       a_id a' = a_id a /\ client_id a' = client_id a
       /\ service_id a' = service_id a /\ master_id a' = master_id a
       /\ appointment_time a' = appointment_time a
       /\ created_at a' = created_at a
       /\ if (appointment_time a <? now_2024_06_02_10h) && is_active a
          then status a' = completed
               /\ exists k, nth_error (swept now_2024_06_02_10h (with_rows overdue_rows)) k
                            = Some a
                            /\ updated_at a' = 7 + 600 * Z.of_nat k
          else status a' = status a /\ updated_at a' = updated_at a)
    (appointments (with_rows overdue_rows))
    (appointments (fst (sweep now_2024_06_02_10h 7 (with_rows overdue_rows))))
  /\ map status (appointments (fst (sweep now_2024_06_02_10h 7 (with_rows overdue_rows))))
     = [completed; completed; active]
  /\ map updated_at (appointments (fst (sweep now_2024_06_02_10h 7 (with_rows overdue_rows))))
     = [7; 607; 0].
Proof.
  split; [|split; reflexivity].
  apply (sweep_completes_exactly_the_past_active (with_rows overdue_rows)
           now_2024_06_02_10h 7 overdue_rows_well_formed).
Defined.

Lemma stamp_completed_status : forall ts ids a,
  status (stamp_completed ts ids a)
  = if existsb (fun i => i =? a_id a) ids then completed else status a.
Proof.
  intros ts ids a. unfold stamp_completed.
  destruct (position (a_id a) ids) as [k|] eqn:Hpos.
  - apply position_nth_error in Hpos. apply nth_error_In in Hpos.
    replace (existsb (fun i => i =? a_id a) ids) with true; [reflexivity|].
    symmetry. apply existsb_exists. exists (a_id a). split; [exact Hpos|apply Z.eqb_refl].
  - apply position_none in Hpos.
    replace (existsb (fun i => i =? a_id a) ids) with false; [reflexivity|].
    symmetry. apply not_true_is_false. intro H. apply existsb_exists in H.
    destruct H as [i [Hi Heq]]. apply Z.eqb_eq in Heq. subst i. contradiction.
Qed.

(** The order of the fetch.  The [SELECT] of the completion loop has no
    [ORDER BY].  In whatever order its rows are fetched, the loop completes
    the same rows; the row fetched in place [k] is stamped [ts + 600 * k],
    and every status is the one the order of the table gives. *)
Lemma completion_in_any_order_of_the_fetch : forall now ts db rows,
  well_formed db ->
  Permutation rows (past_appointments now db) ->
  appointments (fst (fold_left (complete_one ts) rows (db, [])))
  = map (stamp_completed ts (map fst rows)) (appointments db)
  /\ map status (appointments (fst (fold_left (complete_one ts) rows (db, []))))
     = map status (appointments (fst (auto_complete now ts (db, [])))).
Proof.
  intros now ts db rows Hwf Hperm.
  pose proof (past_appointments_ids now db Hwf) as Hids.
  assert (Hnd0 : NoDup (map fst (past_appointments now db))).
  { rewrite Hids. unfold swept. apply NoDup_map_filter. apply Hwf. }
  assert (Hpm : Permutation (map fst rows) (map fst (past_appointments now db)))
    by (apply Permutation_map; exact Hperm).
  assert (Hnd : NoDup (map fst rows)).
  { apply (Permutation_NoDup (Permutation_sym Hpm)). exact Hnd0. }
  destruct (fold_complete ts rows (db, []) Hnd) as [Hrows _].
  cbn [fst snd elapsed] in Hrows. rewrite Z.add_0_r in Hrows.
  split; [exact Hrows|].
  destruct (auto_complete_spec now ts db Hwf) as [Hrows0 _].
  rewrite Hrows, Hrows0, !map_map. apply map_ext. intro a.
  rewrite !stamp_completed_status, <- Hids.
  replace (existsb (fun i => i =? a_id a) (map fst rows))
    with (existsb (fun i => i =? a_id a) (map fst (past_appointments now db)));
    [reflexivity|].
  apply eq_true_iff_eq. rewrite !existsb_exists. split; intros [i [Hi Heq]];
    exists i; (split; [|exact Heq]).
  - exact (Permutation_in _ (Permutation_sym Hpm) Hi).
  - exact (Permutation_in _ Hpm Hi).
Qed.

(** C7. Two appointments are overdue and a third starts at 10:10; the
    cycle begins at 10:00.  It sleeps ten minutes inside the completion loop
    after each overdue row (the call of [ask_for_review] that follows each
    wait sends nothing): the second row is completed 600 seconds after the
    first, and the "in ten minutes" reminder of the third, whose window was
    computed from the reading of 10:00, is sent once both waits are over,
    at 10:20. *)
Theorem review_delay_runs_inside_the_cycle :
  let st := sweep now_2024_06_02_10h 7 (with_rows busy_rows) in
  let waits := [ Sleep 600; Sleep 600 ] in
  snd st
  = waits
    ++ [ Send 1627345808
           (AdminReminder 3 "Alice" "Классический массаж" "Илья"
              (strptime d_2024_06_02 (10, 10)));
         Sleep 60 ]
  /\ updated_at_of 1 (fst st) = [7]
  /\ updated_at_of 2 (fst st) = [7 + 600]
  /\ now_2024_06_02_10h + elapsed waits = strptime d_2024_06_02 (10, 20)
  /\ snd (auto_complete now_2024_06_02_10h 7 (with_rows busy_rows, [])) = waits.
Proof. repeat split. Qed.

(** Whatever the store, the reminder phases of a cycle start ten minutes
    later for each row the cycle completed. *)
Lemma reminders_wait_for_reviews : forall now ts db,
  well_formed db ->
  elapsed (snd (auto_complete now ts (db, [])))
  = 600 * Z.of_nat (length (swept now db)).
Proof. intros now ts db Hwf. apply auto_complete_spec. exact Hwf. Qed.

(** ** Day-before reminders *)

Lemma day_reminders_app : forall t1 t2,
  day_reminders (t1 ++ t2) = day_reminders t1 ++ day_reminders t2.
Proof.
  induction t1 as [|e t1 IH]; intro t2; simpl; [reflexivity|].
  destruct e as [chat msg| |]; try apply IH.
  destruct msg; simpl; rewrite ?IH; reflexivity.
Qed.

Lemma day_reminders_ask_for_review : forall db i, day_reminders (ask_for_review db i) = [].
Proof.
  intros db i. unfold ask_for_review.
  destruct (fetchone _) as [[[[a c] s] m]|]; reflexivity.
Qed.

Lemma day_reminders_admin_notification : forall db i cn sn mn t,
  day_reminders (send_admin_notification db (AdminReminder i cn sn mn t)) = [].
Proof.
  intros db i cn sn mn t. unfold send_admin_notification.
  induction (admins db); simpl; auto.
Qed.

Lemma fold_trace : forall (A : Type) (body : sweep_state -> A -> sweep_state)
    (sent : A -> list Z),
  (forall st x, day_reminders (snd (body st x)) = day_reminders (snd st) ++ sent x) ->
  forall rows st,
    day_reminders (snd (fold_left body rows st))
    = day_reminders (snd st) ++ flat_map sent rows.
Proof.
  intros A body sent Hbody. induction rows as [|x rows IH]; intro st; simpl.
  - rewrite app_nil_r. reflexivity.
  - rewrite IH, Hbody, <- app_assoc. reflexivity.
Qed.

Lemma flat_map_nil : forall (A B : Type) (f : A -> list B) (l : list A),
  (forall x, In x l -> f x = []) -> flat_map f l = [].
Proof.
  intros A B f. induction l as [|x l IH]; simpl; intro H; [reflexivity|].
  rewrite (H x (or_introl eq_refl)), IH; auto.
Qed.

Lemma flat_map_singleton : forall (A B : Type) (f : A -> B) (l : list A),
  flat_map (fun x => [f x]) l = map f l.
Proof. intros A B f. induction l; simpl; congruence. Qed.

(** The day-before reminders of a cycle are those of its second phase: one
    per row fetched there. *)
Lemma sweep_day_reminders : forall now ts db,
  day_reminders (snd (sweep now ts db))
  = map (fun r => a_id (row_of r))
        (select_joined (due_day now) (fst (auto_complete now ts (db, [])))).
Proof.
  intros now ts db. unfold sweep. cbn [snd fst].
  rewrite day_reminders_app. simpl. rewrite app_nil_r.
  unfold remind_admin.
  rewrite (fold_trace _ remind_admin_one (fun _ => [])).
  2: { intros [d tr] [[[a c] s] m]. simpl.
       rewrite day_reminders_app, day_reminders_admin_notification. reflexivity. }
  rewrite flat_map_nil, app_nil_r by reflexivity.
  unfold remind_hour.
  rewrite (fold_trace _ remind_hour_one (fun _ => [])).
  2: { intros [d tr] [[[a c] s] m]. simpl. rewrite day_reminders_app. reflexivity. }
  rewrite flat_map_nil, app_nil_r by reflexivity.
  unfold remind_day.
  rewrite (fold_trace _ remind_day_one (fun r => [a_id (row_of r)])).
  2: { intros [d tr] [[[a c] s] m]. simpl. rewrite day_reminders_app. reflexivity. }
  rewrite flat_map_singleton.
  unfold auto_complete.
  rewrite (fold_trace _ (complete_one ts) (fun _ => [])).
  2: { intros [d tr] [i tg]. simpl.
       rewrite ask_for_review_without_context_nil, day_reminders_app.
       reflexivity. }
  rewrite flat_map_nil by reflexivity. reflexivity.
Qed.

Lemma join_csm_row : forall db a r, In r (join_csm db a) -> row_of r = a.
Proof.
  intros db a r Hr. unfold join_csm in Hr.
  apply in_flat_map in Hr. destruct Hr as [c [_ Hr]].
  apply in_flat_map in Hr. destruct Hr as [s [_ Hr]].
  apply in_map_iff in Hr. destruct Hr as [m [<- _]]. reflexivity.
Qed.

Lemma in_select_joined : forall w db r,
  In r (select_joined w db) <->
  In (row_of r) (appointments db) /\ w (row_of r) = true
  /\ In r (join_csm db (row_of r)).
Proof.
  intros w db r. unfold select_joined. rewrite in_flat_map.
  split.
  - intros [a [Ha Hr]]. destruct (w a) eqn:Hw; [|contradiction].
    rewrite (join_csm_row db a r Hr). auto.
  - intros [Ha [Hw Hr]]. exists (row_of r). rewrite Hw. auto.
Qed.

Lemma join_length :
  forall (a : appointment) (cs : list client) (ss : list service) (ms : list master),
    length (flat_map (fun c =>
              flat_map (fun s => map (fun m => (a, c, s, m)) ms) ss) cs)
    = (length cs * (length ss * length ms))%nat.
Proof.
  intros a cs ss ms.
  assert (Hinner : forall c : client,
             length (flat_map (fun s : service =>
                                 map (fun m : master => (a, c, s, m)) ms) ss)
             = (length ss * length ms)%nat).
  { intro c. induction ss as [|s ss IHs]; simpl; [reflexivity|].
    rewrite length_app, length_map, IHs. reflexivity. }
  induction cs as [|c cs IH]; simpl; [reflexivity|].
  rewrite length_app, IH, Hinner. reflexivity.
Qed.

(** The join of a row depends on the three tables and on the row's foreign
    keys only. *)
Lemma join_csm_nil_transfer : forall db db' a a',
  same_tables db db' ->
  client_id a' = client_id a -> service_id a' = service_id a ->
  master_id a' = master_id a ->
  join_csm db a = [] -> join_csm db' a' = [].
Proof.
  intros db db' a a' (Hc & Hs & Hm & _) Hcid Hsid Hmid Hnil.
  apply length_zero_iff_nil. apply (f_equal (@length joined)) in Hnil.
  unfold join_csm, clients_with_id, services_with_id, masters_with_id in *.
  rewrite join_length in *. rewrite Hc, Hs, Hm, Hcid, Hsid, Hmid. exact Hnil.
Qed.

Lemma due_day_evolves_back : forall now a a',
  evolves a a' -> due_day now a' = true -> due_day now a = true.
Proof.
  unfold evolves, due_day, due. intros now a a' (_&_&_&_&Ht&Hs&Hf) H.
  rewrite Ht in H.
  apply andb_true_iff in H. destruct H as [H Hflag].
  apply andb_true_iff in H. destruct H as [Hwin Hact].
  rewrite Hwin. simpl.
  apply is_active_true in Hact. apply negb_true_iff in Hflag.
  assert (Ha : status a = active) by (destruct Hs as [Hs|Hs]; congruence).
  apply is_active_true in Ha. rewrite Ha. simpl.
  destruct (reminder_sent_day a); [|reflexivity].
  rewrite Hf in Hflag by reflexivity. discriminate.
Qed.

Lemma due_day_flag : forall now a, due_day now a = true -> reminder_sent_day a = false.
Proof.
  unfold due_day, due. intros now a H.
  apply andb_true_iff in H. destruct H as [_ H]. apply negb_true_iff in H. exact H.
Qed.

Lemma Forall2_map_l_inv :
  forall (A : Type) (R : A -> A -> Prop) (g : A -> A) (l l' : list A),
    Forall2 R (map g l) l' -> Forall2 (fun a b => R (g a) b) l l'.
Proof.
  intros A R g. induction l as [|a l IH]; simpl; intros l' H; inversion H; subst;
    constructor; auto.
Qed.

(** The loop of the second phase raises the day flag of every row whose id
    it fetched. *)
Lemma fold_remind_day_sets : forall rows st,
  Forall2 (fun a a' =>
             flags_raised a a'
             /\ (In (a_id a) (map (fun r => a_id (row_of r)) rows) ->
                 reminder_sent_day a' = true))
          (appointments (fst st))
          (appointments (fst (fold_left remind_day_one rows st))).
Proof.
  induction rows as [|[[[x c] s] m] rows IH]; intros [db tr]; simpl.
  - apply Forall2_same. intro a. split; [apply flags_raised_refl | intros []].
  - specialize (IH (update_where_id (a_id x) set_reminder_sent_day db,
                    tr ++ [Send (telegram_id c)
                             (DayReminder (a_id x) (s_name s) (m_name m)
                                (appointment_time x))])).
    cbn [fst] in IH. simpl appointments in IH at 1.
    apply Forall2_map_l_inv in IH.
    eapply Forall2_impl; [|exact IH]. cbv beta.
    intros a a' [Hraised Hset]. split.
    + eapply flags_raised_trans; [|exact Hraised].
      destruct (a_id a =? a_id x);
        [apply set_reminder_sent_day_raises | apply flags_raised_refl].
    + intros [Hid|Hin].
      * destruct Hraised as (_&_&_&_&_&_&_&_&Hmono). apply Hmono.
        rewrite Hid, Z.eqb_refl. reflexivity.
      * apply Hset. destruct (a_id a =? a_id x); exact Hin.
Qed.

(** After a cycle, every row it sent a day-before reminder for has its day
    flag set. *)
Lemma sweep_sets_day_flag : forall now ts db a',
  In a' (appointments (fst (sweep now ts db))) ->
  In (a_id a') (day_reminders (snd (sweep now ts db))) ->
  reminder_sent_day a' = true.
Proof.
  intros now ts db a' Hin Hsent. rewrite sweep_day_reminders in Hsent.
  rewrite sweep_phases in Hin.
  set (st1 := auto_complete now ts (db, [])) in *.
  destruct (remind_hour_raises now (remind_day now st1)) as [Hh _].
  destruct (remind_admin_raises now (remind_hour now (remind_day now st1))) as [Ha _].
  pose proof (Forall2_compose _ _ _ _ _ _ _ flags_raised_trans Hh Ha) as H34.
  destruct (Forall2_In_r _ _ _ _ _ H34 Hin) as [a2 [Ha2 Hr2]].
  pose proof (fold_remind_day_sets (select_joined (due_day now) (fst st1)) st1) as H2.
  fold (remind_day now st1) in H2. unfold remind_day in Ha2. unfold due_day in *.
  destruct (Forall2_In_r _ _ _ _ _ H2 Ha2) as [a1 [Ha1 [Hr1 Hset]]].
  destruct Hr2 as (Hid2&_&_&_&_&_&_&_&Hmono2).
  destruct Hr1 as (Hid1&_).
  apply Hmono2. apply Hset. rewrite <- Hid1, <- Hid2. exact Hsent.
Qed.

(** After a cycle run at [now], no row that is still due for the day-before
    reminder of [now] has a joined row to be fetched with. *)
Lemma sweep_leaves_none_due : forall now ts db a',
  In a' (appointments (fst (sweep now ts db))) ->
  due_day now a' = true ->
  join_csm (fst (sweep now ts db)) a' = [].
Proof.
  intros now ts db a' Hin Hdue. rewrite sweep_phases in *.
  set (st1 := auto_complete now ts (db, [])) in *.
  destruct (remind_day_raises now st1) as [_ T2].
  destruct (remind_hour_raises now (remind_day now st1)) as [Hh T3].
  destruct (remind_admin_raises now (remind_hour now (remind_day now st1))) as [Ha T4].
  pose proof (Forall2_compose _ _ _ _ _ _ _ flags_raised_trans Hh Ha) as H34.
  destruct (Forall2_In_r _ _ _ _ _ H34 Hin) as [a2 [Ha2 Hr2]].
  pose proof (fold_remind_day_sets (select_joined (due_day now) (fst st1)) st1) as H2.
  unfold remind_day in Ha2. fold (due_day now) in Ha2.
  destruct (Forall2_In_r _ _ _ _ _ H2 Ha2) as [a1 [Ha1 [Hr1 Hset]]].
  assert (Hr : flags_raised a1 a') by (eapply flags_raised_trans; eassumption).
  assert (Hdue1 : due_day now a1 = true).
  { eapply due_day_evolves_back; [apply flags_raised_evolves; exact Hr | exact Hdue]. }
  destruct (join_csm (fst st1) a1) as [|r rest] eqn:Hjoin.
  - destruct Hr as (_&Hc&Hs&Hm&_).
    apply (join_csm_nil_transfer (fst st1) _ a1 a'); try assumption.
    eapply same_tables_trans; [|exact T4]. eapply same_tables_trans; eassumption.
  - exfalso.
    assert (Hrj : In r (join_csm (fst st1) a1)) by (rewrite Hjoin; left; reflexivity).
    pose proof (join_csm_row _ _ _ Hrj) as Hrow.
    assert (Hsel : In r (select_joined (due_day now) (fst st1))).
    { apply in_select_joined. rewrite Hrow. auto. }
    assert (Hflag2 : reminder_sent_day a2 = true).
    { apply Hset. apply in_map_iff. exists r. rewrite Hrow. auto. }
    destruct Hr2 as (_&_&_&_&_&_&_&_&Hmono2).
    apply due_day_flag in Hdue. rewrite (Hmono2 Hflag2) in Hdue. discriminate.
Qed.

Lemma same_tables_sym : forall db db', same_tables db db' -> same_tables db' db.
Proof. unfold same_tables. intros db db' (?&?&?&?). repeat split; congruence. Qed.

(** The day-before window lies after [now]. *)
Lemma day_start_after_now : forall now, now < day_start now.
Proof.
  intro now. unfold day_start.
  pose proof (Z.mod_pos_bound (now + 86400) 86400 ltac:(lia)). lia.
Qed.

(** Every row due for the day-before reminder that has a joined row gets
    one in the cycle. *)
Lemma sweep_reminds_due : forall now ts db a,
  well_formed db -> In a (appointments db) ->
  due_day now a = true -> join_csm db a <> [] ->
  In (a_id a) (day_reminders (snd (sweep now ts db))).
Proof.
  intros now ts db a Hwf Hin Hdue Hjoin. rewrite sweep_day_reminders.
  destruct (auto_complete_spec now ts db Hwf) as [Hrows _].
  destruct (auto_complete_evolves now ts (db, [])) as [_ Htables]. cbn [fst] in Htables.
  set (db1 := fst (auto_complete now ts (db, []))) in *.
  assert (Hnot_past : is_past_active now a = false).
  { unfold due_day, due in Hdue. unfold is_past_active.
    apply andb_true_iff in Hdue. destruct Hdue as [Hdue _].
    apply andb_true_iff in Hdue. destruct Hdue as [Hdue _].
    apply andb_true_iff in Hdue. destruct Hdue as [Hlo _].
    apply Z.leb_le in Hlo. pose proof (day_start_after_now now).
    destruct (appointment_time a <? now) eqn:E; [|reflexivity].
    apply Z.ltb_lt in E. lia. }
  assert (Hin1 : In a (appointments db1)).
  { rewrite Hrows. apply in_map_iff. exists a. split; [|assumption].
    pose proof (stamp_completed_row now ts db a Hwf Hin) as Hst.
    rewrite Hnot_past in Hst. exact Hst. }
  destruct (join_csm db1 a) as [|r rest] eqn:Hj.
  - exfalso. apply Hjoin.
    apply (join_csm_nil_transfer db1 db a a); auto.
    apply same_tables_sym. exact Htables.
  - apply in_map_iff. exists r.
    assert (Hr : In r (join_csm db1 a)) by (rewrite Hj; left; reflexivity).
    pose proof (join_csm_row _ _ _ Hr) as Hrow.
    split; [rewrite Hrow; reflexivity|].
    apply in_select_joined. rewrite Hrow. auto.
Qed.

(** A second cycle for the same [now] fetches nothing for the day-before
    reminder. *)
Lemma second_sweep_fetches_none : forall now ts ts' db,
  select_joined (due_day now)
    (fst (auto_complete now ts' (fst (sweep now ts db), []))) = [].
Proof.
  intros now ts ts' db. set (db' := fst (sweep now ts db)).
  destruct (auto_complete_evolves now ts' (db', [])) as [Hev Htab]. cbn [fst] in *.
  unfold select_joined. apply flat_map_nil. intros a'' Hin.
  destruct (due_day now a'') eqn:Hdue; [|reflexivity].
  destruct (Forall2_In_r _ _ _ _ _ Hev Hin) as [a' [Ha' Hevolved]].
  pose proof (due_day_evolves_back now a' a'' Hevolved Hdue) as Hdue'.
  pose proof (sweep_leaves_none_due now ts db a' Ha' Hdue') as Hnil.
  destruct Hevolved as (_&Hc&Hs&Hm&_).
  exact (join_csm_nil_transfer db' _ a' a'' Htab Hc Hs Hm Hnil).
Qed.

(** C8. The day-before reminder is sent once.  A cycle sends the reminder
    for every active appointment of the day-before window whose flag is
    unset (and whose client, service and master rows exist); every row it
    sent one for has its flag set afterwards; no later cycle, whenever it
    runs, sends one for such a row again; and a second cycle for the same
    [now] sends no day-before reminder at all, so that two cycles send the
    reminders of one. *)
Theorem day_reminder_sent_once :
  forall db now ts,
    let first := sweep now ts db in
    (forall a, well_formed db -> In a (appointments db) ->
               due (day_start now) (day_end now) reminder_sent_day a = true ->
               join_csm db a <> [] ->
               In (a_id a) (day_reminders (snd first)))
    /\ (forall a', In a' (appointments (fst first)) ->
                   In (a_id a') (day_reminders (snd first)) ->
                   reminder_sent_day a' = true)
    /\ (forall now' ts' i,
          In i (day_reminders (snd first)) ->
          ~ In i (day_reminders (snd (sweep now' ts' (fst first)))))
    /\ (forall ts',
          day_reminders (snd (sweep now ts' (fst first))) = []
          /\ day_reminders (snd (schedule_reminders [(now, ts); (now, ts')] db))
             = day_reminders (snd (schedule_reminders [(now, ts)] db))).
Proof.
  intros db now ts first. subst first. repeat split.
  - intros a Hwf Hin Hdue Hjoin. apply sweep_reminds_due; assumption.
  - intros a' Hin Hsent. eapply sweep_sets_day_flag; eassumption.
  - intros now' ts' i Hsent Hagain.
    rewrite sweep_day_reminders in Hagain.
    apply in_map_iff in Hagain. destruct Hagain as [r [Hid Hsel]].
    apply in_select_joined in Hsel. destruct Hsel as [Hrow [Hdue _]].
    set (db' := fst (sweep now ts db)) in *.
    destruct (auto_complete_evolves now' ts' (db', [])) as [Hev _]. cbn [fst] in Hev.
    destruct (Forall2_In_r _ _ _ _ _ Hev Hrow) as [a' [Ha' Hevolved]].
    destruct Hevolved as (Hida&_&_&_&_&_&Hmono).
    apply due_day_flag in Hdue.
    rewrite Hmono in Hdue; [discriminate|].
    apply (sweep_sets_day_flag now ts db a' Ha'). rewrite <- Hida, Hid. exact Hsent.
  - rewrite sweep_day_reminders, second_sweep_fetches_none. reflexivity.
  - unfold schedule_reminders. cbn [fold_left fst snd app].
    rewrite day_reminders_app, (sweep_day_reminders now ts'),
      second_sweep_fetches_none. simpl. apply app_nil_r.
Qed.

(** Appointment 3 of the sample store lies in the day-before window of
    2024-06-02 10:00: the first cycle reminds its client, the second does
    not. *)
Lemma day_reminder_sent_once_witness :
  In 3 (day_reminders (snd (sweep now_2024_06_02_10h 7 (with_rows overdue_rows))))
  /\ day_reminders (snd (sweep now_2024_06_02_10h 1267
                           (fst (sweep now_2024_06_02_10h 7 (with_rows overdue_rows)))))
     = []
  /\ map reminder_sent_day
       (appointments (fst (sweep now_2024_06_02_10h 7 (with_rows overdue_rows))))
     = [false; false; true].
Proof.
  destruct (day_reminder_sent_once (with_rows overdue_rows) now_2024_06_02_10h 7)
    as [Hsend [_ [_ Hsecond]]].
  split; [|split; [apply (Hsecond 1267) | reflexivity]].
  apply (Hsend (sample_row 3 1 1 (strptime (d_2024_06_02 + 1) (11, 30)) active)).
  - exact overdue_rows_well_formed.
  - simpl. auto.
  - reflexivity.
  - discriminate.
Defined.

(** * Further properties of the reservation handlers *)

Lemma insert_client_keeps_appointments : forall u db db',
  insert_client u db = Some db' ->
  appointments db' = appointments db /\ appointments_seq db' = appointments_seq db
  /\ services db' = services db /\ masters db' = masters db /\ admins db' = admins db
  /\ exists c, clients db' = clients db ++ [c] /\ telegram_id c = u_id u.
Proof.
  intros u db db' H. unfold insert_client in H.
  destruct (existsb _ _); [discriminate|]. injection H as <-. simpl.
  repeat split. eexists. split; reflexivity.
Qed.

(** What [create_appointment] does, in every case: it answers that the slot
    was just taken when an active row holds the slot; it ends in the
    integrity error when only a row that is not active holds it; and
    otherwise it appends one active row with a fresh id, unset flags and the
    client of the user, and answers with that id when the service and the
    master exist.  It raises nothing else, and the rows stored before are
    never changed. *)
Theorem create_appointment_outcomes :
  forall u sv m d s ts db,
    let r := create_appointment u sv m d s ts db in
    let t := strptime d s in
    (is_slot_available d s m db = false
     /\ snd r = Returned [Reply SlotJustTaken]
     /\ appointments (fst r) = appointments db)
    \/ (is_slot_available d s m db = true
        /\ existsb (same_slot t m) (appointments db) = true
        /\ snd r = Raised IntegrityError
        /\ appointments (fst r) = appointments db)
    \/ (existsb (same_slot t m) (appointments db) = false
        /\ exists c row,
             In c (clients (fst r)) /\ telegram_id c = u_id u
             /\ appointments (fst r) = appointments db ++ [row]
             /\ a_id row = next_rowid (appointments_seq db) (map a_id (appointments db))
             /\ appointments_seq (fst r) = a_id row
             /\ client_id row = c_id c /\ service_id row = sv /\ master_id row = m
             /\ appointment_time row = t /\ status row = active
             /\ created_at row = ts /\ updated_at row = ts
             /\ reminder_sent_day row = false /\ reminder_sent_hour row = false
             /\ reminder_sent_admin row = false
             /\ snd r
                = Returned
                    (match fetchone (services_with_id sv db),
                           fetchone (masters_with_id m db) with
                     | Some _, Some _ =>
                         Reply (AppointmentCreated (a_id row))
                         :: send_new_appointment_notification (fst r) (a_id row)
                     | _, _ => []
                     end)).
Proof.
  intros u sv m d s ts db r t. subst r t. unfold create_appointment.
  destruct (get_or_create_client_spec u db)
    as [db1 [c [-> [Hdb1 [Hc [Htg [Happ _]]]]]]].
  assert (Hrest : appointments_seq db1 = appointments_seq db
                  /\ services db1 = services db /\ masters db1 = masters db).
  { destruct Hdb1 as [->|Hins]; [auto|].
    destruct (insert_client_keeps_appointments _ _ _ Hins) as (_&?&?&?&_). auto. }
  destruct Hrest as (Hseq & Hsv & Hms).
  assert (Hav : is_slot_available d s m db1 = is_slot_available d s m db).
  { unfold is_slot_available. rewrite (active_at_appointments _ _ db db1 Happ).
    reflexivity. }
  rewrite Hav.
  destruct (is_slot_available d s m db) eqn:Havail; simpl.
  2: { left. auto. }
  right. unfold insert_appointment. rewrite Happ, Hseq.
  destruct (existsb (same_slot (strptime d s) m) (appointments db)) eqn:Hex; simpl.
  - left. auto.
  - right. split; [reflexivity|].
    unfold services_with_id, masters_with_id. rewrite Hsv, Hms.
    fold (services_with_id sv db). fold (masters_with_id m db).
    destruct (fetchone (services_with_id sv db));
      [destruct (fetchone (masters_with_id m db))|]; simpl;
      eexists c, _; repeat split; simpl; try eassumption; try reflexivity.
Qed.

Lemma active_at_snoc : forall t m db db' row,
  appointments db' = appointments db ++ [row] ->
  active_at t m db'
  = active_at t m db
    ++ (if (appointment_time row =? t) && (master_id row =? m) && is_active row
        then [row] else []).
Proof.
  intros t m db db' row H. unfold active_at. rewrite H, filter_app. reflexivity.
Qed.

(** The rows of the store after [create_appointment]: those before, and at
    most one more, active, on the requested slot, added only if the slot
    held no row. *)
Lemma create_appointment_rows : forall u sv m d s ts db,
  (appointments (fst (create_appointment u sv m d s ts db)) = appointments db
   /\ appointments_seq (fst (create_appointment u sv m d s ts db))
      = appointments_seq db)
  \/ (existsb (same_slot (strptime d s) m) (appointments db) = false
      /\ exists row,
           appointments (fst (create_appointment u sv m d s ts db))
           = appointments db ++ [row]
           /\ appointment_time row = strptime d s /\ master_id row = m
           /\ status row = active
           /\ a_id row = next_rowid (appointments_seq db) (map a_id (appointments db))
           /\ appointments_seq (fst (create_appointment u sv m d s ts db)) = a_id row
           /\ reminder_sent_day row = false /\ reminder_sent_hour row = false
           /\ reminder_sent_admin row = false).
Proof.
  intros u sv m d s ts db. unfold create_appointment.
  destruct (get_or_create_client_spec u db)
    as [db1 [c [-> [Hdb1 [_ [_ [Happ _]]]]]]].
  assert (Hseq : appointments_seq db1 = appointments_seq db).
  { destruct Hdb1 as [->|Hins]; [reflexivity|].
    apply (insert_client_keeps_appointments _ _ _ Hins). }
  destruct (negb _); [left; split; assumption|].
  unfold insert_appointment. rewrite Happ, Hseq.
  destruct (existsb (same_slot (strptime d s) m) (appointments db)) eqn:Hex;
    [left; split; assumption|].
  right. split; [reflexivity|].
  destruct (fetchone (services_with_id sv db1));
    [destruct (fetchone (masters_with_id m db1))|]; simpl;
    eexists; repeat split.
Qed.

Lemma filter_filter_and : forall (A : Type) (p q : A -> bool) (l : list A),
  filter p (filter q l) = filter (fun x => p x && q x) l.
Proof.
  intros A p q. induction l as [|x l IH]; simpl; [reflexivity|].
  destruct (q x); simpl; rewrite ?andb_true_r, ?andb_false_r; destruct (p x);
    simpl; rewrite IH; reflexivity.
Qed.

(** A booking changes the availability of its own slot only: every other
    (time, master) pair is as available after [create_appointment] as
    before, and once the row is stored the slot is no longer available and
    no longer offered by [get_available_slots], which offers the other times
    of the day as before. *)
Theorem booking_takes_only_its_slot :
  forall u sv m d s ts db,
    let db' := fst (create_appointment u sv m d s ts db) in
    (forall d' s' m',
        (strptime d' s', m') <> (strptime d s, m) ->
        is_slot_available d' s' m' db' = is_slot_available d' s' m' db)
    /\ (existsb (same_slot (strptime d s) m) (appointments db) = false ->
        is_slot_available d s m db' = false
        /\ forall now,
             get_available_slots d m now db'
             = filter (fun s' => negb (time_obj s' =? time_obj s))
                 (get_available_slots d m now db)).
Proof.
  intros u sv m d s ts db db'. subst db'.
  destruct (create_appointment_rows u sv m d s ts db)
    as [[Hsame _] | [Hfree [row [Hrows [Ht [Hm [Hst _]]]]]]].
  - split.
    + intros d' s' m' _. unfold is_slot_available.
      rewrite (active_at_appointments _ _ _ _ Hsame). reflexivity.
    + intro Hfree. exfalso. unfold create_appointment in Hsame.
      destruct (get_or_create_client_spec u db)
        as [db1 [c [Hres [_ [_ [_ [Happ _]]]]]]].
      rewrite Hres in Hsame.
      assert (Hav : is_slot_available d s m db1 = true).
      { unfold is_slot_available.
        rewrite (no_row_no_active m d s db1) by (rewrite Happ; exact Hfree).
        reflexivity. }
      rewrite Hav in Hsame. simpl in Hsame.
      unfold insert_appointment in Hsame. rewrite Happ, Hfree in Hsame.
      assert (Hlen : forall x : database * outcome,
                 appointments (fst x) = appointments db ->
                 length (appointments (fst x)) = length (appointments db))
        by (intros x Hx; rewrite Hx; reflexivity).
      specialize (Hlen _ Hsame).
      destruct (fetchone (services_with_id sv db1));
        [destruct (fetchone (masters_with_id m db1))|]; simpl in Hlen;
        rewrite length_app in Hlen; simpl in Hlen; lia.
  - assert (Hact : is_active row = true) by (apply is_active_true; exact Hst).
    assert (Hother : forall d' s' m',
               (strptime d' s', m') <> (strptime d s, m) ->
               is_slot_available d' s' m'
                 (fst (create_appointment u sv m d s ts db))
               = is_slot_available d' s' m' db).
    { intros d' s' m' Hne. unfold is_slot_available.
      rewrite (active_at_snoc _ _ db _ row Hrows), Ht, Hm.
      destruct ((strptime d s =? strptime d' s') && (m =? m')) eqn:E.
      - apply andb_true_iff in E. destruct E as [E1 E2].
        apply Z.eqb_eq in E1, E2. exfalso. apply Hne. congruence.
      - simpl. rewrite app_nil_r. reflexivity. }
    assert (Hown : forall s', time_obj s' = time_obj s ->
               is_slot_available d s' m
                 (fst (create_appointment u sv m d s ts db)) = false).
    { intros s' Hs'. unfold is_slot_available.
      rewrite (active_at_snoc _ _ db _ row Hrows), Ht, Hm, Hact.
      unfold strptime. rewrite Hs', !Z.eqb_refl. simpl.
      rewrite length_app. simpl. apply Z.eqb_neq. lia. }
    split; [exact Hother|]. intros _. split; [apply Hown; reflexivity|].
    intro now. unfold get_available_slots. rewrite filter_filter_and.
    apply filter_ext. intro s'.
    destruct (time_obj s' =? time_obj s) eqn:E; simpl.
    + apply Z.eqb_eq in E. rewrite (Hown s' E).
      destruct ((d =? date_of now) && (time_obj s' <=? time_of now)); reflexivity.
    + apply Z.eqb_neq in E. rewrite Hother; [reflexivity|].
      unfold strptime. intro H. injection H as H. lia.
Qed.

Lemma booking_takes_only_its_slot_witness :
  is_slot_available d_2024_06_10 (14, 30) 1 alice_booked = false
  /\ get_available_slots d_2024_06_10 1 0 alice_booked
     = [(10, 0); (11, 30); (13, 0); (16, 0); (17, 30)]
  /\ is_slot_available d_2024_06_10 (14, 30) 2 alice_booked
     = is_slot_available d_2024_06_10 (14, 30) 2 two_clients.
Proof.
  destruct (booking_takes_only_its_slot alice 1 1 d_2024_06_10 (14, 30) 0 two_clients)
    as [Hother Hown].
  destruct (Hown eq_refl) as [Htaken Hslots].
  split; [exact Htaken|]. split.
  - unfold alice_booked. rewrite (Hslots 0). reflexivity.
  - apply Hother. intro H. injection H as H. discriminate.
Defined.

(** ** Cancellation by the client *)

Lemma select_joined_nil : forall w db,
  (forall a, In a (appointments db) -> w a = false) -> select_joined w db = [].
Proof.
  intros w db H. unfold select_joined. apply flat_map_nil.
  intros a Ha. rewrite (H a Ha). reflexivity.
Qed.

Lemma fetchone_in : forall (A : Type) (l : list A) (x : A),
  fetchone l = Some x -> In x l.
Proof.
  intros A [|y l] x H; [discriminate|]. injection H as ->. left. reflexivity.
Qed.

Lemma join_csm_client : forall db a b c s m,
  In (b, c, s, m) (join_csm db a) ->
  b = a /\ In c (clients db) /\ c_id c = client_id a
  /\ In s (services db) /\ s_id s = service_id a
  /\ In m (masters db) /\ m_id m = master_id a.
Proof.
  intros db a b c s m H. unfold join_csm in H.
  apply in_flat_map in H. destruct H as [c' [Hc H]].
  apply in_flat_map in H. destruct H as [s' [Hs H]].
  apply in_map_iff in H. destruct H as [m' [Heq Hm]].
  injection Heq as <- <- <- <-.
  unfold clients_with_id in Hc. unfold services_with_id in Hs.
  unfold masters_with_id in Hm.
  apply filter_In in Hc, Hs, Hm.
  destruct Hc as [? Hc], Hs as [? Hs], Hm as [? Hm].
  apply Z.eqb_eq in Hc, Hs, Hm. auto 10.
Qed.

Lemma cancel_appointment_not_active : forall u i ts db,
  (forall a, In a (appointments db) -> a_id a = i -> is_active a = false) ->
  cancel_appointment u i ts db = (db, [Reply NotFoundOrAlreadyCancelled]).
Proof.
  intros u i ts db Hnone. unfold cancel_appointment.
  rewrite select_joined_nil; [reflexivity|].
  intros a Ha. unfold has_id.
  destruct (a_id a =? i) eqn:E; [|reflexivity].
  apply Z.eqb_eq in E. rewrite (Hnone a Ha E). reflexivity.
Qed.

(** Who may not cancel.  When no row with the given id is active (the
    appointment does not exist, or is already completed or cancelled),
    [cancel_appointment] answers "not found or already cancelled"; when the
    user is not the client of the appointment it answers with one of its two
    refusals.  In both cases the store is left as it is and nothing is sent
    to the operators. *)
Theorem cancel_appointment_refusals :
  forall u i ts db,
    ((forall a, In a (appointments db) -> a_id a = i -> is_active a = false) ->
     cancel_appointment u i ts db = (db, [Reply NotFoundOrAlreadyCancelled]))
    /\ ((forall a c, In a (appointments db) -> a_id a = i ->
                     In c (clients db) -> c_id c = client_id a ->
                     telegram_id c <> u_id u) ->
        cancel_appointment u i ts db = (db, [Reply NotFoundOrAlreadyCancelled])
        \/ cancel_appointment u i ts db = (db, [Reply NotYourAppointment])).
Proof.
  intros u i ts db. split.
  - apply cancel_appointment_not_active.
  - intro Hother. unfold cancel_appointment.
    destruct (fetchone (select_joined _ db)) as [[[[b c] s] m]|] eqn:Hsel;
      [|left; reflexivity].
    right. apply fetchone_in in Hsel. apply in_select_joined in Hsel.
    simpl in Hsel. destruct Hsel as [Hb [Hw Hj]].
    apply andb_true_iff in Hw. destruct Hw as [Hid _].
    unfold has_id in Hid. apply Z.eqb_eq in Hid.
    apply join_csm_client in Hj. destruct Hj as (_ & _ & Hcid & _).
    assert (Hnil : filter (fun c' => (c_id c' =? c_id c) && (telegram_id c' =? u_id u))
                     (clients db) = []).
    { apply existsb_false_filter_nil. apply not_true_is_false. intro Hex.
      apply existsb_exists in Hex. destruct Hex as [c' [Hc' Hp]].
      apply andb_true_iff in Hp. destruct Hp as [H1 H2].
      apply Z.eqb_eq in H1, H2.
      apply (Hother b c' Hb Hid Hc'); congruence. }
    rewrite Hnil. reflexivity.
Qed.

Lemma cancel_appointment_refusals_witness :
  cancel_appointment alice 1 50 alice_cancelled
  = (alice_cancelled, [Reply NotFoundOrAlreadyCancelled])
  /\ (cancel_appointment bob 1 50 alice_booked
      = (alice_booked, [Reply NotFoundOrAlreadyCancelled])
      \/ cancel_appointment bob 1 50 alice_booked
         = (alice_booked, [Reply NotYourAppointment])).
Proof.
  split.
  - apply (proj1 (cancel_appointment_refusals alice 1 50 alice_cancelled)).
    intros a Ha _. cbv in Ha. destruct Ha as [<-|[]]. reflexivity.
  - apply (proj2 (cancel_appointment_refusals bob 1 50 alice_booked)).
    intros a c Ha _ Hc Hid. cbv in Ha, Hc.
    destruct Ha as [<-|[]]; destruct Hc as [<-|[<-|[]]]; simpl in *; discriminate.
Defined.

Lemma single_client : forall db a c,
  well_formed db -> In c (clients db) -> c_id c = client_id a ->
  clients_with_id (client_id a) db = [c].
Proof.
  intros db a c Hwf Hc Hid. unfold clients_with_id.
  destruct (filter_unique _ c_id (clients db) (client_id a)) as [c' Hc'];
    [apply Hwf | rewrite <- Hid; apply in_map; exact Hc |].
  rewrite Hc'. f_equal.
  assert (Hin : In c' (filter (fun y => c_id y =? client_id a) (clients db)))
    by (rewrite Hc'; left; reflexivity).
  apply filter_In in Hin. destruct Hin as [Hin Heq]. apply Z.eqb_eq in Heq.
  apply (NoDup_map_eq _ _ c_id (clients db)); try assumption; [apply Hwf|congruence].
Qed.

Lemma filter_one_before : forall (A : Type) (p : A -> bool) (l : list A) (x : A),
  In x l -> p x = true -> exists y, hd_error (filter p l) = Some y.
Proof.
  intros A p. induction l as [|z l IH]; simpl; intros x Hin Hp; [contradiction|].
  destruct Hin as [->|Hin].
  - rewrite Hp. simpl. eauto.
  - destruct (p z); simpl; eauto.
Qed.

(** A successful cancellation.  In a well-formed store, when the user is the
    client of the active appointment [a] (and its service and master rows
    exist), [cancel_appointment] marks that row cancelled with the store's
    clock as [updated_at], keeps it and every other row in place, tells
    every operator that the client cancelled, answers with the confirmation,
    and leaves the slot with no active appointment. *)
Theorem cancel_appointment_success :
  forall u ts db a c,
    well_formed db ->
    In a (appointments db) -> status a = active ->
    In c (clients db) -> c_id c = client_id a -> telegram_id c = u_id u ->
    services_with_id (service_id a) db <> [] ->
    masters_with_id (master_id a) db <> [] ->
    let r := cancel_appointment u (a_id a) ts db in
    appointments (fst r)
    = map (fun b => if a_id b =? a_id a then set_status cancelled ts a else b)
        (appointments db)
    /\ (forall b, In b (appointments db) -> a_id b = a_id a -> b = a)
    /\ (exists s m,
          In s (services db) /\ s_id s = service_id a
          /\ In m (masters db) /\ m_id m = master_id a
          /\ snd r
             = map (fun admin_id =>
                      Send admin_id
                        (CancellationNotice (a_id a) (c_name c) (s_name s) (m_name m)
                           (appointment_time a) by_client))
                   (admins db)
               ++ [Reply (AppointmentCancelled (a_id a))])
    /\ active_at (appointment_time a) (master_id a) (fst r) = [].
Proof.
  intros u ts db a c Hwf Ha Hst Hc Hcid Htg Hsv Hms r.
  assert (Hact : is_active a = true) by (apply is_active_true; exact Hst).
  assert (Huniq : forall b, In b (appointments db) -> a_id b = a_id a -> b = a).
  { intros b Hb Hid.
    apply (NoDup_map_eq _ _ a_id (appointments db)); try assumption. apply Hwf. }
  pose proof (single_client db a c Hwf Hc Hcid) as Hcl.
  destruct (services_with_id (service_id a) db) as [|s ss] eqn:Ess; [contradiction|].
  destruct (masters_with_id (master_id a) db) as [|m ms] eqn:Ems; [contradiction|].
  assert (Hs : In s (services db) /\ s_id s = service_id a).
  { assert (H : In s (services_with_id (service_id a) db))
      by (rewrite Ess; left; reflexivity).
    unfold services_with_id in H. apply filter_In in H.
    destruct H as [H1 H2]. apply Z.eqb_eq in H2. auto. }
  assert (Hm : In m (masters db) /\ m_id m = master_id a).
  { assert (H : In m (masters_with_id (master_id a) db))
      by (rewrite Ems; left; reflexivity).
    unfold masters_with_id in H. apply filter_In in H.
    destruct H as [H1 H2]. apply Z.eqb_eq in H2. auto. }
  assert (Hjoin : join_csm db a = (a, c, s, m) :: map (fun m' => (a, c, s, m')) ms
                                   ++ flat_map (fun s' => map (fun m' => (a, c, s', m'))
                                                            (m :: ms)) ss).
  { unfold join_csm. rewrite Hcl, Ess, Ems. simpl. rewrite app_nil_r. reflexivity. }
  assert (Hfirst : forall w,
             w a = true ->
             (forall b, In b (appointments db) -> w b = true -> a_id b = a_id a) ->
             fetchone (select_joined w db) = Some (a, c, s, m)).
  { intros w Hwa Hw. unfold select_joined.
    clear - Ha Hwa Hw Hjoin Huniq.
    induction (appointments db) as [|b l IH]; [contradiction|]. simpl.
    destruct (w b) eqn:Hwb.
    - assert (b = a).
      { apply Huniq; [left; reflexivity|]. apply Hw; [left; reflexivity|exact Hwb]. }
      subst b. rewrite Hjoin. reflexivity.
    - destruct Ha as [->|Ha]; [congruence|]. simpl.
      apply IH; [exact Ha| |].
      + intros b' Hb'. apply Huniq. right. exact Hb'.
      + intros b' Hb'. apply Hw. right. exact Hb'. }
  subst r. unfold cancel_appointment.
  rewrite (Hfirst (fun b => has_id (a_id a) b && is_active b)).
  2: { unfold has_id. rewrite Z.eqb_refl, Hact. reflexivity. }
  2: { intros b _ Hb. apply andb_true_iff in Hb. destruct Hb as [Hb _].
       unfold has_id in Hb. apply Z.eqb_eq in Hb. exact Hb. }
  destruct (filter_one_before _
              (fun c' => (c_id c' =? c_id c) && (telegram_id c' =? u_id u))
              (clients db) c Hc) as [c0 Hc0].
  { rewrite Htg, !Z.eqb_refl. reflexivity. }
  change (fetchone (filter (fun c' => (c_id c' =? c_id c)
                                      && (telegram_id c' =? u_id u)) (clients db))
          = Some c0) in Hc0.
  rewrite Hc0. cbn [fst snd].
  set (db' := update_where_id (a_id a) (set_status cancelled ts) db).
  assert (Hrows : appointments db'
                  = map (fun b => if a_id b =? a_id a
                                  then set_status cancelled ts a else b)
                      (appointments db)).
  { unfold db'. simpl. apply map_ext_in. intros b Hb.
    destruct (a_id b =? a_id a) eqn:E; [|reflexivity].
    apply Z.eqb_eq in E. rewrite (Huniq b Hb E). reflexivity. }
  split; [exact Hrows|]. split; [exact Huniq|]. split.
  - exists s, m. destruct Hs as [Hs1 Hs2]. destruct Hm as [Hm1 Hm2].
    repeat split; try assumption.
    f_equal. unfold send_cancellation_notification.
    assert (Hnotice : fetchone (select_joined (has_id (a_id a)) db')
                      = Some (set_status cancelled ts a, c, s, m)).
    { unfold select_joined. rewrite Hrows.
      clear - Ha Hjoin Huniq.
      assert (Hj' : join_csm db' (set_status cancelled ts a)
                    = map (fun r => let '(_, c, s, m) := r in
                                    (set_status cancelled ts a, c, s, m))
                        (join_csm db a)).
      { unfold join_csm. simpl.
        rewrite !flat_map_concat_map, !concat_map, !map_map.
        f_equal. apply map_ext. intro c0.
        rewrite !flat_map_concat_map, !concat_map, !map_map.
        f_equal. apply map_ext. intro s0. rewrite map_map. reflexivity. }
      induction (appointments db) as [|b l IH]; [contradiction|]. simpl.
      destruct (a_id b =? a_id a) eqn:E.
      - unfold has_id. simpl. rewrite Z.eqb_refl.
        rewrite Hj', Hjoin. reflexivity.
      - unfold has_id at 1. rewrite E. simpl.
        destruct Ha as [->|Ha]; [rewrite Z.eqb_refl in E; discriminate|].
        apply IH; [exact Ha|]. intros b' Hb'. apply Huniq. right. exact Hb'. }
    rewrite Hnotice. reflexivity.
  - unfold active_at. rewrite Hrows. apply existsb_false_filter_nil.
    apply not_true_is_false. intro Hex. apply existsb_exists in Hex.
    destruct Hex as [b' [Hb' Hp]]. apply in_map_iff in Hb'.
    destruct Hb' as [b [Hbb' Hb]].
    apply andb_true_iff in Hp. destruct Hp as [Hkey Hactive].
    destruct (a_id b =? a_id a) eqn:E; subst b'; [discriminate|].
    apply Z.eqb_neq in E. apply E. f_equal.
    apply (NoDup_map_eq _ _ slot_key (appointments db)); try assumption;
      [apply Hwf|].
    apply same_slot_true. exact Hkey.
Qed.

Lemma alice_booked_well_formed : well_formed alice_booked.
Proof.
  apply reachable_well_formed. eapply reachable_step; [apply two_clients_reachable|].
  apply step_create.
Qed.

Lemma cancel_appointment_success_witness :
  snd (cancel_appointment alice 1 10 alice_booked)
  = [Send 1627345808
       (CancellationNotice 1 "Alice" "Классический массаж" "Илья"
          (strptime d_2024_06_10 (14, 30)) by_client);
     Reply (AppointmentCancelled 1)]
  /\ active_at (strptime d_2024_06_10 (14, 30)) 1
       (fst (cancel_appointment alice 1 10 alice_booked)) = []
  /\ is_slot_available d_2024_06_10 (14, 30) 1 alice_cancelled = true.
Proof.
  assert (Ha : In {| a_id := 1; client_id := 1; service_id := 1; master_id := 1;
                     appointment_time := strptime d_2024_06_10 (14, 30);
                     status := active; created_at := 0; updated_at := 0;
                     reminder_sent_day := false; reminder_sent_hour := false;
                     reminder_sent_admin := false |}
                 (appointments alice_booked)) by (left; reflexivity).
  assert (Hc : In {| c_id := 1; telegram_id := 501; username := "alice";
                     c_name := "Alice" |} (clients alice_booked))
    by (left; reflexivity).
  destruct (cancel_appointment_success alice 10 alice_booked _ _
              alice_booked_well_formed Ha eq_refl Hc eq_refl eq_refl)
    as [_ [_ [_ Hfree]]]; try discriminate.
  split; [reflexivity|]. split; [exact Hfree | reflexivity].
Defined.

(** Cancelling twice.  A second [cancel_appointment] for the same
    appointment never changes the store again; after a cancellation that
    went through it is answered "not found or already cancelled" and sends
    nothing. *)
Theorem cancel_appointment_twice :
  forall u i ts ts' db,
    let r1 := cancel_appointment u i ts db in
    fst (cancel_appointment u i ts' (fst r1)) = fst r1
    /\ (In (Reply (AppointmentCancelled i)) (snd r1) ->
        cancel_appointment u i ts' (fst r1)
        = (fst r1, [Reply NotFoundOrAlreadyCancelled])).
Proof.
  intros u i ts ts' db r1. subst r1.
  assert (Hdone : cancel_appointment u i ts'
                    (update_where_id i (set_status cancelled ts) db)
                  = (update_where_id i (set_status cancelled ts) db,
                     [Reply NotFoundOrAlreadyCancelled])).
  { apply cancel_appointment_not_active. intros a Ha Hid. simpl in Ha.
    apply in_map_iff in Ha. destruct Ha as [b [Hb _]].
    destruct (a_id b =? i) eqn:E; subst a; [reflexivity|].
    apply Z.eqb_neq in E. contradiction. }
  assert (Hr1 : (fst (cancel_appointment u i ts db) = db
                 /\ ~ In (Reply (AppointmentCancelled i))
                        (snd (cancel_appointment u i ts db))
                 /\ forall t, cancel_appointment u i t db
                              = (db, snd (cancel_appointment u i ts db)))
                \/ fst (cancel_appointment u i ts db)
                   = update_where_id i (set_status cancelled ts) db).
  { unfold cancel_appointment.
    destruct (fetchone (select_joined _ db)) as [[[[b c] s] m]|].
    - destruct (fetchone (filter _ (clients db))); [right; reflexivity|].
      left. repeat split. intros [H|[]]. discriminate.
    - left. repeat split. intros [H|[]]. discriminate. }
  destruct Hr1 as [[Hdb [Hno Hsame]] | Hdb]; rewrite Hdb.
  - rewrite (Hsame ts'). split; [reflexivity|]. intro H. contradiction.
  - rewrite Hdone. split; [reflexivity|]. intros _. reflexivity.
Qed.

Lemma cancel_appointment_twice_witness :
  cancel_appointment alice 1 60 alice_cancelled
  = (alice_cancelled, [Reply NotFoundOrAlreadyCancelled]).
Proof.
  apply (proj2 (cancel_appointment_twice alice 1 10 60 alice_booked)).
  right. left. reflexivity.
Defined.

(** ** Clearing the history *)

(** Clearing twice.  A second [clear_history] of the same user finds nothing
    to delete: it leaves the store as the first left it and reports zero
    deleted rows (or, for a user who is no client, that the client was not
    found, the store never having changed). *)
Theorem clear_history_twice :
  forall u db,
    let r1 := clear_history u db in
    fst (clear_history u (fst r1)) = fst r1
    /\ ((client_by_telegram (u_id u) db = None
         /\ r1 = (db, [Reply ClientNotFound])
         /\ snd (clear_history u (fst r1)) = [Reply ClientNotFound])
        \/ (client_by_telegram (u_id u) db <> None
            /\ snd (clear_history u (fst r1)) = [Reply (HistoryCleared 0)])).
Proof.
  intros u db r1. subst r1.
  destruct (client_by_telegram (u_id u) db) as [c|] eqn:Hc.
  - set (kept := filter (fun a => negb (in_history_of (c_id c) a)) (appointments db)).
    assert (Hr1 : fst (clear_history u db) = with_appointments db kept)
      by (unfold clear_history; rewrite Hc; reflexivity).
    rewrite Hr1.
    assert (Hc' : client_by_telegram (u_id u) (with_appointments db kept) = Some c)
      by exact Hc.
    unfold clear_history. rewrite Hc'. cbn [fst snd].
    assert (Hnone : filter (in_history_of (c_id c))
                      (appointments (with_appointments db kept)) = []).
    { simpl. unfold kept. rewrite filter_filter_and.
      apply existsb_false_filter_nil. apply not_true_is_false. intro Hex.
      apply existsb_exists in Hex. destruct Hex as [a [_ Ha]].
      destruct (in_history_of (c_id c) a); discriminate. }
    assert (Hkept : filter (fun a => negb (in_history_of (c_id c) a))
                      (appointments (with_appointments db kept)) = kept).
    { simpl. unfold kept. rewrite filter_filter_and. apply filter_ext.
      intro a. destruct (in_history_of (c_id c) a); reflexivity. }
    rewrite Hnone, Hkept. split; [reflexivity|].
    right. split; [discriminate|reflexivity].
  - assert (Hr1 : clear_history u db = (db, [Reply ClientNotFound]))
      by (unfold clear_history; rewrite Hc; reflexivity).
    rewrite Hr1. cbn [fst snd]. rewrite Hr1. split; [reflexivity|]. left. auto.
Qed.

(** * What no operation undoes *)

Lemma later_refl : forall a, later a a.
Proof. intro a. unfold later. auto 12. Qed.

Lemma later_trans : forall a b c, later a b -> later b c -> later a c.
Proof.
  unfold later. intros a b c (?&?&?&?&?&?&?&?&?&?) (?&?&?&?&?&?&?&?&?&?).
  repeat split; try congruence; auto.
Qed.

Lemma later_set_status : forall st ts a, st <> active -> later a (set_status st ts a).
Proof.
  intros st ts a Hst. unfold later. simpl. repeat split; auto.
  intro H. contradiction.
Qed.

Lemma later_set_day : forall a, later a (set_reminder_sent_day a).
Proof. intro a. unfold later. simpl. auto 12. Qed.

Lemma later_set_hour : forall a, later a (set_reminder_sent_hour a).
Proof. intro a. unfold later. simpl. auto 12. Qed.

Lemma later_set_admin : forall a, later a (set_reminder_sent_admin a).
Proof. intro a. unfold later. simpl. auto 12. Qed.

Lemma update_later : forall i f db,
  (forall a, later a (f a)) ->
  Forall2 later (appointments db) (appointments (update_where_id i f db)).
Proof. intros i f db Hf. apply update_related; [apply later_refl | exact Hf]. Qed.

Lemma completed_not_active : completed <> active.
Proof. discriminate. Qed.

Lemma cancelled_not_active : cancelled <> active.
Proof. discriminate. Qed.

(** One cycle of the reminder loop relates every row to its later state and
    draws nothing from the counter. *)
Lemma sweep_later : forall now ts db,
  Forall2 later (appointments db) (appointments (fst (sweep now ts db)))
  /\ appointments_seq (fst (sweep now ts db)) = appointments_seq db.
Proof.
  intros now ts db. rewrite sweep_phases.
  assert (Hfold : forall (A : Type) (body : sweep_state -> A -> sweep_state),
             (forall st x,
                 Forall2 later (appointments (fst st)) (appointments (fst (body st x)))
                 /\ appointments_seq (fst (body st x)) = appointments_seq (fst st)) ->
             forall rows st,
               Forall2 later (appointments (fst st))
                 (appointments (fst (fold_left body rows st)))
               /\ appointments_seq (fst (fold_left body rows st))
                  = appointments_seq (fst st)).
  { intros A body Hbody. induction rows as [|x rows IH]; intro st; simpl.
    - split; [apply Forall2_same; apply later_refl | reflexivity].
    - destruct (Hbody st x) as [H1 S1]. destruct (IH (body st x)) as [H2 S2].
      split; [|congruence].
      eapply Forall2_compose; [exact later_trans | exact H1 | exact H2]. }
  assert (H1 : forall st,
             Forall2 later (appointments (fst st))
               (appointments (fst (auto_complete now ts st)))
             /\ appointments_seq (fst (auto_complete now ts st))
                = appointments_seq (fst st)).
  { intro st. unfold auto_complete. apply Hfold. intros [d tr] [i tg]. simpl.
    split; [|reflexivity].
    apply (update_later i _ d). intro a. apply later_set_status. discriminate. }
  assert (H2 : forall st,
             Forall2 later (appointments (fst st))
               (appointments (fst (remind_day now st)))
             /\ appointments_seq (fst (remind_day now st))
                = appointments_seq (fst st)).
  { intro st. unfold remind_day. apply Hfold. intros [d tr] [[[a c] s] m]. simpl.
    split; [|reflexivity]. apply (update_later (a_id a) _ d). apply later_set_day. }
  assert (H3 : forall st,
             Forall2 later (appointments (fst st))
               (appointments (fst (remind_hour now st)))
             /\ appointments_seq (fst (remind_hour now st))
                = appointments_seq (fst st)).
  { intro st. unfold remind_hour. apply Hfold. intros [d tr] [[[a c] s] m]. simpl.
    split; [|reflexivity]. apply (update_later (a_id a) _ d). apply later_set_hour. }
  assert (H4 : forall st,
             Forall2 later (appointments (fst st))
               (appointments (fst (remind_admin now st)))
             /\ appointments_seq (fst (remind_admin now st))
                = appointments_seq (fst st)).
  { intro st. unfold remind_admin. apply Hfold. intros [d tr] [[[a c] s] m]. simpl.
    split; [|reflexivity]. apply (update_later (a_id a) _ d). apply later_set_admin. }
  set (st1 := auto_complete now ts (db, [])).
  destruct (H1 (db, [])) as [R1 S1]. fold st1 in R1, S1.
  destruct (H2 st1) as [R2 S2]. destruct (H3 (remind_day now st1)) as [R3 S3].
  destruct (H4 (remind_hour now (remind_day now st1))) as [R4 S4].
  cbn [fst] in *. split; [|congruence].
  eapply Forall2_compose; [exact later_trans | | exact R4].
  eapply Forall2_compose; [exact later_trans | | exact R3].
  eapply Forall2_compose; [exact later_trans | exact R1 | exact R2].
Qed.

Lemma next_rowid_above : forall seq ids, seq < next_rowid seq ids.
Proof. intros seq ids. unfold next_rowid. lia. Qed.

(** What one atomic change does to the appointments: every row of the new
    store is the later state of a row of the old one, or a new active row
    with unset flags whose id is the counter's next value. *)
Lemma step_later : forall db db',
  step db db' ->
  appointments_seq db <= appointments_seq db'
  /\ forall a', In a' (appointments db') ->
       (exists a, In a (appointments db) /\ later a a')
       \/ (appointments_seq db < a_id a' /\ a_id a' = appointments_seq db'
           /\ status a' = active /\ reminder_sent_day a' = false
           /\ reminder_sent_hour a' = false /\ reminder_sent_admin a' = false).
Proof.
  assert (Hsame : forall db db' : database,
             appointments db' = appointments db ->
             forall a', In a' (appointments db') ->
               exists a, In a (appointments db) /\ later a a').
  { intros db db' H a' Ha'. rewrite H in Ha'. exists a'. split; [assumption|].
    apply later_refl. }
  assert (Hupd : forall i f db,
             (forall a, later a (f a)) ->
             forall a', In a' (appointments (update_where_id i f db)) ->
               exists a, In a (appointments db) /\ later a a').
  { intros i f db Hf a' Ha'.
    exact (Forall2_In_r _ _ _ _ _ (update_later i f db Hf) Ha'). }
  intros db db' Hstep. destruct Hstep.
  - destruct (insert_client_keeps_appointments _ _ _ H) as (Ha & Hs & _).
    split; [lia|]. intros a' Ha'. left. eapply Hsame; eassumption.
  - unfold add_admin. destruct (existsb _ _); (split; [simpl; lia|]);
      intros a' Ha'; left; exists a'; (split; [assumption | apply later_refl]).
  - destruct (create_appointment_rows u s m d t ts db)
      as [[Hrows Hseq] | [_ [row [Hrows [_ [_ [Hst [Hid [Hseq [Hd [Hh Had]]]]]]]]]]].
    + split; [lia|]. intros a' Ha'. left. eapply Hsame; eassumption.
    + pose proof (next_rowid_above (appointments_seq db) (map a_id (appointments db))).
      split; [lia|]. intros a' Ha'. rewrite Hrows in Ha'.
      apply in_app_or in Ha'. destruct Ha' as [Ha'|[<-|[]]].
      * left. exists a'. split; [assumption | apply later_refl].
      * right. repeat split; try assumption; lia.
  - unfold insert_appointment in H0. destruct (existsb _ _); [discriminate|].
    injection H0 as <- <-. simpl.
    pose proof (next_rowid_above (appointments_seq db) (map a_id (appointments db))).
    split; [lia|]. intros a' Ha'.
    apply in_app_or in Ha'. destruct Ha' as [Ha'|[<-|[]]].
    + left. exists a'. split; [assumption | apply later_refl].
    + right. simpl. repeat split; lia.
  - unfold cancel_appointment.
    destruct (fetchone (select_joined _ db)) as [[[[b c] s] m]|];
      [destruct (fetchone (filter _ (clients db)))|]; cbn [fst];
      (split; [simpl; lia|]); intros a' Ha'; left.
    + apply (Hupd i (set_status cancelled ts) db); [|exact Ha'].
      intro a. apply later_set_status. discriminate.
    + exists a'. split; [assumption | apply later_refl].
    + exists a'. split; [assumption | apply later_refl].
  - cbn [fst admin_complete_appointment]. split; [simpl; lia|].
    intros a' Ha'. left. apply (Hupd i (set_status completed ts) db); [|exact Ha'].
    intro a. apply later_set_status. discriminate.
  - cbn [fst admin_cancel_appointment]. split; [simpl; lia|].
    intros a' Ha'. left. apply (Hupd i (set_status cancelled ts) db); [|exact Ha'].
    intro a. apply later_set_status. discriminate.
  - unfold clear_history. destruct (client_by_telegram _ _); cbn [fst];
      (split; [simpl; lia|]); intros a' Ha'; left; exists a';
      (split; [|apply later_refl]); [|assumption].
    simpl in Ha'. apply filter_In in Ha'. tauto.
  - split; [simpl; lia|]. intros a' Ha'. left.
    apply (Hupd i set_reminder_sent_day db); [apply later_set_day | exact Ha'].
  - split; [simpl; lia|]. intros a' Ha'. left.
    apply (Hupd i set_reminder_sent_hour db); [apply later_set_hour | exact Ha'].
  - split; [simpl; lia|]. intros a' Ha'. left.
    apply (Hupd i set_reminder_sent_admin db); [apply later_set_admin | exact Ha'].
  - destruct (sweep_later now ts db) as [Hrel Hseq]. split; [lia|].
    intros a' Ha'. left. exact (Forall2_In_r _ _ _ _ _ Hrel Ha').
Qed.

Lemma step_ids_in_sequence : forall db db',
  step db db' -> ids_in_sequence db -> ids_in_sequence db'.
Proof.
  intros db db' Hstep [H0 Hids]. destruct (step_later db db' Hstep) as [Hseq Hrows].
  split; [lia|]. intros a' Ha'.
  destruct (Hrows a' Ha') as [[a [Ha Hl]] | [Hlt [Heq _]]].
  - destruct Hl as [Hid _]. rewrite Hid. specialize (Hids a Ha). lia.
  - lia.
Qed.

Lemma reachable_ids_in_sequence : forall db, reachable db -> ids_in_sequence db.
Proof.
  induction 1 as [|db db' _ IH Hstep].
  - split; simpl; [lia | intros a []].
  - eapply step_ids_in_sequence; eassumption.
Qed.

Lemma steps_reachable : forall db db', steps db db' -> reachable db -> reachable db'.
Proof.
  induction 1 as [|db db' db'' _ IH Hstep]; intro Hr; [assumption|].
  eapply reachable_step; [apply IH; exact Hr | exact Hstep].
Qed.

Lemma steps_seq : forall db db', steps db db' -> appointments_seq db <= appointments_seq db'.
Proof.
  induction 1 as [|db db' db'' _ IH Hstep]; [lia|].
  destruct (step_later _ _ Hstep) as [H _]. lia.
Qed.

(** Appointment ids are never given twice.  In every reachable store the
    ids lie between 1 and the counter of the table; and whatever happens
    afterwards, deletions by [clear_history] included, an [INSERT] made in
    any later store gives an id above every id the store holds now. *)
Theorem appointment_ids_never_reused :
  forall db,
    reachable db ->
    ids_in_sequence db
    /\ forall db' a c sv m t ts db'' i,
         steps db db' -> In a (appointments db) ->
         insert_appointment c sv m t ts db' = Some (db'', i) ->
         a_id a < i.
Proof.
  intros db Hr. pose proof (reachable_ids_in_sequence db Hr) as [H0 Hids].
  split; [split; assumption|].
  intros db' a c sv m t ts db'' i Hsteps Ha Hins.
  pose proof (steps_seq _ _ Hsteps) as Hseq. specialize (Hids a Ha).
  unfold insert_appointment in Hins. destruct (existsb _ _); [discriminate|].
  injection Hins as _ <-.
  pose proof (next_rowid_above (appointments_seq db') (map a_id (appointments db'))).
  lia.
Qed.

(** The history only moves forward.  Between a reachable store and any
    later one, a row that keeps its id keeps its client, service, master,
    time and creation stamp; it is active only if it was active before; and
    none of its reminder flags is lowered. *)
Theorem history_only_moves_forward :
  forall db db' a a',
    reachable db -> steps db db' ->
    In a (appointments db) -> In a' (appointments db') ->
    a_id a' = a_id a ->
    later a a'.
Proof.
  intros db db' a a' Hr Hsteps Ha. revert a'.
  induction Hsteps as [|db db1 db2 Hsteps IH Hstep]; intros a' Ha' Hid.
  - assert (a' = a).
    { apply (NoDup_map_eq _ _ a_id (appointments db)); try assumption.
      apply reachable_well_formed. exact Hr. }
    subst a'. apply later_refl.
  - destruct (step_later _ _ Hstep) as [_ Hrows].
    destruct (Hrows a' Ha') as [[a1 [Ha1 Hl]] | [Hlt _]].
    + eapply later_trans; [|exact Hl]. apply (IH Hr Ha a1 Ha1).
      destruct Hl as [Hid1 _]. congruence.
    + exfalso. pose proof (steps_seq _ _ Hsteps) as Hseq.
      destruct (reachable_ids_in_sequence db Hr) as [_ Hids].
      specialize (Hids a Ha). lia.
Qed.

(** Appointment 1 is cancelled and cleared from the history; the next
    booking is appointment 2, not 1 again. *)
Lemma appointment_ids_never_reused_witness :
  appointments (fst (clear_history alice alice_cancelled)) = []
  /\ match insert_appointment 1 2 1 (strptime d_2024_06_10 (14, 30)) 40
            (fst (clear_history alice alice_cancelled)) with
     | Some (_, i) => 1 < i /\ i = 2
     | None => False
     end.
Proof.
  split; [reflexivity|].
  destruct (insert_appointment 1 2 1 (strptime d_2024_06_10 (14, 30)) 40
              (fst (clear_history alice alice_cancelled)))
    as [[db'' i]|] eqn:Hins; [|vm_compute in Hins; discriminate].
  split.
  - apply (proj2 (appointment_ids_never_reused alice_cancelled
                    alice_cancelled_reachable)
             (fst (clear_history alice alice_cancelled))
             (set_status cancelled 10 (sample_row 1 1 1
                                         (strptime d_2024_06_10 (14, 30)) active))
             1 2 1 (strptime d_2024_06_10 (14, 30)) 40 db'' i).
    + eapply steps_step; [apply steps_refl | apply step_clear].
    + left. reflexivity.
    + exact Hins.
  - vm_compute in Hins. congruence.
Defined.

Lemma history_only_moves_forward_witness :
  later (sample_row 1 1 1 (strptime d_2024_06_10 (14, 30)) active)
        (set_status completed 20
           (set_status cancelled 10
              (sample_row 1 1 1 (strptime d_2024_06_10 (14, 30)) active))).
Proof.
  apply (history_only_moves_forward alice_booked
           (fst (admin_complete_appointment 1 20 alice_cancelled))).
  - eapply reachable_step; [apply two_clients_reachable|].
    apply (step_create two_clients alice 1 1 d_2024_06_10 (14, 30) 0).
  - eapply steps_step; [eapply steps_step; [apply steps_refl|]|].
    + apply (step_cancel alice_booked alice 1 10).
    + apply (step_admin_complete alice_cancelled 1 20).
  - left. reflexivity.
  - left. reflexivity.
  - reflexivity.
Defined.

(** * The hour-before and the operators' reminders *)

Lemma fold_later :
  forall (A : Type) (body : sweep_state -> A -> sweep_state),
    (forall st x, Forall2 later (appointments (fst st)) (appointments (fst (body st x)))
                  /\ same_tables (fst st) (fst (body st x))) ->
    forall rows st,
      Forall2 later (appointments (fst st)) (appointments (fst (fold_left body rows st)))
      /\ same_tables (fst st) (fst (fold_left body rows st)).
Proof.
  intros A body Hbody. apply fold_related; [apply later_refl | apply later_trans | exact Hbody].
Qed.

Lemma auto_complete_later : forall now ts st,
  Forall2 later (appointments (fst st)) (appointments (fst (auto_complete now ts st)))
  /\ same_tables (fst st) (fst (auto_complete now ts st)).
Proof.
  intros now ts st. unfold auto_complete. apply fold_later.
  intros [d tr] [i tg]. simpl. split; [|repeat split].
  apply (update_later i _ d). intro a. apply later_set_status. discriminate.
Qed.

Lemma remind_day_later : forall now st,
  Forall2 later (appointments (fst st)) (appointments (fst (remind_day now st)))
  /\ same_tables (fst st) (fst (remind_day now st)).
Proof.
  intros now st. unfold remind_day. apply fold_later.
  intros [d tr] [[[a c] s] m]. simpl. split; [|repeat split].
  apply (update_later (a_id a) _ d). apply later_set_day.
Qed.

Lemma remind_hour_later : forall now st,
  Forall2 later (appointments (fst st)) (appointments (fst (remind_hour now st)))
  /\ same_tables (fst st) (fst (remind_hour now st)).
Proof.
  intros now st. unfold remind_hour. apply fold_later.
  intros [d tr] [[[a c] s] m]. simpl. split; [|repeat split].
  apply (update_later (a_id a) _ d). apply later_set_hour.
Qed.

Lemma remind_admin_later : forall now st,
  Forall2 later (appointments (fst st)) (appointments (fst (remind_admin now st)))
  /\ same_tables (fst st) (fst (remind_admin now st)).
Proof.
  intros now st. unfold remind_admin. apply fold_later.
  intros [d tr] [[[a c] s] m]. simpl. split; [|repeat split].
  apply (update_later (a_id a) _ d). apply later_set_admin.
Qed.

Lemma later_compose : forall l1 l2 l3 : list appointment,
  Forall2 later l1 l2 -> Forall2 later l2 l3 -> Forall2 later l1 l3.
Proof. intros l1 l2 l3. apply Forall2_compose. exact later_trans. Qed.

Section ReminderLoop.

(** One reminder loop of the cycle: its flag, the [UPDATE] that raises it,
    and the window of its [WHERE] clause. *)
Variable flag : appointment -> bool.
Variable raise : appointment -> appointment.
Variable body : sweep_state -> joined -> sweep_state.
Variables lo hi : datetime.

Hypothesis body_store : forall st r,
  fst (body st r) = update_where_id (a_id (row_of r)) raise (fst st).
Hypothesis raise_later : forall a, later a (raise a).
Hypothesis raise_sets : forall a, flag (raise a) = true.
Hypothesis flag_kept : forall a a', later a a' -> flag a = true -> flag a' = true.

Local Abbreviation loop st := (fold_left body (select_joined (due lo hi flag) (fst st)) st).
Local Abbreviation ids_of rows := (map (fun r : joined => a_id (row_of r)) rows).

Lemma loop_raises : forall rows st,
  Forall2 (fun a a' => later a a' /\ (In (a_id a) (ids_of rows) -> flag a' = true))
          (appointments (fst st))
          (appointments (fst (fold_left body rows st))).
Proof.
  induction rows as [|r rows IH]; intro st; simpl.
  - apply Forall2_same. intro a. split; [apply later_refl | intros []].
  - specialize (IH (body st r)). rewrite body_store in IH at 1.
    simpl appointments in IH at 1. apply Forall2_map_l_inv in IH.
    eapply Forall2_impl; [|exact IH]. cbv beta.
    intros a a' [Hl Hset]. split.
    + eapply later_trans; [|exact Hl].
      destruct (a_id a =? a_id (row_of r)); [apply raise_later | apply later_refl].
    + intros [Hid|Hin].
      * apply (flag_kept _ _ Hl). rewrite Hid, Z.eqb_refl. apply raise_sets.
      * apply Hset.
        destruct (a_id a =? a_id (row_of r));
          [destruct (raise_later a) as [-> _]|]; exact Hin.
Qed.

Lemma loop_tables : forall rows st, same_tables (fst st) (fst (fold_left body rows st)).
Proof.
  induction rows as [|r rows IH]; intro st; simpl; [apply same_tables_refl|].
  eapply same_tables_trans; [|apply IH]. rewrite body_store. apply same_tables_update.
Qed.

Lemma due_later_back : forall a a',
  later a a' -> due lo hi flag a' = true -> due lo hi flag a = true.
Proof.
  intros a a' Hl H. pose proof (flag_kept a a' Hl) as Hf.
  destruct Hl as (_&_&_&_&Ht&_&Hs&_). unfold due in *. rewrite Ht in H.
  apply andb_true_iff in H. destruct H as [H Hflag].
  apply andb_true_iff in H. destruct H as [Hwin Hact].
  rewrite Hwin. simpl.
  apply is_active_true in Hact. apply negb_true_iff in Hflag.
  assert (Ha : is_active a = true) by (apply is_active_true; auto).
  rewrite Ha. simpl.
  destruct (flag a); [|reflexivity]. rewrite Hf in Hflag by reflexivity. discriminate.
Qed.

Lemma due_flag_unset : forall a, due lo hi flag a = true -> flag a = false.
Proof.
  intros a H. unfold due in H. apply andb_true_iff in H. destruct H as [_ H].
  apply negb_true_iff in H. exact H.
Qed.

(** After the loop, whatever else raises flags or completes rows, every row
    the loop fetched has its flag set ... *)
Lemma loop_flag_set : forall st final a',
  Forall2 later (appointments (fst (loop st))) (appointments final) ->
  In a' (appointments final) ->
  In (a_id a') (ids_of (select_joined (due lo hi flag) (fst st))) ->
  flag a' = true.
Proof.
  intros st final a' Hfin Ha' Hsent.
  destruct (Forall2_In_r _ _ _ _ _ Hfin Ha') as [a2 [Ha2 Hl2]].
  pose proof (loop_raises (select_joined (due lo hi flag) (fst st)) st) as Hloop.
  destruct (Forall2_In_r _ _ _ _ _ Hloop Ha2) as [a1 [Ha1 [Hl1 Hset]]].
  apply (flag_kept _ _ Hl2). apply Hset.
  destruct Hl1 as [Hid1 _]. destruct Hl2 as [Hid2 _]. rewrite <- Hid1, <- Hid2.
  exact Hsent.
Qed.

(** ... and no row still due in the window has a joined row. *)
Lemma loop_leaves_none_due : forall st final a',
  Forall2 later (appointments (fst (loop st))) (appointments final) ->
  same_tables (fst (loop st)) final ->
  In a' (appointments final) -> due lo hi flag a' = true ->
  join_csm final a' = [].
Proof.
  intros st final a' Hfin Htab Ha' Hdue.
  destruct (Forall2_In_r _ _ _ _ _ Hfin Ha') as [a2 [Ha2 Hl2]].
  pose proof (loop_raises (select_joined (due lo hi flag) (fst st)) st) as Hloop.
  destruct (Forall2_In_r _ _ _ _ _ Hloop Ha2) as [a1 [Ha1 [Hl1 Hset]]].
  pose proof (later_trans _ _ _ Hl1 Hl2) as Hl.
  pose proof (due_later_back _ _ Hl Hdue) as Hdue1.
  destruct (join_csm (fst st) a1) as [|r rest] eqn:Hjoin.
  - destruct Hl as (_&Hc&Hs&Hm&_).
    apply (join_csm_nil_transfer (fst st) final a1 a'); try assumption.
    eapply same_tables_trans; [apply loop_tables | exact Htab].
  - exfalso.
    assert (Hrj : In r (join_csm (fst st) a1)) by (rewrite Hjoin; left; reflexivity).
    pose proof (join_csm_row _ _ _ Hrj) as Hrow.
    assert (Hsel : In r (select_joined (due lo hi flag) (fst st))).
    { apply in_select_joined. rewrite Hrow. auto. }
    assert (Hflag2 : flag a2 = true).
    { apply Hset. apply in_map_iff. exists r. rewrite Hrow. auto. }
    apply due_flag_unset in Hdue.
    rewrite (flag_kept _ _ Hl2 Hflag2) in Hdue. discriminate.
Qed.

(** In any later state of such a store the same [SELECT] fetches nothing. *)
Lemma nothing_due_later : forall final db2,
  (forall a', In a' (appointments final) -> due lo hi flag a' = true ->
              join_csm final a' = []) ->
  Forall2 later (appointments final) (appointments db2) ->
  same_tables final db2 ->
  select_joined (due lo hi flag) db2 = [].
Proof.
  intros final db2 Hnone Hl Htab. unfold select_joined. apply flat_map_nil.
  intros a2 Ha2. destruct (due lo hi flag a2) eqn:Hdue; [|reflexivity].
  destruct (Forall2_In_r _ _ _ _ _ Hl Ha2) as [a' [Ha' Hla]].
  pose proof (Hnone a' Ha' (due_later_back _ _ Hla Hdue)) as Hnil.
  destruct Hla as (_&Hc&Hs&Hm&_).
  exact (join_csm_nil_transfer final db2 a' a2 Htab Hc Hs Hm Hnil).
Qed.

(** A row whose flag is set is fetched by no later [SELECT] of the loop,
    whatever its window. *)
Lemma flagged_not_fetched : forall final db2 i lo' hi',
  (forall a', In a' (appointments final) -> a_id a' = i -> flag a' = true) ->
  Forall2 later (appointments final) (appointments db2) ->
  ~ In i (ids_of (select_joined (due lo' hi' flag) db2)).
Proof.
  intros final db2 i lo' hi' Hset Hl Hin.
  apply in_map_iff in Hin. destruct Hin as [r [Hid Hsel]].
  apply in_select_joined in Hsel. destruct Hsel as [Hrow [Hdue _]].
  destruct (Forall2_In_r _ _ _ _ _ Hl Hrow) as [a' [Ha' Hla]].
  unfold due in Hdue. apply andb_true_iff in Hdue. destruct Hdue as [_ Hdue].
  apply negb_true_iff in Hdue.
  rewrite (flag_kept _ _ Hla) in Hdue; [discriminate|].
  apply Hset; [exact Ha'|]. destruct Hla as [Hida _]. congruence.
Qed.

End ReminderLoop.

Lemma hour_reminders_app : forall t1 t2,
  hour_reminders (t1 ++ t2) = hour_reminders t1 ++ hour_reminders t2.
Proof.
  induction t1 as [|e t1 IH]; intro t2; simpl; [reflexivity|].
  destruct e as [chat msg| |]; try apply IH.
  destruct msg; simpl; rewrite ?IH; reflexivity.
Qed.

Lemma admin_reminders_app : forall t1 t2,
  admin_reminders (t1 ++ t2) = admin_reminders t1 ++ admin_reminders t2.
Proof.
  induction t1 as [|e t1 IH]; intro t2; simpl; [reflexivity|].
  destruct e as [chat msg| |]; try apply IH.
  destruct msg; simpl; rewrite ?IH; reflexivity.
Qed.

Lemma fold_extract :
  forall (ex : list event -> list Z) (A : Type)
         (body : sweep_state -> A -> sweep_state) (sent : A -> list Z),
    (forall st x, ex (snd (body st x)) = ex (snd st) ++ sent x) ->
    forall rows st,
      ex (snd (fold_left body rows st)) = ex (snd st) ++ flat_map sent rows.
Proof.
  intros ex A body sent Hbody. induction rows as [|x rows IH]; intro st; simpl.
  - rewrite app_nil_r. reflexivity.
  - rewrite IH, Hbody, <- app_assoc. reflexivity.
Qed.

Lemma ask_for_review_no_reminder : forall db i,
  hour_reminders (ask_for_review db i) = []
  /\ admin_reminders (ask_for_review db i) = [].
Proof.
  intros db i. unfold ask_for_review.
  destruct (fetchone _) as [[[[a c] s] m]|]; split; reflexivity.
Qed.

Lemma hour_reminders_admin_notification : forall db msg,
  (forall i sn mn t, msg <> HourReminder i sn mn t) ->
  hour_reminders (send_admin_notification db msg) = [].
Proof.
  intros db msg Hmsg. unfold send_admin_notification.
  induction (admins db) as [|x l IH]; simpl; [reflexivity|].
  destruct msg; try exact IH. exfalso. eapply Hmsg. reflexivity.
Qed.

(** The hour-before reminders of a cycle are those of its third phase. *)
Lemma sweep_hour_reminders : forall now ts db,
  hour_reminders (snd (sweep now ts db))
  = map (fun r => a_id (row_of r))
        (select_joined (due_hour now)
           (fst (remind_day now (auto_complete now ts (db, []))))).
Proof.
  intros now ts db. unfold sweep. cbn [snd fst].
  rewrite hour_reminders_app. simpl. rewrite app_nil_r.
  unfold remind_admin.
  rewrite (fold_extract hour_reminders _ remind_admin_one (fun _ => [])).
  2: { intros [d tr] [[[a c] s] m]. simpl.
       rewrite hour_reminders_app, hour_reminders_admin_notification;
         [reflexivity | intros; discriminate]. }
  rewrite flat_map_nil, app_nil_r by reflexivity.
  unfold remind_hour at 1.
  rewrite (fold_extract hour_reminders _ remind_hour_one (fun r => [a_id (row_of r)])).
  2: { intros [d tr] [[[a c] s] m]. simpl. rewrite hour_reminders_app. reflexivity. }
  rewrite flat_map_singleton.
  unfold remind_day at 1.
  rewrite (fold_extract hour_reminders _ remind_day_one (fun _ => [])).
  2: { intros [d tr] [[[a c] s] m]. simpl. rewrite hour_reminders_app.
       reflexivity. }
  rewrite flat_map_nil, app_nil_r by reflexivity.
  unfold auto_complete at 1.
  rewrite (fold_extract hour_reminders _ (complete_one ts) (fun _ => [])).
  2: { intros [d tr] [i tg]. simpl.
       rewrite ask_for_review_without_context_nil, hour_reminders_app.
       reflexivity. }
  rewrite flat_map_nil by reflexivity. reflexivity.
Qed.

Lemma remind_hour_one_store : forall st r,
  fst (remind_hour_one st r)
  = update_where_id (a_id (row_of r)) set_reminder_sent_hour (fst st).
Proof. intros [d tr] [[[a c] s] m]. reflexivity. Qed.

Lemma remind_admin_one_store : forall st r,
  fst (remind_admin_one st r)
  = update_where_id (a_id (row_of r)) set_reminder_sent_admin (fst st).
Proof. intros [d tr] [[[a c] s] m]. reflexivity. Qed.

Lemma later_keeps_hour : forall a a',
  later a a' -> reminder_sent_hour a = true -> reminder_sent_hour a' = true.
Proof. intros a a' (_&_&_&_&_&_&_&_&H&_). exact H. Qed.

Lemma later_keeps_admin : forall a a',
  later a a' -> reminder_sent_admin a = true -> reminder_sent_admin a' = true.
Proof. intros a a' (_&_&_&_&_&_&_&_&_&H). exact H. Qed.

(** The store before the third phase of a cycle, as a later state of the
    store the cycle started from. *)
Lemma before_hour_phase : forall now ts db,
  Forall2 later (appointments db)
    (appointments (fst (remind_day now (auto_complete now ts (db, [])))))
  /\ same_tables db (fst (remind_day now (auto_complete now ts (db, [])))).
Proof.
  intros now ts db.
  destruct (auto_complete_later now ts (db, [])) as [H1 T1].
  destruct (remind_day_later now (auto_complete now ts (db, []))) as [H2 T2].
  cbn [fst] in *. split; [eapply later_compose | eapply same_tables_trans]; eassumption.
Qed.

Lemma before_admin_phase : forall now ts db,
  Forall2 later (appointments db)
    (appointments
       (fst (remind_hour now (remind_day now (auto_complete now ts (db, []))))))
  /\ same_tables db
       (fst (remind_hour now (remind_day now (auto_complete now ts (db, []))))).
Proof.
  intros now ts db. destruct (before_hour_phase now ts db) as [H1 T1].
  destruct (remind_hour_later now (remind_day now (auto_complete now ts (db, []))))
    as [H2 T2].
  split; [eapply later_compose | eapply same_tables_trans]; eassumption.
Qed.

(** The hour-before reminder is sent once.  Every row a cycle sent an
    hour-before reminder for has its hour flag set afterwards; no later
    cycle, whenever it runs, sends one for such a row again; and a second
    cycle for the same [now] sends no hour-before reminder at all. *)
Theorem hour_reminder_sent_once :
  forall db now ts,
    let first := sweep now ts db in
    (forall a', In a' (appointments (fst first)) ->
                In (a_id a') (hour_reminders (snd first)) ->
                reminder_sent_hour a' = true)
    /\ (forall now' ts' i,
          In i (hour_reminders (snd first)) ->
          ~ In i (hour_reminders (snd (sweep now' ts' (fst first)))))
    /\ (forall ts',
          hour_reminders (snd (sweep now ts' (fst first))) = []
          /\ hour_reminders (snd (schedule_reminders [(now, ts); (now, ts')] db))
             = hour_reminders (snd (schedule_reminders [(now, ts)] db))).
Proof.
  intros db now ts first. subst first.
  set (st2 := remind_day now (auto_complete now ts (db, []))).
  assert (Hfinal : fst (sweep now ts db) = fst (remind_admin now (remind_hour now st2)))
    by reflexivity.
  destruct (remind_admin_later now (remind_hour now st2)) as [Hadm Tadm].
  assert (Hset : forall a', In a' (appointments (fst (sweep now ts db))) ->
                   In (a_id a') (hour_reminders (snd (sweep now ts db))) ->
                   reminder_sent_hour a' = true).
  { intros a' Ha' Hsent. rewrite sweep_hour_reminders in Hsent. fold st2 in Hsent.
    rewrite Hfinal in Ha'.
    apply (loop_flag_set reminder_sent_hour set_reminder_sent_hour remind_hour_one
             (hour_start now) (hour_end now) remind_hour_one_store later_set_hour
             (fun _ => eq_refl) later_keeps_hour st2 _ a' Hadm Ha' Hsent). }
  assert (Hnone : forall ts',
             hour_reminders (snd (sweep now ts' (fst (sweep now ts db)))) = []).
  { intro ts'. rewrite sweep_hour_reminders.
    destruct (before_hour_phase now ts' (fst (sweep now ts db))) as [Hl Ht].
    rewrite (nothing_due_later reminder_sent_hour (hour_start now) (hour_end now)
               later_keeps_hour (fst (sweep now ts db)) _); [reflexivity| |exact Hl|exact Ht].
    intros a' Ha' Hdue. rewrite Hfinal in *.
    exact (loop_leaves_none_due reminder_sent_hour set_reminder_sent_hour
             remind_hour_one (hour_start now) (hour_end now) remind_hour_one_store
             later_set_hour (fun _ => eq_refl) later_keeps_hour st2 _ a'
             Hadm Tadm Ha' Hdue). }
  split; [exact Hset|]. split.
  - intros now' ts' i Hsent Hagain. rewrite sweep_hour_reminders in Hagain.
    destruct (before_hour_phase now' ts' (fst (sweep now ts db))) as [Hl _].
    revert Hagain.
    apply (flagged_not_fetched reminder_sent_hour later_keeps_hour
             (fst (sweep now ts db)) _ i (hour_start now') (hour_end now')); [|exact Hl].
    intros a' Ha' Hid. apply Hset; [exact Ha'|]. rewrite Hid. exact Hsent.
  - intro ts'. split; [apply Hnone|].
    unfold schedule_reminders. cbn [fold_left fst snd app].
    rewrite hour_reminders_app, Hnone. apply app_nil_r.
Qed.

Lemma hour_reminder_sent_once_witness :
  hour_reminders (snd (sweep now_2024_06_02_10h 7 (with_rows soon_rows))) = [1]
  /\ map reminder_sent_hour
       (appointments (fst (sweep now_2024_06_02_10h 7 (with_rows soon_rows))))
     = [true; false]
  /\ ~ In 1 (hour_reminders
               (snd (sweep (now_2024_06_02_10h + 60) 67
                       (fst (sweep now_2024_06_02_10h 7 (with_rows soon_rows)))))).
Proof.
  split; [reflexivity|]. split; [reflexivity|].
  apply (proj1 (proj2 (hour_reminder_sent_once (with_rows soon_rows)
                         now_2024_06_02_10h 7))).
  left. reflexivity.
Defined.

Lemma admin_reminders_notification : forall db i cn sn mn t,
  admin_reminders (send_admin_notification db (AdminReminder i cn sn mn t))
  = map (fun _ => i) (admins db).
Proof.
  intros db i cn sn mn t. unfold send_admin_notification.
  induction (admins db) as [|x l IH]; simpl; [reflexivity|]. rewrite IH. reflexivity.
Qed.

Lemma admin_phase_trace : forall rows st,
  admin_reminders (snd (fold_left remind_admin_one rows st))
  = admin_reminders (snd st)
    ++ flat_map (fun r => map (fun _ => a_id (row_of r)) (admins (fst st))) rows.
Proof.
  induction rows as [|[[[a c] s] m] rows IH]; intros [d tr]; simpl.
  - rewrite app_nil_r. reflexivity.
  - rewrite IH. simpl. rewrite admin_reminders_app, admin_reminders_notification,
      <- app_assoc. reflexivity.
Qed.

(** The operators' reminders of a cycle are those of its last phase: one per
    fetched row and operator. *)
Lemma sweep_admin_reminders : forall now ts db,
  admin_reminders (snd (sweep now ts db))
  = flat_map (fun r => map (fun _ => a_id (row_of r)) (admins db))
      (select_joined (due_admin now)
         (fst (remind_hour now (remind_day now (auto_complete now ts (db, [])))))).
Proof.
  intros now ts db. unfold sweep. cbn [snd fst].
  rewrite admin_reminders_app. simpl. rewrite app_nil_r.
  unfold remind_admin at 1. rewrite admin_phase_trace.
  destruct (before_admin_phase now ts db) as [_ (_&_&_&Hadmins)]. rewrite Hadmins.
  unfold remind_hour at 1.
  rewrite (fold_extract admin_reminders _ remind_hour_one (fun _ => [])).
  2: { intros [d tr] [[[a c] s] m]. simpl. rewrite admin_reminders_app. reflexivity. }
  rewrite flat_map_nil, app_nil_r by reflexivity.
  unfold remind_day at 1.
  rewrite (fold_extract admin_reminders _ remind_day_one (fun _ => [])).
  2: { intros [d tr] [[[a c] s] m]. simpl. rewrite admin_reminders_app. reflexivity. }
  rewrite flat_map_nil, app_nil_r by reflexivity.
  unfold auto_complete at 1.
  rewrite (fold_extract admin_reminders _ (complete_one ts) (fun _ => [])).
  2: { intros [d tr] [i tg]. simpl.
       rewrite ask_for_review_without_context_nil, admin_reminders_app.
       reflexivity. }
  rewrite flat_map_nil by reflexivity. reflexivity.
Qed.

Lemma in_admin_reminders : forall (admins0 : list Z) (rows : list joined) (i : Z),
  In i (flat_map (fun r => map (fun _ => a_id (row_of r)) admins0) rows) ->
  In i (map (fun r => a_id (row_of r)) rows).
Proof.
  intros admins0 rows i H. apply in_flat_map in H. destruct H as [r [Hr Hi]].
  apply in_map_iff in Hi. destruct Hi as [_ [<- _]]. apply in_map_iff. eauto.
Qed.

(** The operators' ten-minute reminder is sent once.  Every row a cycle told
    the operators about has its flag set afterwards; no later cycle tells
    them about such a row again; and a second cycle for the same [now]
    sends no such reminder at all. *)
Theorem admin_reminder_sent_once :
  forall db now ts,
    let first := sweep now ts db in
    (forall a', In a' (appointments (fst first)) ->
                In (a_id a') (admin_reminders (snd first)) ->
                reminder_sent_admin a' = true)
    /\ (forall now' ts' i,
          In i (admin_reminders (snd first)) ->
          ~ In i (admin_reminders (snd (sweep now' ts' (fst first)))))
    /\ (forall ts',
          admin_reminders (snd (sweep now ts' (fst first))) = []
          /\ admin_reminders (snd (schedule_reminders [(now, ts); (now, ts')] db))
             = admin_reminders (snd (schedule_reminders [(now, ts)] db))).
Proof.
  intros db now ts first. subst first.
  set (st3 := remind_hour now (remind_day now (auto_complete now ts (db, [])))).
  assert (Hfinal : fst (sweep now ts db) = fst (remind_admin now st3)) by reflexivity.
  assert (Hsame : Forall2 later (appointments (fst (remind_admin now st3)))
                    (appointments (fst (remind_admin now st3))))
    by (apply Forall2_same; apply later_refl).
  assert (Hset : forall a', In a' (appointments (fst (sweep now ts db))) ->
                   In (a_id a') (admin_reminders (snd (sweep now ts db))) ->
                   reminder_sent_admin a' = true).
  { intros a' Ha' Hsent. rewrite sweep_admin_reminders in Hsent. fold st3 in Hsent.
    apply in_admin_reminders in Hsent. rewrite Hfinal in Ha'.
    apply (loop_flag_set reminder_sent_admin set_reminder_sent_admin remind_admin_one
             (ten_min_start now) (ten_min_end now) remind_admin_one_store
             later_set_admin (fun _ => eq_refl) later_keeps_admin st3 _ a'
             Hsame Ha' Hsent). }
  assert (Hnone : forall ts',
             admin_reminders (snd (sweep now ts' (fst (sweep now ts db)))) = []).
  { intro ts'. rewrite sweep_admin_reminders.
    destruct (before_admin_phase now ts' (fst (sweep now ts db))) as [Hl Ht].
    rewrite (nothing_due_later reminder_sent_admin (ten_min_start now) (ten_min_end now)
               later_keeps_admin (fst (sweep now ts db)) _);
      [reflexivity| |exact Hl|exact Ht].
    intros a' Ha' Hdue. rewrite Hfinal in *.
    exact (loop_leaves_none_due reminder_sent_admin set_reminder_sent_admin
             remind_admin_one (ten_min_start now) (ten_min_end now)
             remind_admin_one_store later_set_admin (fun _ => eq_refl)
             later_keeps_admin st3 _ a' Hsame (same_tables_refl _) Ha' Hdue). }
  split; [exact Hset|]. split.
  - intros now' ts' i Hsent Hagain. rewrite sweep_admin_reminders in Hagain.
    apply in_admin_reminders in Hagain.
    destruct (before_admin_phase now' ts' (fst (sweep now ts db))) as [Hl _].
    revert Hagain.
    apply (flagged_not_fetched reminder_sent_admin later_keeps_admin
             (fst (sweep now ts db)) _ i (ten_min_start now') (ten_min_end now'));
      [|exact Hl].
    intros a' Ha' Hid. apply Hset; [exact Ha'|]. rewrite Hid. exact Hsent.
  - intro ts'. split; [apply Hnone|].
    unfold schedule_reminders. cbn [fold_left fst snd app].
    rewrite admin_reminders_app, Hnone. apply app_nil_r.
Qed.

Lemma admin_reminder_sent_once_witness :
  admin_reminders (snd (sweep now_2024_06_02_10h 7 (with_rows soon_rows))) = [2]
  /\ map reminder_sent_admin
       (appointments (fst (sweep now_2024_06_02_10h 7 (with_rows soon_rows))))
     = [false; true]
  /\ ~ In 2 (admin_reminders
               (snd (sweep (now_2024_06_02_10h + 30) 37
                       (fst (sweep now_2024_06_02_10h 7 (with_rows soon_rows)))))).
Proof.
  split; [reflexivity|]. split; [reflexivity|].
  apply (proj1 (proj2 (admin_reminder_sent_once (with_rows soon_rows)
                         now_2024_06_02_10h 7))).
  left. reflexivity.
Defined.

(** ** Whom the cycle reminds *)









(** ** The client's list of appointments *)

Lemma insert_by_time_perm : forall r rows, Permutation (insert_by_time r rows) (r :: rows).
Proof.
  intros r. induction rows as [|r' rows IH]; simpl; [apply Permutation_refl|].
  destruct (listed_time r <=? listed_time r'); [apply Permutation_refl|].
  eapply Permutation_trans; [apply perm_skip; exact IH | apply perm_swap].
Qed.

Lemma order_by_time_perm : forall rows, Permutation (order_by_time rows) rows.
Proof.
  induction rows as [|r rows IH]; simpl; [apply perm_nil|].
  eapply Permutation_trans; [apply insert_by_time_perm | apply perm_skip; exact IH].
Qed.

Lemma in_order_by_time : forall r rows, In r (order_by_time rows) <-> In r rows.
Proof.
  intros r rows. split; apply Permutation_in;
    [apply order_by_time_perm | apply Permutation_sym, order_by_time_perm].
Qed.

Lemma insert_by_time_sorted : forall r rows,
  Sorted by_time rows -> Sorted by_time (insert_by_time r rows).
Proof.
  intros r. induction rows as [|r' rows IH]; simpl; intro Hs.
  - repeat constructor.
  - destruct (listed_time r <=? listed_time r') eqn:E.
    + constructor; [exact Hs|]. constructor. apply Z.leb_le. exact E.
    + apply Z.leb_gt in E. inversion Hs as [|? ? Hs' Hhd]; subst.
      constructor; [apply IH; exact Hs'|].
      destruct rows as [|r'' rows]; simpl.
      * constructor. unfold by_time. lia.
      * destruct (listed_time r <=? listed_time r''); constructor.
        -- unfold by_time. lia.
        -- inversion Hhd; assumption.
Qed.

Lemma order_by_time_sorted : forall rows, StronglySorted by_time (order_by_time rows).
Proof.
  intro rows. apply Sorted_StronglySorted.
  - intros x y z. unfold by_time. lia.
  - induction rows as [|r rows IH]; simpl; [constructor|].
    apply insert_by_time_sorted. exact IH.
Qed.

Lemma in_join_sm : forall db a r,
  In r (join_sm db a) <->
  exists s m, r = (a, s, m)
              /\ In s (services db) /\ s_id s = service_id a
              /\ In m (masters db) /\ m_id m = master_id a.
Proof.
  intros db a r. unfold join_sm, services_with_id, masters_with_id.
  rewrite in_flat_map. split.
  - intros [s [Hs Hr]]. apply in_map_iff in Hr. destruct Hr as [m [<- Hm]].
    apply filter_In in Hs. apply filter_In in Hm.
    destruct Hs as [Hs Hs']. destruct Hm as [Hm Hm'].
    apply Z.eqb_eq in Hs'. apply Z.eqb_eq in Hm'. exists s, m. auto.
  - intros [s [m (->&Hs&Hs'&Hm&Hm')]]. exists s. split.
    + apply filter_In. split; [exact Hs | apply Z.eqb_eq; exact Hs'].
    + apply in_map. apply filter_In. split; [exact Hm | apply Z.eqb_eq; exact Hm'].
Qed.

Lemma upcoming_of_true : forall i now a,
  upcoming_of i now a = true <->
  client_id a = i /\ status a = active /\ now < appointment_time a.
Proof.
  intros i now a. unfold upcoming_of.
  rewrite !andb_true_iff, Z.eqb_eq, Z.ltb_lt, is_active_true. tauto.
Qed.

(** The client block, read the other way round: the client it yields is the
    one a lookup by the user's Telegram id finds in the store it leaves, so
    running it again changes nothing. *)
Lemma get_or_create_client_found : forall u db db1 c,
  get_or_create_client u db = inr (db1, Some c) ->
  client_by_telegram (u_id u) db1 = Some c.
Proof.
  intros u db db1 c. unfold get_or_create_client.
  destruct (client_by_telegram (u_id u) db) as [c0|] eqn:Hc.
  - intro H. injection H as <- <-. exact Hc.
  - destruct (insert_client u db) as [d|] eqn:Hi; [|discriminate].
    intro H. injection H as <- H. exact H.
Qed.

Lemma get_or_create_client_again : forall u db db1 c,
  get_or_create_client u db = inr (db1, Some c) ->
  get_or_create_client u db1 = inr (db1, Some c).
Proof.
  intros u db db1 c H. apply get_or_create_client_found in H.
  unfold get_or_create_client. rewrite H. reflexivity.
Qed.

(** What [my_appointments] lists.  The handler never fails; it leaves the
    appointments alone; and the rows it renders, in ascending order of their
    time, are exactly the active appointments of the user's client that lie
    after the store's reading of the clock, each with its service and its
    master (an appointment whose service or master row is missing is not
    shown). *)
Theorem my_appointments_lists_upcoming :
  forall u now db,
    exists db1 c rows,
      my_appointments u now db = (db1, inr rows)
      /\ client_by_telegram (u_id u) db1 = Some c
      /\ appointments db1 = appointments db
      /\ services db1 = services db /\ masters db1 = masters db
      /\ StronglySorted by_time rows
      /\ forall a s m,
           In (a, s, m) rows <->
           In a (appointments db)
           /\ client_id a = c_id c /\ status a = active /\ now < appointment_time a
           /\ In s (services db) /\ s_id s = service_id a
           /\ In m (masters db) /\ m_id m = master_id a.
Proof.
  intros u now db.
  destruct (get_or_create_client_spec u db) as [db1 [c (Hg&Hdb1&Hc&Htg&Happ&_)]].
  exists db1, c. eexists. unfold my_appointments. rewrite Hg.
  split; [reflexivity|].
  split; [apply (get_or_create_client_found u db); exact Hg|].
  split; [exact Happ|].
  assert (Htab : services db1 = services db /\ masters db1 = masters db).
  { destruct Hdb1 as [->|Hins]; [auto|].
    unfold insert_client in Hins. destruct (existsb _ _); [discriminate|].
    injection Hins as <-. auto. }
  destruct Htab as [Hsv Hms]. split; [exact Hsv|]. split; [exact Hms|].
  split; [apply order_by_time_sorted|].
  intros a s m. rewrite in_order_by_time, in_flat_map. split.
  - intros [a0 [Ha0 Hr]]. destruct (upcoming_of (c_id c) now a0) eqn:Hup; [|contradiction].
    apply upcoming_of_true in Hup. apply in_join_sm in Hr.
    destruct Hr as [s0 [m0 (Heq&Hs&Hs'&Hm&Hm')]]. injection Heq as -> -> ->.
    rewrite Happ in Ha0. rewrite Hsv in Hs. rewrite Hms in Hm. tauto.
  - intros (Ha&Hcl&Hst&Ht&Hs&Hs'&Hm&Hm'). exists a. split; [rewrite Happ; exact Ha|].
    replace (upcoming_of (c_id c) now a) with true
      by (symmetry; apply upcoming_of_true; auto).
    apply in_join_sm. exists s, m. rewrite Hsv, Hms. auto.
Qed.

(** ** From the list to the cancellation, and from the booking to the list *)

(** The path of [cancel_appointment] taken by the client of an active
    appointment. *)
Lemma cancel_appointment_by_owner : forall u ts db a c,
  well_formed db ->
  In a (appointments db) -> status a = active ->
  In c (clients db) -> c_id c = client_id a -> telegram_id c = u_id u ->
  services_with_id (service_id a) db <> [] ->
  masters_with_id (master_id a) db <> [] ->
  cancel_appointment u (a_id a) ts db
  = (update_where_id (a_id a) (set_status cancelled ts) db,
     send_cancellation_notification
       (update_where_id (a_id a) (set_status cancelled ts) db) (a_id a) by_client
     ++ [Reply (AppointmentCancelled (a_id a))]).
Proof.
  intros u ts db a c Hwf Ha Hst Hc Hcid Htg Hsv Hms.
  assert (Hact : is_active a = true) by (apply is_active_true; exact Hst).
  assert (Huniq : forall b, In b (appointments db) -> a_id b = a_id a -> b = a).
  { intros b Hb Hid.
    apply (NoDup_map_eq _ _ a_id (appointments db)); try assumption. apply Hwf. }
  pose proof (single_client db a c Hwf Hc Hcid) as Hcl.
  destruct (services_with_id (service_id a) db) as [|s ss] eqn:Ess; [contradiction|].
  destruct (masters_with_id (master_id a) db) as [|m ms] eqn:Ems; [contradiction|].
  assert (Hjoin : exists rest, join_csm db a = (a, c, s, m) :: rest).
  { unfold join_csm. rewrite Hcl, Ess, Ems. simpl. eauto. }
  destruct Hjoin as [rest Hjoin].
  assert (Hfirst : fetchone (select_joined (fun b => has_id (a_id a) b && is_active b) db)
                   = Some (a, c, s, m)).
  { unfold select_joined. clear - Ha Hact Hjoin Huniq.
    induction (appointments db) as [|b l IH]; [contradiction|]. simpl.
    destruct (has_id (a_id a) b && is_active b) eqn:Hwb.
    - assert (b = a).
      { apply Huniq; [left; reflexivity|]. apply andb_true_iff in Hwb.
        destruct Hwb as [Hb _]. apply Z.eqb_eq in Hb. exact Hb. }
      subst b. rewrite Hjoin. reflexivity.
    - destruct Ha as [->|Ha].
      + unfold has_id in Hwb. rewrite Z.eqb_refl, Hact in Hwb. discriminate.
      + simpl. apply IH; [exact Ha|]. intros b' Hb'. apply Huniq. right. exact Hb'. }
  unfold cancel_appointment. rewrite Hfirst.
  destruct (filter_one_before _
              (fun c' => (c_id c' =? c_id c) && (telegram_id c' =? u_id u))
              (clients db) c Hc) as [c0 Hc0].
  { rewrite Htg, !Z.eqb_refl. reflexivity. }
  change (fetchone (filter (fun c' => (c_id c' =? c_id c)
                                      && (telegram_id c' =? u_id u)) (clients db))
          = Some c0) in Hc0.
  rewrite Hc0. reflexivity.
Qed.

Lemma insert_by_time_below : forall r rows,
  (forall x, In x rows -> by_time r x) -> insert_by_time r rows = r :: rows.
Proof.
  intros r [|r' rows] H; simpl; [reflexivity|].
  replace (listed_time r <=? listed_time r') with true; [reflexivity|].
  symmetry. apply Z.leb_le. apply H. left. reflexivity.
Qed.

Lemma filter_insert_by_time : forall (p : listed -> bool) r rows,
  StronglySorted by_time rows ->
  filter p (insert_by_time r rows)
  = if p r then insert_by_time r (filter p rows) else filter p rows.
Proof.
  intros p r. induction rows as [|r' rows IH]; intro Hs.
  - simpl. destruct (p r); reflexivity.
  - inversion Hs as [|? ? Hs' Hall]; subst. cbn [insert_by_time].
    destruct (listed_time r <=? listed_time r') eqn:E.
    + cbn [filter]. destruct (p r) eqn:Hp; [|reflexivity].
      symmetry. apply (insert_by_time_below r (filter p (r' :: rows))).
      intros x Hx. apply filter_In in Hx. destruct Hx as [Hx _].
      apply Z.leb_le in E. rewrite Forall_forall in Hall.
      destruct Hx as [<-|Hx]; [exact E|].
      specialize (Hall x Hx). unfold by_time in *. lia.
    + cbn [filter]. rewrite (IH Hs'). destruct (p r') eqn:Hp'; [|reflexivity].
      destruct (p r); [|reflexivity]. cbn [insert_by_time]. rewrite E. reflexivity.
Qed.

(** A [WHERE] clause may be applied before or after the [ORDER BY]. *)
Lemma filter_order_by_time : forall (p : listed -> bool) rows,
  filter p (order_by_time rows) = order_by_time (filter p rows).
Proof.
  intros p. induction rows as [|r rows IH]; [reflexivity|]. cbn [order_by_time fold_right].
  fold (order_by_time rows). rewrite filter_insert_by_time by apply order_by_time_sorted.
  cbn [filter]. destruct (p r); [cbn [fold_right]; fold (order_by_time (filter p rows))|];
    rewrite IH; reflexivity.
Qed.

Lemma filter_join_sm : forall (q : appointment -> bool) db b,
  filter (fun r => q (listed_row r)) (join_sm db b)
  = if q b then join_sm db b else [].
Proof.
  intros q db b. unfold join_sm, listed.
  induction (services_with_id (service_id b) db) as [|s l IH]; cbn [flat_map].
  - destruct (q b); reflexivity.
  - rewrite filter_app, IH.
    assert (H : filter (fun r : appointment * service * master => q (listed_row r))
                  (map (fun m => (b, s, m)) (masters_with_id (master_id b) db))
                = if q b then map (fun m => (b, s, m)) (masters_with_id (master_id b) db)
                  else []).
    { clear IH.
      induction (masters_with_id (master_id b) db) as [|m l' IH']; cbn [map filter].
      - destruct (q b); reflexivity.
      - change (listed_row (b, s, m)) with b. rewrite IH'.
        destruct (q b); reflexivity. }
    rewrite H. destruct (q b); reflexivity.
Qed.

(** Every row of the list can be cancelled from its button.  In a
    well-formed store, for a row that [my_appointments] has just shown to
    the user, [cancel_appointment] by that user goes through: it answers
    with the confirmation, cancels that row and no other, and a new
    [my_appointments] for the same reading of the clock shows the former
    list without the row. *)
Theorem listed_appointment_can_be_cancelled :
  forall u now ts db db1 rows a s m,
    well_formed db ->
    my_appointments u now db = (db1, inr rows) ->
    In (a, s, m) rows ->
    let r := cancel_appointment u (a_id a) ts db1 in
    In (Reply (AppointmentCancelled (a_id a))) (snd r)
    /\ appointments (fst r)
       = map (fun b => if a_id b =? a_id a then set_status cancelled ts b else b)
           (appointments db1)
    /\ my_appointments u now (fst r)
       = (fst r, inr (filter (fun r' => negb (a_id (listed_row r') =? a_id a)) rows)).
Proof.
  intros u now ts db db1 rows a s m Hwf Hlist Hin r.
  destruct (get_or_create_client_spec u db) as [db1' [c (Hg&Hdb1&Hc&Htg&Happ&_)]].
  pose proof (get_or_create_client_found u db _ _ Hg) as Hfound.
  unfold my_appointments in Hlist. rewrite Hg in Hlist. injection Hlist as <- <-.
  assert (Hwf1 : well_formed db1').
  { destruct Hdb1 as [->|Hins]; [exact Hwf|].
    exact (well_formed_insert_client u db db1' Hins Hwf). }
  apply (proj1 (in_order_by_time _ _)) in Hin. apply in_flat_map in Hin.
  destruct Hin as [a0 [Ha0 Hr]].
  destruct (upcoming_of (c_id c) now a0) eqn:Hup; [|contradiction].
  assert (Hjoin : join_sm db1' a0 <> []) by (intro E; rewrite E in Hr; exact Hr).
  apply in_join_sm in Hr. destruct Hr as [s0 [m0 (Heq&_)]]. injection Heq as Heq _ _.
  subst a0.
  apply upcoming_of_true in Hup. destruct Hup as (Hcl&Hst&_).
  assert (Hsv : services_with_id (service_id a) db1' <> []).
  { intro E. apply Hjoin. unfold join_sm. rewrite E. reflexivity. }
  assert (Hms : masters_with_id (master_id a) db1' <> []).
  { intro E. apply Hjoin. unfold join_sm. rewrite E. apply flat_map_nil.
    intros; reflexivity. }
  subst r.
  rewrite (cancel_appointment_by_owner u ts db1' a c Hwf1 Ha0 Hst Hc (eq_sym Hcl) Htg
             Hsv Hms).
  cbn [fst snd]. split; [apply in_or_app; right; left; reflexivity|].
  split; [reflexivity|].
  unfold my_appointments.
  assert (Hg' : get_or_create_client u
                  (update_where_id (a_id a) (set_status cancelled ts) db1')
                = inr (update_where_id (a_id a) (set_status cancelled ts) db1', Some c)).
  { unfold get_or_create_client.
    change (client_by_telegram (u_id u)
              (update_where_id (a_id a) (set_status cancelled ts) db1'))
      with (client_by_telegram (u_id u) db1').
    rewrite Hfound. reflexivity. }
  rewrite Hg'. f_equal. f_equal. rewrite filter_order_by_time. f_equal.
  change (appointments (update_where_id (a_id a) (set_status cancelled ts) db1'))
    with (map (fun b => if a_id b =? a_id a then set_status cancelled ts b else b)
            (appointments db1')).
  clear. induction (appointments db1') as [|b l IH]; [reflexivity|].
  cbn [map flat_map]. rewrite filter_app, IH. f_equal.
  transitivity (if negb (a_id b =? a_id a)
                then (if upcoming_of (c_id c) now b then join_sm db1' b else [])
                else []).
  - destruct (a_id b =? a_id a); [|reflexivity]. cbn [negb].
    unfold upcoming_of, is_active. simpl. rewrite andb_false_r. reflexivity.
  - destruct (upcoming_of (c_id c) now b).
    + symmetry. apply (filter_join_sm (fun b' => negb (a_id b' =? a_id a))).
    + destruct (negb _); reflexivity.
Qed.

Lemma listed_appointment_can_be_cancelled_witness :
  exists a s m,
    my_appointments alice 0 alice_booked = (alice_booked, inr [(a, s, m)])
    /\ In (Reply (AppointmentCancelled (a_id a)))
          (snd (cancel_appointment alice (a_id a) 10 alice_booked))
    /\ my_appointments alice 0 (fst (cancel_appointment alice (a_id a) 10 alice_booked))
       = (fst (cancel_appointment alice (a_id a) 10 alice_booked), inr []).
Proof.
  eexists. eexists. eexists. split; [reflexivity|].
  destruct (listed_appointment_can_be_cancelled alice 0 10 alice_booked alice_booked
              _ _ _ _ alice_booked_well_formed eq_refl (or_introl eq_refl))
    as (H1 & _ & H3).
  split; [exact H1 | exact H3].
Defined.

(** A new booking is on the list.  When no stored row holds the slot, the
    service and the master exist and the appointment lies after the store's
    reading of the clock, [create_appointment] answers with the id of the
    new appointment, and [my_appointments] of the same user then shows a row
    with that id, slot and service. *)
Theorem booked_appointment_is_listed :
  forall u sv m d s ts now db,
    existsb (same_slot (strptime d s) m) (appointments db) = false ->
    services_with_id sv db <> [] -> masters_with_id m db <> [] ->
    now < strptime d s ->
    let r := create_appointment u sv m d s ts db in
    exists i rows a s0 m0,
      snd r = Returned (Reply (AppointmentCreated i)
                        :: send_new_appointment_notification (fst r) i)
      /\ my_appointments u now (fst r) = (fst r, inr rows)
      /\ In (a, s0, m0) rows
      /\ a_id a = i /\ appointment_time a = strptime d s
      /\ master_id a = m /\ service_id a = sv
      /\ s_id s0 = sv /\ m_id m0 = m.
Proof.
  intros u sv m d s ts now db Hfree Hsv Hms Hnow r. subst r.
  destruct (get_or_create_client_spec u db) as [db1 [c (Hg&Hdb1&Hc&Htg&Happ&_)]].
  pose proof (get_or_create_client_found u db _ _ Hg) as Hfound.
  assert (Htab : appointments_seq db1 = appointments_seq db
                 /\ services db1 = services db /\ masters db1 = masters db).
  { destruct Hdb1 as [->|Hins]; [auto|].
    destruct (insert_client_keeps_appointments _ _ _ Hins) as (_&?&?&?&_). auto. }
  destruct Htab as (Hseq & Hs & Hm).
  unfold create_appointment. rewrite Hg.
  assert (Hav : is_slot_available d s m db1 = true).
  { unfold is_slot_available.
    rewrite (active_at_appointments _ _ db db1 Happ), no_row_no_active by exact Hfree.
    reflexivity. }
  rewrite Hav. cbn [negb]. unfold insert_appointment. rewrite Happ, Hfree.
  assert (Hs1 : services_with_id sv db1 = services_with_id sv db)
    by (unfold services_with_id; rewrite Hs; reflexivity).
  assert (Hm1 : masters_with_id m db1 = masters_with_id m db)
    by (unfold masters_with_id; rewrite Hm; reflexivity).
  rewrite Hs1, Hm1.
  destruct (services_with_id sv db) as [|s0 ss] eqn:Ess; [contradiction|].
  destruct (masters_with_id m db) as [|m0 ms] eqn:Ems; [contradiction|].
  cbn [fetchone hd_error fst snd].
  set (i := next_rowid (appointments_seq db1) (map a_id (appointments db))).
  set (row := {| a_id := i; client_id := c_id c; service_id := sv; master_id := m;
                 appointment_time := strptime d s; status := active;
                 created_at := ts; updated_at := ts;
                 reminder_sent_day := false; reminder_sent_hour := false;
                 reminder_sent_admin := false |}).
  set (db2 := {| clients := clients db1; clients_seq := clients_seq db1;
                 services := services db1; masters := masters db1;
                 admins := admins db1;
                 appointments := appointments db ++ [row];
                 appointments_seq := i |}).
  assert (Hg2 : get_or_create_client u db2 = inr (db2, Some c)).
  { unfold get_or_create_client.
    change (client_by_telegram (u_id u) db2) with (client_by_telegram (u_id u) db1).
    rewrite Hfound. reflexivity. }
  assert (Hs0 : In s0 (services_with_id sv db2)).
  { change (services_with_id sv db2) with (services_with_id sv db1).
    rewrite Hs1. rewrite ?Ess. left. reflexivity. }
  assert (Hm0 : In m0 (masters_with_id m db2)).
  { change (masters_with_id m db2) with (masters_with_id m db1).
    rewrite Hm1. rewrite ?Ems. left. reflexivity. }
  exists i. eexists. exists row, s0, m0.
  split; [reflexivity|]. split.
  { unfold my_appointments. rewrite Hg2. reflexivity. }
  split.
  { apply in_order_by_time. apply in_flat_map. exists row. split.
    - cbn [appointments db2]. apply in_or_app. right. left. reflexivity.
    - replace (upcoming_of (c_id c) now row) with true.
      2: { symmetry. apply upcoming_of_true. repeat split. exact Hnow. }
      unfold join_sm. apply in_flat_map. exists s0. split; [exact Hs0|].
      apply in_map. exact Hm0. }
  unfold services_with_id in Hs0. unfold masters_with_id in Hm0.
  apply filter_In in Hs0. apply filter_In in Hm0.
  destruct Hs0 as [_ Hs0]. destruct Hm0 as [_ Hm0].
  apply Z.eqb_eq in Hs0. apply Z.eqb_eq in Hm0.
  repeat split; assumption.
Qed.

Lemma booked_appointment_is_listed_witness :
  exists i rows a s0 m0,
    snd (create_appointment alice 1 1 d_2024_06_10 (14, 30) 0 two_clients)
    = Returned (Reply (AppointmentCreated i)
                :: send_new_appointment_notification alice_booked i)
    /\ my_appointments alice now_2024_06_02_10h alice_booked = (alice_booked, inr rows)
    /\ In (a, s0, m0) rows
    /\ a_id a = i /\ appointment_time a = strptime d_2024_06_10 (14, 30)
    /\ master_id a = 1 /\ service_id a = 1
    /\ s_id s0 = 1 /\ m_id m0 = 1.
Proof.
  apply (booked_appointment_is_listed alice 1 1 d_2024_06_10 (14, 30) 0
           now_2024_06_02_10h two_clients).
  - reflexivity.
  - discriminate.
  - discriminate.
  - reflexivity.
Defined.

(** ** The keyboards of the booking dialogue *)

Section KeyboardLoop.

Context {A : Type}.
Variable shown : A -> bool.
Variable total : nat.

Local Abbreviation rows_ok kb := (Forall (fun r : list A => (1 <= length r <= 2)%nat) kb).

(** The loop from index [i] on the items [l] that are left. *)
Lemma keyboard_loop_from : forall (l : list A) (i : nat) kb row,
  (i + length l = total)%nat -> (length row <= 1)%nat -> rows_ok kb ->
  let st := fold_left (keyboard_step shown total) (combine (seq i (length l)) l) (kb, row) in
  concat (fst st) ++ snd st = concat kb ++ row ++ filter shown l
  /\ rows_ok (fst st)
  /\ (length (snd st) <= 1)%nat
  /\ (l <> [] -> forall d,
        length (snd st)
        = if shown (last l d) then O
          else ((length row + length (filter shown l)) mod 2)%nat).
Proof.
  induction l as [|x l IH]; intros i kb row Hi Hrow Hkb.
  - simpl. rewrite app_nil_r. repeat split; auto. intro H. contradiction H. reflexivity.
  - cbn [length seq combine fold_left]. cbn [length] in Hi.
    set (st1 := keyboard_step shown total (kb, row) (i, x)).
    assert (H1 : concat (fst st1) ++ snd st1 = concat kb ++ row ++ (if shown x then [x] else [])
                 /\ rows_ok (fst st1) /\ (length (snd st1) <= 1)%nat
                 /\ length (snd st1)
                    = (if shown x
                       then if (i =? total - 1)%nat then O
                            else ((length row + 1) mod 2)%nat
                       else length row)).
    { subst st1. unfold keyboard_step. destruct (shown x).
      - rewrite length_app. cbn [length].
        destruct row as [|y [|z row]]; cbn [length] in *; try lia.
        + cbn [Nat.add Nat.eqb orb app].
          destruct (i =? total - 1)%nat; cbn [fst snd length].
          * rewrite concat_app. cbn [concat]. rewrite !app_nil_r.
            repeat split; auto. apply Forall_app. split; [exact Hkb|].
            repeat constructor.
          * repeat split; auto.
        + cbn [Nat.add Nat.eqb orb fst snd length].
          rewrite concat_app. cbn [concat app]. rewrite !app_nil_r.
          repeat split; auto.
          * apply Forall_app. split; [exact Hkb|]. repeat constructor.
          * destruct (i =? total - 1)%nat; reflexivity.
      - cbn [fst snd]. rewrite app_nil_r. repeat split; auto. }
    destruct st1 as [kb1 row1]. cbn [fst snd] in H1.
    destruct H1 as (Hc1 & Hk1 & Hr1 & Hlen1).
    destruct (IH (S i) kb1 row1 ltac:(lia) Hr1 Hk1) as (Hc & Hk & Hr & Hlast).
    split; [|split; [exact Hk|split; [exact Hr|]]].
    + rewrite Hc. cbn [filter]. rewrite app_assoc, Hc1.
      destruct (shown x); cbn [app]; rewrite <- !app_assoc; reflexivity.
    + intros _ d. destruct l as [|y l'].
      * cbn [length seq combine fold_left fst snd last filter]. rewrite Hlen1.
        replace (i =? total - 1)%nat with true
          by (symmetry; apply Nat.eqb_eq; cbn [length] in Hi; lia).
        destruct (shown x); cbn [length]; [reflexivity|].
        rewrite Nat.add_0_r. symmetry. apply Nat.mod_small. lia.
      * rewrite (Hlast ltac:(discriminate) d).
        change (last (x :: y :: l') d) with (last (y :: l') d).
        destruct (shown (last (y :: l') d)); [reflexivity|].
        rewrite Hlen1. cbn [filter].
        replace (i =? total - 1)%nat with false
          by (symmetry; apply Nat.eqb_neq; cbn [length] in Hi; lia).
        destruct (shown x); cbn [length].
        -- rewrite Nat.Div0.add_mod_idemp_l. f_equal. lia.
        -- reflexivity.
Qed.

End KeyboardLoop.

(** What the loop leaves: the buttons of the keyboard followed by the row
    still pending are the shown items in their order; every row holds one or
    two buttons; and a button is pending exactly when the last item is not
    shown and the shown items are odd in number. *)
Lemma keyboard_loop_spec : forall (A : Type) (shown : A -> bool) (items : list A),
  let st := keyboard_loop shown items in
  concat (fst st) ++ snd st = filter shown items
  /\ Forall (fun r => (1 <= length r <= 2)%nat) (fst st)
  /\ (length (snd st) <= 1)%nat
  /\ (items <> [] -> forall d,
        length (snd st)
        = if shown (last items d) then O
          else (length (filter shown items) mod 2)%nat).
Proof.
  intros A shown items. unfold keyboard_loop, enumerate.
  apply (keyboard_loop_from shown (length items) items 0 [] []);
    [reflexivity | simpl; lia | constructor].
Qed.

Lemma filter_all : forall (A : Type) (l : list A), filter (fun _ => true) l = l.
Proof. induction l as [|x l IH]; simpl; [|rewrite IH]; reflexivity. Qed.

Lemma length_le_1_nil : forall (A : Type) (l : list A), length l = O -> l = [].
Proof. intros A [|x l]; [reflexivity|discriminate]. Qed.

Lemma app_one_removelast : forall (A : Type) (l pending free : list A),
  l ++ pending = free -> length pending = 1%nat -> l = removelast free.
Proof.
  intros A l [|x [|y p]] free H Hlen; try discriminate.
  subst free. rewrite removelast_last. reflexivity.
Qed.

(** The date keyboard.  [choose_date] fails with [TypeError] when the
    service or the master is not stored.  Otherwise its keyboard holds, one
    or two a row and in their order, dates of the fourteen days that have a
    free slot of the master: all of them when the last of the fourteen days
    has a free slot or their number is even, and all but the last of them
    when the last day has none and their number is odd (the row then still
    pending is never appended).  Without any row the handler answers that
    the fortnight has no free slot. *)
Theorem choose_date_keyboard :
  forall sv m now db,
    let dates := get_available_dates now in
    let free := filter (has_free_slot m now db) dates in
    (services_with_id sv db = [] \/ masters_with_id m db = [] ->
     choose_date sv m now db = inl TypeError)
    /\ (services_with_id sv db <> [] -> masters_with_id m db <> [] ->
        exists s0 m0 keyboard,
          fetchone (services_with_id sv db) = Some s0
          /\ fetchone (masters_with_id m db) = Some m0
          /\ choose_date sv m now db
             = inr (match keyboard with
                    | [] => NoFreeDates
                    | _ :: _ => DateKeyboard (s_name s0) (m_name m0) keyboard
                    end)
          /\ Forall (fun row => (1 <= length row <= 2)%nat) keyboard
          /\ (has_free_slot m now db (date_of now + 13) = true
              \/ (length free mod 2 = 0)%nat ->
              concat keyboard = free)
          /\ (has_free_slot m now db (date_of now + 13) = false ->
              (length free mod 2 = 1)%nat ->
              concat keyboard = removelast free /\ free <> [])).
Proof.
  intros sv m now db dates free. split.
  - unfold choose_date. intros [H|H].
    + rewrite H. reflexivity.
    + rewrite H. destruct (fetchone (services_with_id sv db)); reflexivity.
  - intros Hsv Hms. unfold choose_date.
    destruct (services_with_id sv db) as [|s0 ss]; [contradiction|].
    destruct (masters_with_id m db) as [|m0 ms]; [contradiction|].
    cbn [fetchone hd_error]. fold dates.
    destruct (keyboard_loop_spec _ (has_free_slot m now db) dates)
      as (Hcat & Hrows & Hpend & Hlast).
    fold free in Hcat, Hlast.
    specialize (Hlast ltac:(discriminate) 0).
    change (last dates 0) with (date_of now + 13) in Hlast.
    destruct (keyboard_loop (has_free_slot m now db) dates) as [keyboard pending].
    cbn [fst snd] in *.
    exists s0, m0, keyboard.
    split; [reflexivity|]. split; [reflexivity|].
    split; [destruct keyboard; reflexivity|].
    split; [exact Hrows|]. split.
    + intro H. assert (Hnil : pending = []).
      { apply length_le_1_nil. rewrite Hlast.
        destruct (has_free_slot m now db (date_of now + 13)); [reflexivity|].
        destruct H as [H|H]; [discriminate | exact H]. }
      rewrite Hnil, app_nil_r in Hcat. exact Hcat.
    + intros Hno Hodd. rewrite Hno, Hodd in Hlast. split.
      * exact (app_one_removelast _ _ _ _ Hcat Hlast).
      * intro E. rewrite E in Hodd. discriminate.
Qed.

(** On 2024-06-02 master 1 is free on the first thirteen days and booked
    throughout the fourteenth: six rows of two dates, and 2024-06-14, the
    thirteenth day, is not offered. *)
Lemma choose_date_keyboard_witness :
  exists s0 m0 keyboard,
    choose_date 1 1 now_2024_06_02_10h last_day_full
    = inr (DateKeyboard (s_name s0) (m_name m0) keyboard)
    /\ concat keyboard = map (fun i => d_2024_06_02 + Z.of_nat i) (seq 0 12)
    /\ has_free_slot 1 now_2024_06_02_10h last_day_full (d_2024_06_02 + 12) = true.
Proof.
  destruct (proj2 (choose_date_keyboard 1 1 now_2024_06_02_10h last_day_full))
    as [s0 [m0 [keyboard (_ & _ & Hk & _ & _ & Hodd)]]];
    [discriminate | discriminate |].
  destruct (Hodd eq_refl eq_refl) as [Hcat _].
  exists s0, m0, keyboard. split; [|split; [exact Hcat | reflexivity]].
  rewrite Hk. destruct keyboard; [discriminate Hcat | reflexivity].
Defined.

(** The time keyboard.  [choose_time] fails with [TypeError] when the
    service or the master is not stored; it answers that the date has no
    free slot when [get_available_slots] returns none; and otherwise its
    keyboard holds every returned time, in order, one or two a row, each of
    them a slot for which [is_slot_available] holds. *)
Theorem choose_time_keyboard :
  forall sv m d now db,
    let times := get_available_slots d m now db in
    (services_with_id sv db = [] \/ masters_with_id m db = [] ->
     choose_time sv m d now db = inl TypeError)
    /\ (services_with_id sv db <> [] -> masters_with_id m db <> [] ->
        (times = [] /\ choose_time sv m d now db = inr NoFreeTimes)
        \/ exists s0 m0 keyboard,
             fetchone (services_with_id sv db) = Some s0
             /\ fetchone (masters_with_id m db) = Some m0
             /\ choose_time sv m d now db
                = inr (TimeKeyboard (s_name s0) (m_name m0) keyboard)
             /\ concat keyboard = times /\ keyboard <> []
             /\ Forall (fun row => (1 <= length row <= 2)%nat) keyboard
             /\ forall s, In s (concat keyboard) -> is_slot_available d s m db = true).
Proof.
  intros sv m d now db times. split.
  - unfold choose_time. intros [H|H].
    + rewrite H. reflexivity.
    + rewrite H. destruct (fetchone (services_with_id sv db)); reflexivity.
  - intros Hsv Hms. unfold choose_time.
    destruct (services_with_id sv db) as [|s0 ss]; [contradiction|].
    destruct (masters_with_id m db) as [|m0 ms]; [contradiction|].
    cbn [fetchone hd_error]. fold times.
    assert (Hfree : forall s, In s times -> is_slot_available d s m db = true).
    { intros s Hs. subst times. unfold get_available_slots in Hs.
      apply filter_In in Hs. destruct Hs as [_ Hs].
      destruct (_ && _); [discriminate | exact Hs]. }
    destruct times as [|t0 rest] eqn:Et; [left; auto|]. right.
    destruct (keyboard_loop_spec _ (fun _ : time_str => true) (t0 :: rest))
      as (Hcat & Hrows & _ & Hlast).
    specialize (Hlast ltac:(discriminate) t0). cbv beta in Hlast.
    apply length_le_1_nil in Hlast. rewrite Hlast, app_nil_r, filter_all in Hcat.
    exists s0, m0, (fst (keyboard_loop (fun _ : time_str => true) (t0 :: rest))).
    repeat split; try assumption; try reflexivity.
    + intro E. rewrite E in Hcat. discriminate.
    + intros s Hs. rewrite Hcat in Hs. apply Hfree. exact Hs.
Qed.

Lemma choose_time_keyboard_witness :
  exists s0 m0,
    choose_time 1 1 d_2024_06_02 now_2024_06_02_10h (with_rows soon_rows)
    = inr (TimeKeyboard (s_name s0) (m_name m0)
             [[(13, 0); (14, 30)]; [(16, 0); (17, 30)]]).
Proof.
  destruct (proj2 (choose_time_keyboard 1 1 d_2024_06_02 now_2024_06_02_10h
                     (with_rows soon_rows)))
    as [[H _] | [s0 [m0 [keyboard (_ & _ & Hk & _)]]]];
    [discriminate | discriminate | discriminate H |].
  exists s0, m0. rewrite Hk. vm_compute in Hk. injection Hk as _ _ <-. reflexivity.
Defined.

(** ** Reviews *)

(** The comment an [INSERT] would store, [comment[:500] if comment else
    None]: none, or 1 to 500 characters. *)
Lemma stored_comment_ok : forall comment : option text,
  match option_map (firstn 500) (nonempty comment) with
  | Some c => (0 < length c <= 500)%nat
  | None => True
  end.
Proof.
  intros [[|x c]|]; cbn [nonempty option_map]; auto.
  rewrite length_firstn. cbn [length]. lia.
Qed.

Lemma insert_review_spec : forall d ts rt rt',
  insert_review d None ts rt = Some rt' ->
  exists r, reviews rt' = reviews rt ++ [r]
            /\ r_appointment_id r = rd_appointment_id d /\ review_ok r.
Proof.
  intros d ts rt rt' H. unfold insert_review in H.
  destruct ((1 <=? rd_rating d) && (rd_rating d <=? 5)) eqn:E; [|discriminate].
  injection H as <-. eexists. split; [reflexivity|]. split; [reflexivity|].
  apply andb_true_iff in E. destruct E as [E1 E2].
  apply Z.leb_le in E1. apply Z.leb_le in E2.
  split; [cbn [r_rating]; lia | reflexivity].
Qed.

(** A text message sent while a rating is pending ends in the error of
    [query.answer()] and changes nothing; without a pending rating it does
    not concern the reviews. *)
Lemma message_with_text_spec : forall message_text ts db rt user_data,
  message_with_text message_text ts db rt user_data
  = (rt, user_data,
     match user_data with Some _ => inl NoCallbackQuery | None => inr [] end).
Proof. intros message_text ts db rt [d|]; reflexivity. Qed.

(** What a session keeps true: one review per appointment, and none yet for
    the appointment of a pending rating. *)
Lemma review_step_invariant : forall st act,
  NoDup (map r_appointment_id (reviews (fst st))) ->
  (forall d, snd st = Some d ->
             ~ In (rd_appointment_id d) (map r_appointment_id (reviews (fst st)))) ->
  let st' := review_step st act in
  NoDup (map r_appointment_id (reviews (fst st')))
  /\ (forall d, snd st' = Some d ->
                ~ In (rd_appointment_id d) (map r_appointment_id (reviews (fst st'))))
  /\ exists new, reviews (fst st') = reviews (fst st) ++ new /\ Forall review_ok new.
Proof.
  intros [rt ud] act Hnd Hpend. cbn [fst snd] in Hnd, Hpend.
  destruct act as [db i rating | db ts | db message_text ts |];
    cbn [review_step fst snd].
  - split; [exact Hnd|]. split; [|exists []; rewrite app_nil_r; auto].
    unfold save_review. destruct (rating =? -1); cbn [fst]; [exact Hpend|].
    destruct (fetchone _) as [a|]; cbn [fst]; [|exact Hpend].
    destruct (existsb _ _) eqn:Hex; cbn [fst]; [exact Hpend|].
    intros d Hd. injection Hd as <-. cbn [rd_appointment_id]. intro Hin.
    apply in_map_iff in Hin. destruct Hin as [r [Hr Hin]].
    assert (Htrue : existsb (fun r => r_appointment_id r =? i) (reviews rt) = true).
    { apply existsb_exists. exists r. split; [exact Hin | apply Z.eqb_eq; exact Hr]. }
    congruence.
  - unfold skip_comment, save_review_comment. cbn [negb].
    destruct ud as [d|]; cbn [fst snd].
    + destruct (insert_review d None ts rt) as [rt'|] eqn:Hins; cbn [fst snd].
      * destruct (insert_review_spec _ _ _ _ Hins) as [r (Hrows & Hid & Hok)].
        split; [|split; [discriminate|]].
        -- rewrite Hrows, map_app. cbn [map]. apply NoDup_snoc.
           ++ exact Hnd.
           ++ rewrite Hid. apply (Hpend d). reflexivity.
        -- exists [r]. split; [exact Hrows | constructor; [exact Hok | constructor]].
      * split; [exact Hnd|]. split; [exact Hpend|].
        exists []. rewrite app_nil_r. auto.
    + split; [exact Hnd|]. split; [discriminate|].
      exists []. rewrite app_nil_r. auto.
  - rewrite message_with_text_spec. cbn [fst snd].
    split; [exact Hnd|]. split; [exact Hpend|].
    exists []. rewrite app_nil_r. auto.
  - split; [exact Hnd|]. split; [discriminate|].
    exists []. rewrite app_nil_r. auto.
Qed.

Lemma review_session_invariant : forall acts st,
  NoDup (map r_appointment_id (reviews (fst st))) ->
  (forall d, snd st = Some d ->
             ~ In (rd_appointment_id d) (map r_appointment_id (reviews (fst st)))) ->
  let st' := fold_left review_step acts st in
  NoDup (map r_appointment_id (reviews (fst st')))
  /\ exists new, reviews (fst st') = reviews (fst st) ++ new /\ Forall review_ok new.
Proof.
  induction acts as [|act acts IH]; intros st Hnd Hpend; cbn [fold_left].
  - split; [exact Hnd|]. exists []. rewrite app_nil_r. auto.
  - destruct (review_step_invariant st act Hnd Hpend) as (Hnd1 & Hpend1 & new1 & Hrows1 & Hok1).
    destruct (IH (review_step st act) Hnd1 Hpend1) as (Hnd2 & new2 & Hrows2 & Hok2).
    split; [exact Hnd2|]. exists (new1 ++ new2). split.
    + rewrite Hrows2, Hrows1, app_assoc. reflexivity.
    + apply Forall_app. auto.
Qed.

(** One review per appointment, and never a comment.  Whatever rating
    buttons, skips, text messages and bookings a user goes through, on
    whatever stores, starting with no rating pending: the table only grows,
    it never holds two reviews of one appointment, and every review added
    has a rating from 1 to 5 and no comment.  The only call that passes a
    comment is the one of [message_handler], on an update without a
    callback query: it raises at [query.answer()], before the [INSERT], and
    leaves the table and the pending rating as they were, so a text sent
    while a rating is pending is never stored.  (The table is checked when
    the rating is given, not when the review is stored; the single pending
    rating of [user_data] is what makes that enough.) *)
Theorem one_review_per_appointment :
  forall acts rt,
    NoDup (map r_appointment_id (reviews rt)) ->
    let st := fold_left review_step acts (rt, None) in
    NoDup (map r_appointment_id (reviews (fst st)))
    /\ (exists new, reviews (fst st) = reviews rt ++ new /\ Forall review_ok new)
    /\ (forall message_text ts db rt' d,
          message_with_text message_text ts db rt' (Some d)
          = (rt', Some d, inl NoCallbackQuery)).
Proof.
  intros acts rt Hnd. split; [|split].
  - apply (review_session_invariant acts (rt, None)); [exact Hnd | discriminate].
  - apply (review_session_invariant acts (rt, None)); [exact Hnd | discriminate].
  - intros. reflexivity.
Qed.

(** Alice rates appointment 1 with five stars, rates it again with four
    before commenting, sends her comment as a message, rates a third time
    with three stars and presses the skip button: the review stored has
    three stars and no comment. *)
Lemma one_review_per_appointment_witness :
  map (fun r => (r_appointment_id r, r_rating r, r_comment r))
      (reviews (fst (fold_left review_step
                       [Rate alice_booked 1 5; Rate alice_booked 1 4;
                        Text alice_booked [1090; 1082] 50;
                        Rate alice_booked 1 3; Skip alice_booked 60;
                        Rate alice_booked 1 2; Skip alice_booked 70]
                       (no_reviews, None))))
  = [(1, 3, None)]
  /\ NoDup (map r_appointment_id
              (reviews (fst (fold_left review_step
                               [Rate alice_booked 1 5; Rate alice_booked 1 4;
                                Text alice_booked [1090; 1082] 50;
                                Rate alice_booked 1 3; Skip alice_booked 60;
                                Rate alice_booked 1 2; Skip alice_booked 70]
                               (no_reviews, None))))).
Proof.
  split; [reflexivity|].
  apply (one_review_per_appointment
           [Rate alice_booked 1 5; Rate alice_booked 1 4;
            Text alice_booked [1090; 1082] 50;
            Rate alice_booked 1 3; Skip alice_booked 60;
            Rate alice_booked 1 2; Skip alice_booked 70] no_reviews).
  constructor.
Defined.

(** ** The rate limiter *)

Lemma cache_get_set : forall u v cache w,
  cache_get w (cache_set u v cache) = if u =? w then v else cache_get w cache.
Proof.
  intros u v cache w. induction cache as [|[k v0] rest IH]; simpl.
  - destruct (u =? w); reflexivity.
  - destruct (k =? u) eqn:E; simpl.
    + apply Z.eqb_eq in E. subst k. destruct (u =? w); reflexivity.
    + rewrite IH. destruct (k =? w) eqn:E'; [|reflexivity].
      apply Z.eqb_eq in E'. subst k. rewrite Z.eqb_sym, E. reflexivity.
Qed.

Lemma cache_get_del : forall u cache w,
  cache_get w (cache_del u cache) = if u =? w then [] else cache_get w cache.
Proof.
  intros u cache w. unfold cache_del. induction cache as [|[k v0] rest IH]; simpl.
  - destruct (u =? w); reflexivity.
  - destruct (k =? u) eqn:E; simpl.
    + apply Z.eqb_eq in E. subst k. rewrite IH. destruct (u =? w); reflexivity.
    + rewrite IH. destruct (k =? w) eqn:E'; [|reflexivity].
      apply Z.eqb_eq in E'. subst k. rewrite Z.eqb_sym, E. reflexivity.
Qed.

Lemma cache_get_absent : forall u cache,
  ~ In u (map fst cache) -> cache_get u cache = [].
Proof.
  intros u. induction cache as [|[k v] rest IH]; simpl; intro H; [reflexivity|].
  destruct (k =? u) eqn:E.
  - apply Z.eqb_eq in E. exfalso. apply H. left. exact E.
  - apply IH. intro Hin. apply H. right. exact Hin.
Qed.

Lemma filter_idem : forall (A : Type) (p : A -> bool) (l : list A),
  filter p (filter p l) = filter p l.
Proof.
  intros A p. induction l as [|x l IH]; simpl; [reflexivity|].
  destruct (p x) eqn:E; simpl; rewrite ?E, IH; reflexivity.
Qed.

(** The cleanup, as read through [get]: of every user it keeps the requests
    of the last hour. *)
Lemma cache_get_cleanup : forall now cache w,
  cache_get w (_cleanup_rate_limit_cache now cache)
  = filter (fun t => now - one_hour <? t) (cache_get w cache).
Proof.
  intros now cache w. unfold _cleanup_rate_limit_cache.
  set (p := fun t : instant => now - one_hour <? t).
  set (body := fun (cache : rate_cache) (user_id : Z) =>
                 match filter p (cache_get user_id cache) with
                 | [] => cache_del user_id cache
                 | _ :: _ => cache_set user_id (filter p (cache_get user_id cache)) cache
                 end).
  assert (Hbody : forall c k,
             cache_get w (body c k)
             = if k =? w then filter p (cache_get w c) else cache_get w c).
  { intros c k. unfold body. destruct (filter p (cache_get k c)) eqn:E.
    - rewrite cache_get_del. destruct (k =? w) eqn:Ek; [|reflexivity].
      apply Z.eqb_eq in Ek. subst k. rewrite E. reflexivity.
    - rewrite cache_get_set. destruct (k =? w) eqn:Ek; [|reflexivity].
      apply Z.eqb_eq in Ek. subst k. rewrite E. reflexivity. }
  assert (Hfold : forall ks c,
             cache_get w (fold_left body ks c)
             = if existsb (fun k => k =? w) ks then filter p (cache_get w c)
               else cache_get w c).
  { induction ks as [|k ks IH]; intro c; simpl; [reflexivity|].
    rewrite IH, Hbody. destruct (k =? w); simpl.
    - rewrite filter_idem. destruct (existsb _ ks); reflexivity.
    - reflexivity. }
  rewrite Hfold. destruct (existsb (fun k => k =? w) (map fst cache)) eqn:E;
    [reflexivity|].
  rewrite cache_get_absent; [reflexivity|].
  intro Hin. assert (Ht : existsb (fun k => k =? w) (map fst cache) = true).
  { apply existsb_exists. exists w. split; [exact Hin | apply Z.eqb_refl]. }
  congruence.
Qed.

Lemma filter_filter_weaker : forall (a b : Z) (l : list Z),
  b <= a ->
  filter (fun t => a <? t) (filter (fun t => b <? t) l) = filter (fun t => a <? t) l.
Proof.
  intros a b l Hab. induction l as [|x l IH]; simpl; [reflexivity|].
  destruct (b <? x) eqn:Eb; simpl; rewrite IH; [reflexivity|].
  replace (a <? x) with false; [reflexivity|].
  symmetry. apply Z.ltb_ge. apply Z.ltb_ge in Eb. lia.
Qed.

Lemma filter_filter_max : forall (a b : Z) (l : list Z),
  filter (fun t => a <? t) (filter (fun t => b <? t) l)
  = filter (fun t => Z.max a b <? t) l.
Proof.
  intros a b l. induction l as [|x l IH]; simpl; [reflexivity|].
  destruct (b <? x) eqn:Eb; simpl; rewrite IH.
  - destruct (a <? x) eqn:Ea.
    + replace (Z.max a b <? x) with true; [reflexivity|].
      symmetry. apply Z.ltb_lt. apply Z.ltb_lt in Ea. apply Z.ltb_lt in Eb. lia.
    + replace (Z.max a b <? x) with false; [reflexivity|].
      symmetry. apply Z.ltb_ge. apply Z.ltb_ge in Ea. lia.
  - replace (Z.max a b <? x) with false; [reflexivity|].
    symmetry. apply Z.ltb_ge. apply Z.ltb_ge in Eb. lia.
Qed.

Lemma accepted_of_app : forall u l1 l2,
  accepted_of u (l1 ++ l2) = accepted_of u l1 ++ accepted_of u l2.
Proof. intros u l1 l2. unfold accepted_of. rewrite filter_app, map_app. reflexivity. Qed.

Lemma filter_length_le : forall (A : Type) (p q : A -> bool) (l : list A),
  (forall x, In x l -> p x = true -> q x = true) ->
  (length (filter p l) <= length (filter q l))%nat.
Proof.
  intros A p q. induction l as [|x l IH]; intro H; simpl; [lia|].
  assert (IH' : (length (filter p l) <= length (filter q l))%nat)
    by (apply IH; intros y Hy; apply H; right; exact Hy).
  destruct (p x) eqn:Ep.
  - rewrite (H x (or_introl eq_refl) Ep). simpl. lia.
  - destruct (q x); simpl; lia.
Qed.

Lemma accepted_of_snoc : forall u v now log,
  accepted_of v (log ++ [(u, now)])
  = if u =? v then accepted_of v log ++ [now] else accepted_of v log.
Proof.
  intros u v now log. rewrite accepted_of_app. unfold accepted_of at 2. simpl.
  destruct (u =? v); simpl; [reflexivity | apply app_nil_r].
Qed.

(** The decision of a call, read off the log of the accepted requests. *)
Lemma check_rate_limit_decision : forall t st u now now',
  cache_tracks t st -> t <= now ->
  snd (check_rate_limit u now now' (fst st))
  = negb (Nat.leb RATE_LIMIT_PER_USER
            (length (filter (fun x => now - one_minute <? x)
                       (accepted_of u (snd st))))).
Proof.
  intros t st u now now' Htr Ht. destruct (Htr u) as [_ [theta [Hth Hget]]].
  unfold check_rate_limit. rewrite Hget, filter_filter_weaker by lia.
  destruct (RATE_LIMIT_PER_USER <=? _)%nat; reflexivity.
Qed.

Lemma rate_step_tracks : forall t st u now now',
  cache_tracks t st -> t <= now -> now <= now' ->
  cache_tracks now' (rate_step st (u, now, now')).
Proof.
  intros t st u now now' Htr Ht Hn v. unfold rate_step.
  destruct (Htr v) as [Hle [theta [Hth Hget]]].
  unfold check_rate_limit.
  destruct (RATE_LIMIT_PER_USER <=? _)%nat; cbn [fst snd].
  - split.
    + eapply Forall_impl; [|exact Hle]. cbv beta. intros; lia.
    + exists theta. split; [lia | exact Hget].
  - rewrite accepted_of_snoc. rewrite cache_get_cleanup, cache_get_set.
    destruct (u =? v) eqn:E.
    + apply Z.eqb_eq in E. subst v. split.
      * apply Forall_app. split.
        -- eapply Forall_impl; [|exact Hle]. cbv beta. intros; lia.
        -- repeat constructor. exact Hn.
      * exists (Z.max (now' - one_hour) (now - one_minute)). split.
        { unfold one_hour, one_minute. lia. }
        rewrite Hget, filter_filter_weaker by lia.
        rewrite !filter_app, filter_filter_max. f_equal.
        cbn [filter].
        replace (Z.max (now' - one_hour) (now - one_minute) <? now)
          with (now' - one_hour <? now); [reflexivity|].
        unfold one_minute. destruct (now' - one_hour <? now) eqn:E1; symmetry.
        -- apply Z.ltb_lt. apply Z.ltb_lt in E1. lia.
        -- apply Z.ltb_ge. apply Z.ltb_ge in E1. lia.
    + split.
      * eapply Forall_impl; [|exact Hle]. cbv beta. intros; lia.
      * exists (Z.max (now' - one_hour) theta). split.
        { unfold one_hour, one_minute in *. lia. }
        rewrite Hget. apply filter_filter_max.
Qed.

Lemma rate_step_window : forall t st u now now',
  cache_tracks t st -> window_ok (snd st) -> t <= now ->
  window_ok (snd (rate_step st (u, now, now'))).
Proof.
  intros t st u now now' Htr Hw Ht v t'.
  unfold rate_step. cbn [snd].
  rewrite (check_rate_limit_decision t st u now now' Htr Ht).
  destruct (RATE_LIMIT_PER_USER <=? _)%nat eqn:Hfull; cbn [negb]; [apply Hw|].
  rewrite accepted_of_snoc. destruct (u =? v) eqn:E; [|apply Hw].
  apply Z.eqb_eq in E. subst v. unfold within_minute. rewrite filter_app, length_app.
  cbn [filter]. destruct ((t' - one_minute <? now) && (now <=? t')) eqn:Hin.
  - apply andb_true_iff in Hin. destruct Hin as [_ Hin]. apply Z.leb_le in Hin.
    apply Nat.leb_gt in Hfull. cbn [length].
    pose proof (filter_length_le _
                  (fun x => (t' - one_minute <? x) && (x <=? t'))
                  (fun x => now - one_minute <? x)
                  (accepted_of u (snd st))) as Hle.
    assert (Hle' : le (length (filter (fun x => (t' - one_minute <? x) && (x <=? t'))
                                 (accepted_of u (snd st))))
                      (length (filter (fun x => now - one_minute <? x)
                                 (accepted_of u (snd st))))).
    { apply Hle. intros x _ Hx. apply andb_true_iff in Hx. destruct Hx as [Hx _].
      apply Z.ltb_lt in Hx. apply Z.ltb_lt. lia. }
    clear Hle. unfold RATE_LIMIT_PER_USER in Hfull |- *.
    rewrite Nat.add_1_r. exact (Nat.le_lt_trans _ _ _ Hle' Hfull).
  - cbn [length]. rewrite Nat.add_0_r. apply Hw.
Qed.

Lemma clock_from_app : forall l t rest,
  clock_from t (l ++ rest) ->
  forall st, cache_tracks t st -> window_ok (snd st) ->
  exists t1, cache_tracks t1 (fold_left rate_step l st)
             /\ window_ok (snd (fold_left rate_step l st))
             /\ clock_from t1 rest.
Proof.
  induction l as [|[[u now] now'] l IH]; intros t rest Hclock st Htr Hw.
  - exists t. auto.
  - cbn [app clock_from] in Hclock. destruct Hclock as (Ht & Hn & Hrest).
    cbn [fold_left].
    apply (IH now' rest Hrest).
    + exact (rate_step_tracks t st u now now' Htr Ht Hn).
    + exact (rate_step_window t st u now now' Htr Hw Ht).
Qed.

Lemma cache_tracks_start : forall t, cache_tracks t ([], []).
Proof.
  intros t u. split; [constructor|]. exists (t - one_minute). split; [lia|reflexivity].
Qed.

(** No more than ten a minute.  Along any run of calls, from the empty cache
    and with a clock that does not run backwards, the accepted requests of
    a user that fall into any one minute [(t - 1 min, t]] are ten at most:
    neither the list rebuilt on every call nor the hourly cleanup loses a
    request that still counts. *)
Theorem rate_limit_window :
  forall calls t0,
    clock_from t0 calls ->
    forall u t,
      (length (within_minute t
                 (accepted_of u (snd (fold_left rate_step calls ([], [])))))
       <= RATE_LIMIT_PER_USER)%nat.
Proof.
  intros calls t0 Hclock.
  destruct (clock_from_app calls t0 [] ltac:(rewrite app_nil_r; exact Hclock)
              ([], []) (cache_tracks_start t0)) as [t1 (_ & Hw & _)].
  - intros u t. cbn. lia.
  - exact Hw.
Qed.

Lemma rate_limit_window_witness :
  map snd (snd (fold_left rate_step burst ([], [])))
  = map (fun k => Z.of_nat k * 1000000) (seq 1 10) ++ [61000000]
  /\ (length (within_minute 61000000%Z
                (accepted_of 7%Z (snd (fold_left rate_step burst ([], [])))))
      <= RATE_LIMIT_PER_USER)%nat.
Proof.
  split; [reflexivity|].
  apply (rate_limit_window burst 0). unfold burst. cbn. lia.
Defined.

(** Who is let through.  After any such run a call is accepted exactly when
    fewer than ten requests of the user were accepted in the minute before
    it; a refused call leaves the cache as it was. *)
Theorem rate_limit_decision :
  forall calls t0 u now now',
    clock_from t0 (calls ++ [(u, now, now')]) ->
    let st := fold_left rate_step calls ([], []) in
    let recent := filter (fun x => now - one_minute <? x) (accepted_of u (snd st)) in
    check_rate_limit u now now' (fst st)
    = if (length recent <? RATE_LIMIT_PER_USER)%nat
      then (_cleanup_rate_limit_cache now'
              (cache_set u (filter (fun x => now - one_minute <? x)
                              (cache_get u (fst st)) ++ [now]) (fst st)),
            true)
      else (fst st, false).
Proof.
  intros calls t0 u now now' Hclock st recent.
  destruct (clock_from_app calls t0 _ Hclock ([], []) (cache_tracks_start t0))
    as [t1 (Htr & _ & Hnext)].
  { intros v t. cbn. lia. }
  cbn [clock_from] in Hnext. destruct Hnext as (Ht & _).
  pose proof (check_rate_limit_decision t1 _ u now now' Htr Ht) as Hdec.
  fold st in Hdec. fold recent in Hdec.
  unfold check_rate_limit in *.
  destruct (Nat.leb RATE_LIMIT_PER_USER
              (length (filter (fun req_time => now - one_minute <? req_time)
                         (cache_get u (fst st))))) eqn:E;
    cbn [snd] in Hdec.
  - replace (length recent <? RATE_LIMIT_PER_USER)%nat with false; [reflexivity|].
    symmetry. apply Nat.ltb_ge. symmetry in Hdec. apply negb_false_iff in Hdec.
    apply Nat.leb_le in Hdec. exact Hdec.
  - replace (length recent <? RATE_LIMIT_PER_USER)%nat with true; [reflexivity|].
    symmetry. apply Nat.ltb_lt. symmetry in Hdec. apply negb_true_iff in Hdec.
    apply Nat.leb_gt in Hdec. exact Hdec.
Qed.

Lemma rate_limit_decision_witness :
  check_rate_limit 7 11000000 11000005
    (fst (fold_left rate_step (firstn 10 burst) ([], [])))
  = (fst (fold_left rate_step (firstn 10 burst) ([], [])), false).
Proof.
  rewrite (rate_limit_decision (firstn 10 burst) 0 7 11000000 11000005).
  - reflexivity.
  - unfold burst. cbn. lia.
Defined.

(** ** Clients, operators and the catalogue *)

Lemma tables_grow_same : forall db db',
  same_tables db db' -> tables_grow db db'.
Proof. intros db db' (Hc & Hs & Hm & Ha). repeat split; auto. Qed.

Lemma insert_client_grows : forall u db db',
  insert_client u db = Some db' -> tables_grow db db'.
Proof.
  intros u db db' H. unfold insert_client in H.
  destruct (existsb _ _) eqn:E; [discriminate|]. injection H as <-.
  repeat split; simpl; auto. right. eexists. split; [reflexivity|]. simpl.
  intro Hin. apply in_map_iff in Hin. destruct Hin as [c [Hc Hin]].
  assert (Ht : existsb (fun c => telegram_id c =? u_id u) (clients db) = true).
  { apply existsb_exists. exists c. split; [exact Hin | apply Z.eqb_eq; exact Hc]. }
  congruence.
Qed.

Lemma create_appointment_tables : forall u sv m d s ts db,
  exists db1, (db1 = db \/ insert_client u db = Some db1)
              /\ same_tables db1 (fst (create_appointment u sv m d s ts db)).
Proof.
  intros u sv m d s ts db.
  destruct (get_or_create_client_spec u db) as [db1 [c (Hg & Hdb1 & _)]].
  exists db1. split; [exact Hdb1|]. unfold create_appointment. rewrite Hg.
  destruct (negb _); [apply same_tables_refl|].
  unfold insert_appointment. destruct (existsb _ _); [apply same_tables_refl|].
  destruct (fetchone (services_with_id sv db1));
    [destruct (fetchone (masters_with_id m db1))|]; repeat split.
Qed.

Lemma step_tables : forall db db', step db db' -> tables_grow db db'.
Proof.
  intros db db' Hstep. destruct Hstep.
  - eapply insert_client_grows; eassumption.
  - unfold add_admin. destruct (existsb (Z.eqb user_id) (admins db)) eqn:E.
    + apply tables_grow_same, same_tables_refl.
    + repeat split; simpl; auto. right. exists user_id. split; [reflexivity|].
      intro Hin.
      assert (Ht : existsb (Z.eqb user_id) (admins db) = true).
      { apply existsb_exists. exists user_id. split; [exact Hin | apply Z.eqb_refl]. }
      congruence.
  - destruct (create_appointment_tables u s m d t ts db) as [db1 [[->|Hins] Hsame]].
    + apply tables_grow_same. exact Hsame.
    + destruct (insert_client_grows _ _ _ Hins) as (Hs & Hm & Hc & Ha).
      destruct Hsame as (Hc' & Hs' & Hm' & Ha').
      unfold tables_grow. rewrite Hc', Hs', Hm', Ha'. auto.
  - unfold insert_appointment in H0. destruct (existsb _ _); [discriminate|].
    injection H0 as <- _. apply tables_grow_same. repeat split.
  - apply tables_grow_same. unfold cancel_appointment.
    destruct (fetchone _) as [[[[a c] s] m]|]; [|apply same_tables_refl].
    destruct (fetchone _); [|apply same_tables_refl]. repeat split.
  - apply tables_grow_same. repeat split.
  - apply tables_grow_same. repeat split.
  - apply tables_grow_same. unfold clear_history.
    destruct (client_by_telegram _ _); [|apply same_tables_refl]. repeat split.
  - apply tables_grow_same. repeat split.
  - apply tables_grow_same. repeat split.
  - apply tables_grow_same. repeat split.
  - apply tables_grow_same.
    destruct (before_admin_phase now ts db) as [_ H1].
    destruct (remind_admin_later now
                (remind_hour now (remind_day now (auto_complete now ts (db, [])))))
      as [_ H2].
    exact (same_tables_trans _ _ _ H1 H2).
Qed.

Lemma reachable_tables : forall db,
  reachable db ->
  services db = services init_db /\ masters db = masters init_db
  /\ NoDup (map telegram_id (clients db)) /\ NoDup (admins db).
Proof.
  induction 1 as [|db db' _ IH Hstep].
  - repeat split; simpl; repeat constructor. intros [].
  - destruct IH as (Hs & Hm & Hc & Ha).
    destruct (step_tables _ _ Hstep) as (Hs' & Hm' & Hc' & Ha').
    split; [congruence|]. split; [congruence|]. split.
    + destruct Hc' as [->|[c [-> Hnew]]]; [exact Hc|].
      rewrite map_app. apply NoDup_snoc; assumption.
    + destruct Ha' as [->|[a [-> Hnew]]]; [exact Ha|].
      apply NoDup_snoc; assumption.
Qed.

(** One client row per user.  In every store reachable from [init_db] the
    catalogue is the one of [init_db], no two clients and no two operators
    share a Telegram id, and the lookup by Telegram id with which every
    handler starts finds a client exactly when that client is the stored
    row of the user. *)
Theorem one_client_per_user :
  forall db,
    reachable db ->
    services db = services init_db /\ masters db = masters init_db
    /\ NoDup (map telegram_id (clients db)) /\ NoDup (admins db)
    /\ forall tg c,
         client_by_telegram tg db = Some c <-> In c (clients db) /\ telegram_id c = tg.
Proof.
  intros db Hr. destruct (reachable_tables db Hr) as (Hs & Hm & Hc & Ha).
  repeat split; try assumption.
  - unfold client_by_telegram, fetchone in H.
    destruct (filter _ _) as [|c' l] eqn:Hf; [discriminate|]. injection H as ->.
    assert (Hin : In c (filter (fun c => telegram_id c =? tg) (clients db)))
      by (rewrite Hf; left; reflexivity).
    apply filter_In in Hin. tauto.
  - unfold client_by_telegram, fetchone in H.
    destruct (filter _ _) as [|c' l] eqn:Hf; [discriminate|]. injection H as ->.
    assert (Hin : In c (filter (fun c => telegram_id c =? tg) (clients db)))
      by (rewrite Hf; left; reflexivity).
    apply filter_In in Hin. apply Z.eqb_eq. tauto.
  - intros [Hin Htg]. unfold client_by_telegram.
    destruct (filter_unique _ telegram_id (clients db) tg Hc) as [c' Hc'].
    { rewrite <- Htg. apply in_map. exact Hin. }
    rewrite Hc'. simpl. f_equal.
    assert (Hin' : In c' (filter (fun y => telegram_id y =? tg) (clients db)))
      by (rewrite Hc'; left; reflexivity).
    apply filter_In in Hin'. destruct Hin' as [Hin' Heq]. apply Z.eqb_eq in Heq.
    apply (NoDup_map_eq _ _ telegram_id (clients db)); try assumption. congruence.
Qed.

Lemma one_client_per_user_witness :
  NoDup (map telegram_id (clients alice_cancelled))
  /\ exists c, client_by_telegram 502 alice_cancelled = Some c /\ c_name c = "Bob"%string.
Proof.
  destruct (one_client_per_user alice_cancelled alice_cancelled_reachable)
    as (_ & _ & Hnd & _ & Hfind).
  split; [exact Hnd|]. eexists.
  split; [apply Hfind; split; [right; left; reflexivity | reflexivity] | reflexivity].
Defined.

(** Tables only grow.  Along any run of handler and reminder steps the
    services and the masters stay as they are, and client and operator rows
    are only ever appended, never changed or deleted. *)
Theorem clients_and_operators_are_kept :
  forall db db',
    steps db db' ->
    services db' = services db /\ masters db' = masters db
    /\ (exists new, clients db' = clients db ++ new)
    /\ (exists new, admins db' = admins db ++ new).
Proof.
  induction 1 as [db | db db1 db2 _ IH Hstep].
  - repeat split; exists []; rewrite app_nil_r; reflexivity.
  - destruct IH as (Hs & Hm & [nc Hc] & [na Ha]).
    destruct (step_tables _ _ Hstep) as (Hs' & Hm' & Hc' & Ha').
    split; [congruence|]. split; [congruence|]. split.
    + destruct Hc' as [->|[c [-> _]]]; [eauto|].
      exists (nc ++ [c]). rewrite Hc, app_assoc. reflexivity.
    + destruct Ha' as [->|[a [-> _]]]; [eauto|].
      exists (na ++ [a]). rewrite Ha, app_assoc. reflexivity.
Qed.

Lemma clients_and_operators_are_kept_witness :
  services alice_cancelled = services init_db
  /\ exists new, clients alice_cancelled = clients init_db ++ new.
Proof.
  assert (Hsteps : steps init_db alice_cancelled).
  { eapply steps_step; [eapply steps_step; [eapply steps_step;
      [eapply steps_step; [apply steps_refl|]|]|]|].
    - eapply (step_register _ _ alice). reflexivity.
    - eapply (step_register _ _ bob). reflexivity.
    - apply (step_create two_clients alice 1 1 d_2024_06_10 (14, 30) 0).
    - apply (step_cancel alice_booked alice 1 10). }
  destruct (clients_and_operators_are_kept init_db alice_cancelled Hsteps)
    as (Hs & _ & Hc & _).
  split; assumption.
Defined.

(** ** What the operators are told *)

(** The row that [WHERE a.id = ?] fetches from the three-way join. *)
Lemma joined_row_first : forall db a c s m ss ms,
  (forall b, In b (appointments db) -> a_id b = a_id a -> b = a) ->
  In a (appointments db) ->
  clients_with_id (client_id a) db = [c] ->
  services_with_id (service_id a) db = s :: ss ->
  masters_with_id (master_id a) db = m :: ms ->
  fetchone (select_joined (has_id (a_id a)) db) = Some (a, c, s, m).
Proof.
  intros db a c s m ss ms Huniq Ha Hc Hs Hm.
  assert (Hjoin : exists rest, join_csm db a = (a, c, s, m) :: rest).
  { unfold join_csm. rewrite Hc, Hs, Hm. simpl. eauto. }
  destruct Hjoin as [rest Hjoin].
  unfold select_joined. clear - Ha Hjoin Huniq.
  induction (appointments db) as [|b l IH]; [contradiction|]. simpl.
  destruct (has_id (a_id a) b) eqn:Hb.
  - assert (b = a).
    { apply Huniq; [left; reflexivity|]. apply Z.eqb_eq in Hb. exact Hb. }
    subst b. rewrite Hjoin. reflexivity.
  - destruct Ha as [->|Ha].
    + unfold has_id in Hb. rewrite Z.eqb_refl in Hb. discriminate.
    + simpl. apply IH; [|exact Ha]. intros b' Hb'. apply Huniq. right. exact Hb'.
Qed.

(** The same row after an [UPDATE] of the appointment that keeps its keys. *)
Lemma joined_row_after_update : forall f db a c s ss m ms,
  keeps_keys f -> (forall b, service_id (f b) = service_id b /\ master_id (f b) = master_id b) ->
  well_formed db -> In a (appointments db) ->
  In c (clients db) -> c_id c = client_id a ->
  services_with_id (service_id a) db = s :: ss ->
  masters_with_id (master_id a) db = m :: ms ->
  fetchone (select_joined (has_id (a_id a)) (update_where_id (a_id a) f db))
  = Some (f a, c, s, m).
Proof.
  intros f db a c s ss m ms Hkeys Hsm Hwf Ha Hc Hcid Hs Hm.
  destruct (Hkeys a) as (Hid & _ & Hcl). destruct (Hsm a) as [Hsv Hms].
  pose proof (well_formed_update (a_id a) f db Hkeys Hwf) as Hwf'.
  replace (has_id (a_id a)) with (has_id (a_id (f a))) by (rewrite Hid; reflexivity).
  apply (joined_row_first (update_where_id (a_id a) f db) (f a) c s m ss ms).
  - intros b Hb Hbid.
    apply (NoDup_map_eq _ _ a_id (appointments (update_where_id (a_id a) f db)));
      try assumption; [apply Hwf'|].
    simpl. apply in_map_iff. exists a. rewrite Z.eqb_refl. auto.
  - simpl. apply in_map_iff. exists a. rewrite Z.eqb_refl. auto.
  - rewrite Hcl. exact (single_client db a c Hwf Hc Hcid).
  - rewrite Hsv. exact Hs.
  - rewrite Hms. exact Hm.
Qed.

Lemma update_unknown_id : forall i f db,
  (forall a, In a (appointments db) -> a_id a <> i) ->
  update_where_id i f db = db.
Proof.
  intros i f db H. unfold update_where_id, with_appointments.
  replace (map (fun a => if a_id a =? i then f a else a) (appointments db))
    with (appointments db); [destruct db; reflexivity|].
  symmetry. rewrite <- (map_id (appointments db)) at 2. apply map_ext_in.
  intros a Ha. destruct (a_id a =? i) eqn:E; [|reflexivity].
  apply Z.eqb_eq in E. exfalso. exact (H a Ha E).
Qed.

Lemma select_unknown_id : forall i db,
  (forall a, In a (appointments db) -> a_id a <> i) ->
  select_joined (has_id i) db = [].
Proof.
  intros i db H. unfold select_joined. apply flat_map_nil. intros a Ha.
  replace (has_id i a) with false; [reflexivity|].
  symmetry. apply Z.eqb_neq. apply H. exact Ha.
Qed.

(** The operator's buttons on an id that no row has.  Both handlers leave
    the store as it is and still report success: [admin_complete_appointment]
    after its ten minutes of sleep and without a review request,
    [admin_cancel_appointment] without a notice to the operators.  Neither
    ever answers that the appointment was not found. *)
Theorem admin_actions_on_unknown_id :
  forall i ts db,
    (forall a, In a (appointments db) -> a_id a <> i) ->
    admin_complete_appointment i ts db = (db, [Sleep 600; Reply (AdminCompleted i)])
    /\ admin_cancel_appointment i ts db = (db, [Reply (AdminCancelled i)]).
Proof.
  intros i ts db H.
  unfold admin_complete_appointment, admin_cancel_appointment,
    ask_for_review, send_cancellation_notification.
  rewrite !update_unknown_id by exact H.
  rewrite select_unknown_id by exact H. split; reflexivity.
Qed.

Lemma admin_actions_on_unknown_id_witness :
  admin_complete_appointment 7 20 alice_booked
  = (alice_booked, [Sleep 600; Reply (AdminCompleted 7)])
  /\ admin_cancel_appointment 7 20 alice_booked
     = (alice_booked, [Reply (AdminCancelled 7)]).
Proof.
  apply (admin_actions_on_unknown_id 7 20 alice_booked).
  intros a Ha. cbv in Ha. destruct Ha as [<-|[]]. discriminate.
Defined.

(** The operator's buttons on a stored appointment.  In a well-formed store,
    for a row of any status whose client, service and master are stored,
    [admin_complete_appointment] stamps the row completed and, ten minutes
    later, asks its client for a review before it answers;
    [admin_cancel_appointment] stamps it cancelled and sends every operator
    the cancellation notice marked as cancelled by the administrator. *)
Theorem admin_actions_notify :
  forall ts db a c,
    well_formed db -> In a (appointments db) ->
    In c (clients db) -> c_id c = client_id a ->
    services_with_id (service_id a) db <> [] ->
    masters_with_id (master_id a) db <> [] ->
    exists s m,
      fetchone (services_with_id (service_id a) db) = Some s
      /\ fetchone (masters_with_id (master_id a) db) = Some m
      /\ admin_complete_appointment (a_id a) ts db
         = (update_where_id (a_id a) (set_status completed ts) db,
            [Sleep 600;
             Send (telegram_id c) (ReviewRequest (a_id a) (s_name s) (m_name m));
             Reply (AdminCompleted (a_id a))])
      /\ admin_cancel_appointment (a_id a) ts db
         = (update_where_id (a_id a) (set_status cancelled ts) db,
            map (fun admin_id =>
                   Send admin_id
                     (CancellationNotice (a_id a) (c_name c) (s_name s) (m_name m)
                        (appointment_time a) by_admin))
                (admins db)
            ++ [Reply (AdminCancelled (a_id a))]).
Proof.
  intros ts db a c Hwf Ha Hc Hcid Hsv Hms.
  destruct (services_with_id (service_id a) db) as [|s ss] eqn:Ess; [contradiction|].
  destruct (masters_with_id (master_id a) db) as [|m ms] eqn:Ems; [contradiction|].
  exists s, m. split; [reflexivity|]. split; [reflexivity|].
  assert (Hrow : forall st,
             fetchone (select_joined (has_id (a_id a))
                         (update_where_id (a_id a) (set_status st ts) db))
             = Some (set_status st ts a, c, s, m)).
  { intro st. apply (joined_row_after_update _ db a c s ss m ms); try assumption.
    - apply set_status_keeps_keys.
    - intro b. split; reflexivity. }
  unfold admin_complete_appointment, admin_cancel_appointment,
    ask_for_review, send_cancellation_notification.
  rewrite !Hrow. split; reflexivity.
Qed.

Lemma admin_actions_notify_witness :
  exists s m,
    admin_cancel_appointment 1 20 alice_cancelled
    = (update_where_id 1 (set_status cancelled 20) alice_cancelled,
       [Send 1627345808
          (CancellationNotice 1 "Alice" (s_name s) (m_name m)
             (strptime d_2024_06_10 (14, 30)) by_admin);
        Reply (AdminCancelled 1)]).
Proof.
  assert (Hwf : well_formed alice_cancelled)
    by (apply reachable_well_formed, alice_cancelled_reachable).
  destruct (admin_actions_notify 20 alice_cancelled
              (set_status cancelled 10
                 {| a_id := 1; client_id := 1; service_id := 1; master_id := 1;
                    appointment_time := strptime d_2024_06_10 (14, 30);
                    status := active; created_at := 0; updated_at := 0;
                    reminder_sent_day := false; reminder_sent_hour := false;
                    reminder_sent_admin := false |})
              {| c_id := 1; telegram_id := 501; username := "alice";
                 c_name := "Alice" |} Hwf)
    as [s [m (_ & _ & _ & H)]].
  - left. reflexivity.
  - left. reflexivity.
  - reflexivity.
  - discriminate.
  - discriminate.
  - exists s, m. exact H.
Defined.

(** Who hears of a booking.  In a well-formed store, when no stored row
    holds the slot and the service and the master exist,
    [create_appointment] answers first and then sends every operator one
    notice with the new id, the client's name, the service, the master and
    the time. *)
Theorem booking_notifies_every_operator :
  forall u sv m d s ts db,
    well_formed db ->
    existsb (same_slot (strptime d s) m) (appointments db) = false ->
    services_with_id sv db <> [] -> masters_with_id m db <> [] ->
    let r := create_appointment u sv m d s ts db in
    exists c s0 m0,
      client_by_telegram (u_id u) (fst r) = Some c
      /\ fetchone (services_with_id sv db) = Some s0
      /\ fetchone (masters_with_id m db) = Some m0
      /\ snd r
         = Returned
             (Reply (AppointmentCreated (appointments_seq (fst r)))
              :: map (fun admin_id =>
                        Send admin_id
                          (NewAppointmentNotice (appointments_seq (fst r))
                             (c_name c) (s_name s0) (m_name m0) (strptime d s)))
                     (admins db)).
Proof.
  intros u sv m d s ts db Hwf Hfree Hsv Hms r. subst r.
  destruct (get_or_create_client_spec u db) as [db1 [c (Hg&Hdb1&Hc&Htg&Happ&_)]].
  pose proof (get_or_create_client_found u db _ _ Hg) as Hfound.
  assert (Hwf1 : well_formed db1).
  { destruct Hdb1 as [->|Hins]; [exact Hwf|].
    exact (well_formed_insert_client u db db1 Hins Hwf). }
  assert (Htab : appointments_seq db1 = appointments_seq db
                 /\ services db1 = services db /\ masters db1 = masters db
                 /\ admins db1 = admins db).
  { destruct Hdb1 as [->|Hins]; [auto|].
    destruct (insert_client_keeps_appointments _ _ _ Hins) as (_&?&?&?&?&_). auto. }
  destruct Htab as (Hseq & Hs & Hm & Had).
  unfold create_appointment. rewrite Hg.
  assert (Hav : is_slot_available d s m db1 = true).
  { unfold is_slot_available.
    rewrite (active_at_appointments _ _ db db1 Happ), no_row_no_active by exact Hfree.
    reflexivity. }
  rewrite Hav. cbn [negb]. unfold insert_appointment. rewrite Happ, Hfree.
  assert (Hs1 : services_with_id sv db1 = services_with_id sv db)
    by (unfold services_with_id; rewrite Hs; reflexivity).
  assert (Hm1 : masters_with_id m db1 = masters_with_id m db)
    by (unfold masters_with_id; rewrite Hm; reflexivity).
  rewrite Hs1, Hm1.
  destruct (services_with_id sv db) as [|s0 ss] eqn:Ess; [contradiction|].
  destruct (masters_with_id m db) as [|m0 ms] eqn:Ems; [contradiction|].
  cbn [fetchone hd_error fst snd].
  set (i := next_rowid (appointments_seq db1) (map a_id (appointments db))).
  set (row := {| a_id := i; client_id := c_id c; service_id := sv; master_id := m;
                 appointment_time := strptime d s; status := active;
                 created_at := ts; updated_at := ts;
                 reminder_sent_day := false; reminder_sent_hour := false;
                 reminder_sent_admin := false |}).
  set (db2 := {| clients := clients db1; clients_seq := clients_seq db1;
                 services := services db1; masters := masters db1;
                 admins := admins db1;
                 appointments := appointments db ++ [row];
                 appointments_seq := i |}).
  exists c, s0, m0.
  split; [exact Hfound|]. split; [reflexivity|]. split; [reflexivity|].
  f_equal. f_equal. unfold send_new_appointment_notification.
  change i with (a_id row) at 1.
  rewrite (joined_row_first db2 row c s0 m0 ss ms).
  - unfold send_admin_notification. cbn [admins db2]. rewrite Had. reflexivity.
  - intros b Hb Hid. cbn [appointments db2] in Hb. apply in_app_or in Hb.
    destruct Hb as [Hb|[<-|[]]]; [|reflexivity].
    exfalso. apply (next_rowid_fresh (appointments_seq db1) (map a_id (appointments db))).
    fold i. change i with (a_id row). rewrite <- Hid. apply in_map. exact Hb.
  - cbn [appointments db2]. apply in_or_app. right. left. reflexivity.
  - change (clients_with_id (client_id row) db2) with (clients_with_id (client_id row) db1).
    exact (single_client db1 row c Hwf1 Hc eq_refl).
  - change (services_with_id (service_id row) db2) with (services_with_id sv db1).
    rewrite Hs1. rewrite ?Ess. reflexivity.
  - change (masters_with_id (master_id row) db2) with (masters_with_id m db1).
    rewrite Hm1. rewrite ?Ems. reflexivity.
Qed.

Lemma booking_notifies_every_operator_witness :
  exists c s0 m0,
    client_by_telegram 501 alice_booked = Some c
    /\ fetchone (services_with_id 1 two_clients) = Some s0
    /\ fetchone (masters_with_id 1 two_clients) = Some m0
    /\ snd (create_appointment alice 1 1 d_2024_06_10 (14, 30) 0 two_clients)
       = Returned
           (Reply (AppointmentCreated (appointments_seq alice_booked))
            :: map (fun admin_id =>
                      Send admin_id
                        (NewAppointmentNotice (appointments_seq alice_booked)
                           (c_name c) (s_name s0) (m_name m0)
                           (strptime d_2024_06_10 (14, 30))))
                   (admins two_clients)).
Proof.
  apply (booking_notifies_every_operator alice 1 1 d_2024_06_10 (14, 30) 0 two_clients).
  - apply reachable_well_formed, two_clients_reachable.
  - reflexivity.
  - discriminate.
  - discriminate.
Defined.
